(** * openclaw: the ACP prompt stream projector, the reply projection
      pipeline and the bounded webhook guards

    A shallow embedding of
    - [extensions/acpx/src/runtime-internals/events.ts]
      (the prompt stream projector, [PromptStreamProjector.ingestLine]),
    - the ACP reply projector ([createAcpReplyProjector]: [onEvent], [flush],
      [emitSystemStatus], [emitToolSummary], [emitTruncationNotice]),
    - [src/plugin-sdk/webhook-memory-guards.ts]
      ([createFixedWindowRateLimiter], [createBoundedCounter]),
    followed by the properties proved about them.

    Conventions.  A JavaScript string is a [string]: one [ascii] stands for
    one UTF-16 code unit below 256, so [String.length] is the source's
    [.length].  A JavaScript number that the modelled code reads (request
    ids, error codes, sizes, time stamps in milliseconds) is an integer [Z].
    A JavaScript [Set<string>] is a [gset string], a [Map] whose iteration
    order the code relies on is a list of pairs in insertion order. *)

From Stdlib Require Import ZArith List Bool Lia Ascii String DecimalString.
From Stdlib Require Import QArith Qround.
From stdpp Require Import base option gmap strings.

Import ListNotations.
Set Warnings "-register-all".
Local Open Scope Z_scope.
Local Open Scope list_scope.
Local Open Scope string_scope.

(* ===================================================================== *)
(** * JavaScript strings                                                  *)
(* ===================================================================== *)

Module Js.

(** White space of [String.prototype.trim] among the code units below 256:
    TAB, LF, VT, FF, CR, SPACE and NBSP. *)
Definition isWhiteSpace (c : ascii) : bool :=
  let n := nat_of_ascii c in
  ((9 <=? n) && (n <=? 13) || (n =? 32) || (n =? 160))%nat.

Fixpoint trimStart (s : string) : string :=
  match s with
  | String c r => if isWhiteSpace c then trimStart r else s
  | EmptyString => EmptyString
  end.

(** [trimEnd] keeps a character when it is not white space or when something
    is kept after it. *)
Fixpoint trimEnd (s : string) : string :=
  match s with
  | String c r =>
      match trimEnd r with
      | EmptyString => if isWhiteSpace c then EmptyString else String c EmptyString
      | r' => String c r'
      end
  | EmptyString => EmptyString
  end.

(** [s.trim()] *)
Definition trim (s : string) : string := trimEnd (trimStart s).

(** [s.toLowerCase()] on code units below 256: A-Z and the Latin-1 capitals
    (192-222 without the multiplication sign 215) move up by 32. *)
Definition lowerChar (c : ascii) : ascii :=
  let n := nat_of_ascii c in
  if ((65 <=? n) && (n <=? 90)
      || (192 <=? n) && (n <=? 222) && negb (n =? 215))%nat
  then ascii_of_nat (n + 32) else c.

Fixpoint toLowerCase (s : string) : string :=
  match s with
  | String c r => String (lowerChar c) (toLowerCase r)
  | EmptyString => EmptyString
  end.

(** [s.length] *)
Definition len (s : string) : Z := Z.of_nat (String.length s).

(** [s.slice(0, n)]: a negative [n] counts from the end. *)
Definition slice0 (s : string) (n : Z) : string :=
  String.substring 0 (Z.to_nat (if (n <? 0)%Z then Z.max (len s + n) 0 else n)) s.

(** [String(n)] and the interpolation of an integer in a template. *)
Definition ofZ (n : Z) : string := NilZero.string_of_int (Z.to_int n).

(** Truthiness of a string: [""] is falsy. *)
Definition nonEmpty (s : string) : bool :=
  match s with EmptyString => false | _ => true end.

(** Truthiness of [string | undefined]. *)
Definition truthy (o : option string) : bool :=
  match o with Some s => nonEmpty s | None => false end.

(** [a || b] on strings. *)
Definition orElse (a b : string) : string := if nonEmpty a then a else b.

(** [a === b] on [string | undefined]. *)
Definition optEqb (a b : option string) : bool :=
  match a, b with
  | Some x, Some y => String.eqb x y
  | None, None => true
  | _, _ => false
  end.

(** [parts.join(sep)] *)
Fixpoint join (sep : string) (parts : list string) : string :=
  match parts with
  | [] => ""
  | [p] => p
  | p :: rest => p ++ sep ++ join sep rest
  end.

(** The line feed and the carriage return. *)
Definition LF : ascii := "010"%char.
Definition CR : ascii := "013"%char.

(** Puts a code unit before the first of the lines. *)
Definition consHead (c : ascii) (lines : list string) : list string :=
  match lines with
  | line :: rest => String c line :: rest
  | [] => [String c EmptyString]
  end.

(** [s.split(/\r?\n/)]: a line ends at a line feed, and the carriage return
    right before that line feed belongs to the separator; the empty string
    has one line, the empty one. *)
Fixpoint splitLines (s : string) : list string :=
  match s with
  | EmptyString => [EmptyString]
  | String c r =>
      if Ascii.eqb c LF then EmptyString :: splitLines r
      else
        match r with
        | String c' r' =>
            if Ascii.eqb c CR && Ascii.eqb c' LF then EmptyString :: splitLines r'
            else consHead c (splitLines r)
        | EmptyString => consHead c (splitLines r)
        end
  end.

End Js.

(* ===================================================================== *)
(** * Decoded JSON values and the helpers of [./shared.js]                *)
(* ===================================================================== *)

Module Json.

(** What [JSON.parse] returns.  Numbers are the integers; a property that is
    absent reads as [undefined], which is [None] in [option Json]. *)
Inductive Json : Type :=
| JNull
| JBool (b : bool)
| JNumber (n : Z)
| JString (s : string)
| JArray (items : list Json)
| JObject (fields : list (string * Json)).

(** [Record<string, unknown>] *)
Definition Obj : Type := list (string * Json).

(** [obj.key] *)
Fixpoint prop (o : Obj) (key : string) : option Json :=
  match o with
  | [] => None
  | (k, v) :: rest => if String.eqb k key then Some v else prop rest key
  end.

(** [Object.hasOwn(obj, key)] *)
Definition hasOwn (o : Obj) (key : string) : bool :=
  match prop o key with Some _ => true | None => false end.

(** [first?.key] *)
Definition propOpt (o : option Obj) (key : string) : option Json :=
  match o with Some f => prop f key | None => None end.

(** Modelled from the spec: [isRecord] of [./shared.js], which is not among
    the sources; "a mapping" is an object that is neither [null] nor an
    array.  [isRecord(v) ? v : null] is [asRecord v]. *)
Definition asRecord (v : option Json) : option Obj :=
  match v with Some (JObject f) => Some f | _ => None end.

Definition isRecord (v : option Json) : bool :=
  match asRecord v with Some _ => true | None => false end.

(** Modelled from the spec: [asString] of [./shared.js], not among the
    sources; the string itself, untrimmed, or nothing. *)
Definition asString (v : option Json) : option string :=
  match v with Some (JString s) => Some s | _ => None end.

(** Modelled from the spec: [asTrimmedString] of [./shared.js], not among
    the sources; the trimmed string, [""] for anything that is no string. *)
Definition asTrimmedString (v : option Json) : string :=
  match v with Some (JString s) => Js.trim s | _ => "" end.

(** Modelled from the spec: [asOptionalString] of [./shared.js], not among
    the sources; the trimmed string when it is not empty. *)
Definition asOptionalString (v : option Json) : option string :=
  let t := asTrimmedString v in
  if Js.nonEmpty t then Some t else None.

(** [Array.isArray(v) ? v : []] *)
Definition asArray (v : option Json) : list Json :=
  match v with Some (JArray xs) => xs | _ => [] end.

(** [entries.find((entry) => isRecord(entry))] *)
Fixpoint findRecord (xs : list Json) : option Obj :=
  match xs with
  | [] => None
  | JObject f :: _ => Some f
  | _ :: rest => findRecord rest
  end.

(** ** A reference decoder

    [decode] reads the JSON texts whose numbers are integer literals; it is
    the decoder of the examples.  The projector itself is stated over any
    decoder. *)

Definition dquote : ascii := "034"%char.
Definition backslash : ascii := "092"%char.

Definition isJsonSpace (c : ascii) : bool :=
  let n := nat_of_ascii c in
  ((n =? 32) || (n =? 9) || (n =? 10) || (n =? 13))%nat.

Fixpoint skipSpace (s : string) : string :=
  match s with
  | String c r => if isJsonSpace c then skipSpace r else s
  | EmptyString => EmptyString
  end.

Definition digitValue (c : ascii) : option Z :=
  let n := nat_of_ascii c in
  if ((48 <=? n) && (n <=? 57))%nat then Some (Z.of_nat n - 48) else None.

Definition hexValue (c : ascii) : option nat :=
  let n := nat_of_ascii c in
  if ((48 <=? n) && (n <=? 57))%nat then Some (n - 48)%nat
  else if ((97 <=? n) && (n <=? 102))%nat then Some (n - 87)%nat
  else if ((65 <=? n) && (n <=? 70))%nat then Some (n - 55)%nat
  else None.

(** The characters of a string literal after its opening quote, up to the
    closing one.  An escape [\u00XX] gives the code unit [XX]. *)
Fixpoint stringBody (s : string) : option (string * string) :=
  match s with
  | EmptyString => None
  | String c r =>
      if Ascii.eqb c dquote then Some (EmptyString, r)
      else if Ascii.eqb c backslash then
        match r with
        | String e r1 =>
            let simple (x : ascii) :=
              match stringBody r1 with
              | Some (body, rest) => Some (String x body, rest)
              | None => None
              end in
            if Ascii.eqb e dquote then simple dquote
            else if Ascii.eqb e backslash then simple backslash
            else if Ascii.eqb e "/" then simple "/"%char
            else if Ascii.eqb e "b" then simple "008"%char
            else if Ascii.eqb e "f" then simple "012"%char
            else if Ascii.eqb e "n" then simple "010"%char
            else if Ascii.eqb e "r" then simple "013"%char
            else if Ascii.eqb e "t" then simple "009"%char
            else if Ascii.eqb e "u" then
              match r1 with
              | String "0" (String "0" (String h (String l r2))) =>
                  match hexValue h, hexValue l, stringBody r2 with
                  | Some a, Some b, Some (body, rest) =>
                      Some (String (ascii_of_nat (16 * a + b)) body, rest)
                  | _, _, _ => None
                  end
              | _ => None
              end
            else None
        | EmptyString => None
        end
      else if (nat_of_ascii c <? 32)%nat then None
      else
        match stringBody r with
        | Some (body, rest) => Some (String c body, rest)
        | None => None
        end
  end.

Fixpoint digits (acc : Z) (s : string) : Z * string :=
  match s with
  | String c r =>
      match digitValue c with
      | Some d => digits (10 * acc + d) r
      | None => (acc, s)
      end
  | EmptyString => (acc, EmptyString)
  end.

(** [0] or a literal that starts with a digit from 1 to 9. *)
Definition natural (s : string) : option (Z * string) :=
  match s with
  | String c r =>
      match digitValue c with
      | Some 0 => Some (0, r)
      | Some d => Some (digits d r)
      | None => None
      end
  | EmptyString => None
  end.

(** A fraction or an exponent is outside the integers of [JNumber]. *)
Definition integerEnds (s : string) : bool :=
  match s with
  | String c _ => negb (Ascii.eqb c "." || Ascii.eqb c "e" || Ascii.eqb c "E")
  | EmptyString => true
  end.

Definition number (s : string) : option (Json * string) :=
  let signed (sign : Z) (t : string) :=
    match natural t with
    | Some (n, rest) => if integerEnds rest then Some (JNumber (sign * n), rest) else None
    | None => None
    end in
  match s with
  | String "-" r => signed (-1) r
  | _ => signed 1 s
  end.

(** A later duplicate of a key replaces the value and keeps the place. *)
Fixpoint setField (k : string) (v : Json) (o : Obj) : Obj :=
  match o with
  | [] => [(k, v)]
  | (k', v') :: rest =>
      if String.eqb k' k then (k', v) :: rest else (k', v') :: setField k v rest
  end.

Definition literal (word : string) (v : Json) (s : string) : option (Json * string) :=
  if String.prefix word s
  then Some (v, String.substring (String.length word) (String.length s - String.length word) s)
  else None.

Fixpoint value (fuel : nat) (s : string) {struct fuel} : option (Json * string) :=
  match fuel with
  | O => None
  | S fuel' =>
      match skipSpace s with
      | String "{" r =>
          match skipSpace r with
          | String "}" r' => Some (JObject [], r')
          | r1 => members fuel' [] r1
          end
      | String "[" r =>
          match skipSpace r with
          | String "]" r' => Some (JArray [], r')
          | r1 => elements fuel' [] r1
          end
      | String "t" _ as t => literal "true" (JBool true) t
      | String "f" _ as t => literal "false" (JBool false) t
      | String "n" _ as t => literal "null" JNull t
      | String c r as t =>
          if Ascii.eqb c dquote then
            match stringBody r with
            | Some (body, rest) => Some (JString body, rest)
            | None => None
            end
          else number t
      | EmptyString => None
      end
  end
with members (fuel : nat) (acc : Obj) (s : string) {struct fuel} : option (Json * string) :=
  match fuel with
  | O => None
  | S fuel' =>
      match skipSpace s with
      | String q r =>
          if Ascii.eqb q dquote then
            match stringBody r with
            | Some (key, r1) =>
                match skipSpace r1 with
                | String ":" r2 =>
                    match value fuel' r2 with
                    | Some (v, r3) =>
                        match skipSpace r3 with
                        | String "," r4 => members fuel' (setField key v acc) r4
                        | String "}" r4 => Some (JObject (setField key v acc), r4)
                        | _ => None
                        end
                    | None => None
                    end
                | _ => None
                end
            | None => None
            end
          else None
      | EmptyString => None
      end
  end
with elements (fuel : nat) (acc : list Json) (s : string) {struct fuel} : option (Json * string) :=
  match fuel with
  | O => None
  | S fuel' =>
      match value fuel' s with
      | Some (v, r) =>
          match skipSpace r with
          | String "," r1 => elements fuel' (acc ++ [v]) r1
          | String "]" r1 => Some (JArray (acc ++ [v]), r1)
          | _ => None
          end
      | None => None
      end
  end.

(** [JSON.parse(text)], [None] where it throws. *)
Definition decode (text : string) : option Json :=
  match value (2 * String.length text + 2) text with
  | Some (v, rest) =>
      match skipSpace rest with EmptyString => Some v | _ => None end
  | None => None
  end.

(** Writes a line with ['] for the double quote of JSON. *)
Fixpoint dq (s : string) : string :=
  match s with
  | String c r => String (if Ascii.eqb c "'" then dquote else c) (dq r)
  | EmptyString => EmptyString
  end.

End Json.


(* ===================================================================== *)
(** * Runtime events                                                      *)
(* ===================================================================== *)

Module Runtime.

Inductive Stream : Type := output | thought.

(** Modelled from the spec: [AcpRuntimeEvent] of the plugin SDK, whose
    declaration is not among the sources: the closed union
    [text_delta{text, stream, tag?}], [tool_call{text, tag?, toolCallId?,
    status?, title}], [status{text, tag?, used?, size?}], [done{stopReason}],
    [error{message, code?}].  An optional field is an [option]; a
    session-update tag ([AcpSessionUpdateTag]) is the string of the protocol;
    the fields that the first projector leaves out are [None]. *)
Inductive AcpRuntimeEvent : Type :=
| EvTextDelta (text : string) (stream : option Stream) (tag : option string)
| EvToolCall (text : string) (tag toolCallId status title : option string)
| EvStatus (text : string) (tag : option string) (used size : option Z)
| EvDone (stopReason : string)
| EvError (message : string) (code : option string).

End Runtime.

(* ===================================================================== *)
(** * The prompt stream projector ([events.ts])                           *)
(* ===================================================================== *)

Module Events.
Import Json Runtime.

(** [parsePromptStopReason] *)
Definition parsePromptStopReason (message : Obj) : option string :=
  if negb (hasOwn message "result") then None
  else
    match asRecord (prop message "result") with
    | None => None
    | Some result =>
        match asString (prop result "stopReason") with
        | Some stopReason =>
            if Js.nonEmpty stopReason && (0 <? Js.len (Js.trim stopReason))%Z
            then Some stopReason else None
        | None => None
        end
    end.

(** The text chunk of [agent_message_chunk] and [agent_thought_chunk]. *)
Definition textChunk (update : Obj) (stream : Stream) : option AcpRuntimeEvent :=
  match asRecord (prop update "content") with
  | None => None
  | Some content =>
      if negb (String.eqb (asTrimmedString (prop content "type")) "text") then None
      else
        match asString (prop content "text") with
        | Some text =>
            if Js.nonEmpty text then Some (EvTextDelta text (Some stream) None) else None
        | None => None
        end
  end.

(** [typeof v === "number" && Number.isFinite(v) ? v : null] *)
Definition finiteNumber (v : option Json) : option Z :=
  match v with Some (JNumber n) => Some n | _ => None end.

(** [Array.isArray(v) ? v.length : 0] *)
Definition arrayLength (v : option Json) : Z :=
  match v with Some (JArray xs) => Z.of_nat (List.length xs) | _ => 0 end.

(** The status text of a [plan] update. *)
Definition planText (update : Obj) : string :=
  let entries := asArray (prop update "entries") in
  let first := findRecord entries in
  let content := asTrimmedString (propOpt first "content") in
  if negb (Js.nonEmpty content) then "plan updated"
  else
    let status := asTrimmedString (propOpt first "status") in
    if Js.nonEmpty status then "plan: [" ++ status ++ "] " ++ content
    else "plan: " ++ content.

Definition statusOnly (text : string) : option AcpRuntimeEvent :=
  Some (EvStatus text None None None).

(** [parseSessionUpdateEvent] *)
Definition parseSessionUpdateEvent (message : Obj) : option AcpRuntimeEvent :=
  if negb (String.eqb (asTrimmedString (prop message "method")) "session/update") then None
  else
    match asRecord (prop message "params") with
    | None => None
    | Some params =>
        match asRecord (prop params "update") with
        | None => None
        | Some update =>
            let sessionUpdate := asTrimmedString (prop update "sessionUpdate") in
            if String.eqb sessionUpdate "agent_message_chunk" then textChunk update output
            else if String.eqb sessionUpdate "agent_thought_chunk" then textChunk update thought
            else if String.eqb sessionUpdate "tool_call"
                    || String.eqb sessionUpdate "tool_call_update" then
              let title :=
                Js.orElse (asTrimmedString (prop update "title"))
                  (Js.orElse (asTrimmedString (prop update "toolCallId"))
                     (Js.orElse (asTrimmedString (prop update "kind")) "tool")) in
              let status := asTrimmedString (prop update "status") in
              Some (EvToolCall
                      (if Js.nonEmpty status then title ++ " (" ++ status ++ ")" else title)
                      None None None None)
            else if String.eqb sessionUpdate "plan" then statusOnly (planText update)
            else if String.eqb sessionUpdate "available_commands_update" then
              let commands := arrayLength (prop update "availableCommands") in
              statusOnly ("available commands updated (" ++ Js.ofZ commands ++ ")")
            else if String.eqb sessionUpdate "current_mode_update" then
              let modeId := asTrimmedString (prop update "currentModeId") in
              statusOnly (if Js.nonEmpty modeId then "mode updated: " ++ modeId
                          else "mode updated")
            else if String.eqb sessionUpdate "config_option_update" then
              let options := arrayLength (prop update "configOptions") in
              statusOnly ("config options updated (" ++ Js.ofZ options ++ ")")
            else if String.eqb sessionUpdate "session_info_update" then
              let title := asTrimmedString (prop update "title") in
              statusOnly (if Js.nonEmpty title then "session info updated: " ++ title
                          else "session info updated")
            else if String.eqb sessionUpdate "usage_update" then
              match finiteNumber (prop update "used"), finiteNumber (prop update "size") with
              | Some used, Some size =>
                  statusOnly ("usage updated: " ++ Js.ofZ used ++ "/" ++ Js.ofZ size)
              | _, _ => statusOnly "usage updated"
              end
            else None
        end
    end.

(** The [error] event of a response that carries an error. *)
Definition errorEvent (parsed : Obj) : AcpRuntimeEvent :=
  let error := asRecord (prop parsed "error") in
  let message := asTrimmedString (propOpt error "message") in
  let codeValue := propOpt error "code" in
  EvError (Js.orElse message "acpx runtime error")
    (match finiteNumber codeValue with
     | Some n => Some (Js.ofZ n)
     | None => asOptionalString codeValue
     end).

Section Projector.

(** [JSON.parse], [None] where it throws. *)
Variable JSON_parse : string -> option Json.
(** [isAcpJsonRpcMessage] and [normalizeJsonRpcId] of [./jsonrpc.js], which is
    not among the sources. *)
Variable isAcpJsonRpcMessage : Obj -> bool.
Variable normalizeJsonRpcId : option Json -> option string.

(** [PromptStreamProjector.shouldHandlePromptResponse]; the projector's
    [promptRequestIds] is passed in. *)
Definition shouldHandlePromptResponse (promptRequestIds : gset string) (message : Obj) : bool :=
  match normalizeJsonRpcId (prop message "id") with
  | Some id => if Js.nonEmpty id then bool_decide (id ∈ promptRequestIds) else false
  | None => false
  end.

(** [ingestLine] from the decoded value on: the event returned and the
    projector's [promptRequestIds] afterwards. *)
Definition ingestParsed (parsed : Json) (promptRequestIds : gset string)
  : option AcpRuntimeEvent * gset string :=
  match asRecord (Some parsed) with
  | None => (None, promptRequestIds)
  | Some message =>
      if negb (isAcpJsonRpcMessage message) then (None, promptRequestIds)
      else
        match parseSessionUpdateEvent message with
        | Some updateEvent => (Some updateEvent, promptRequestIds)
        | None =>
            if String.eqb (asTrimmedString (prop message "method")) "session/prompt" then
              match normalizeJsonRpcId (prop message "id") with
              | Some id =>
                  (None, if Js.nonEmpty id then {[id]} ∪ promptRequestIds
                         else promptRequestIds)
              | None => (None, promptRequestIds)
              end
            else if hasOwn message "error" then
              if negb (shouldHandlePromptResponse promptRequestIds message)
              then (None, promptRequestIds)
              else (Some (errorEvent message), promptRequestIds)
            else
              match parsePromptStopReason message with
              | None => (None, promptRequestIds)
              | Some stopReason =>
                  if negb (shouldHandlePromptResponse promptRequestIds message)
                  then (None, promptRequestIds)
                  else (Some (EvDone stopReason), promptRequestIds)
              end
        end
  end.

(** [PromptStreamProjector.ingestLine] *)
Definition ingestLine (line : string) (promptRequestIds : gset string)
  : option AcpRuntimeEvent * gset string :=
  let trimmed := Js.trim line in
  if negb (Js.nonEmpty trimmed) then (None, promptRequestIds)
  else
    match JSON_parse trimmed with
    | None => (Some (EvStatus trimmed None None None), promptRequestIds)
    | Some parsed => ingestParsed parsed promptRequestIds
    end.

(** The lines of a stream, fed one after the other to one projector. *)
Fixpoint ingestLines (lines : list string) (promptRequestIds : gset string)
  : list (option AcpRuntimeEvent) * gset string :=
  match lines with
  | [] => ([], promptRequestIds)
  | line :: rest =>
      let '(event, ids) := ingestLine line promptRequestIds in
      let '(events, ids') := ingestLines rest ids in
      (event :: events, ids')
  end.

(** The body of the loop of [parseJsonLines]: what one line adds to the
    result. *)
Definition lineRecords (line : string) : list Obj :=
  let trimmed := Js.trim line in
  if negb (Js.nonEmpty trimmed) then []
  else
    match JSON_parse trimmed with
    | Some parsed =>
        match asRecord (Some parsed) with
        | Some record => [record]
        | None => []
        end
    | None => []
    end.

(** [parseJsonLines] *)
Definition parseJsonLines (value : string) : list Obj :=
  flat_map lineRecords (Js.splitLines value).

End Projector.

(** Modelled from the spec: [isAcpJsonRpcMessage] of [./jsonrpc.js], not
    among the sources: a mapping qualifies when it carries [method], or
    exactly one of [result] and [error] together with an [id]. *)
Definition isAcpJsonRpcMessage (message : Obj) : bool :=
  hasOwn message "method"
  || hasOwn message "id" && xorb (hasOwn message "result") (hasOwn message "error").

(** Modelled from the spec: [normalizeJsonRpcId] of [./jsonrpc.js], not among
    the sources: numbers stringify, strings pass through, a missing or
    [null] id is no identifier. *)
Definition normalizeJsonRpcId (id : option Json) : option string :=
  match id with
  | Some (JNumber n) => Some (Js.ofZ n)
  | Some (JString s) => Some s
  | _ => None
  end.

End Events.

(* ===================================================================== *)
(** * The projector that consumes prompt ids (the second [events.ts])     *)
(* ===================================================================== *)

(** The sources hold a second revision of [events.ts]: its events carry the
    update tag, a text chunk may come from a fallback field, a session
    update is returned only while a prompt is awaited, and a matching
    response removes its id ([consumePromptResponse]). *)
Module EventsGated.
Import Json Runtime.

(** [asOptionalFiniteNumber] *)
Definition asOptionalFiniteNumber (v : option Json) : option Z :=
  match v with Some (JNumber n) => Some n | _ => None end.

(** [parsePromptStopReason] is the one of the first revision. *)
Definition parsePromptStopReason := Events.parsePromptStopReason.

(** [resolveTextChunk] *)
Definition resolveTextChunk (update : Obj) (stream : Stream) (tag : string)
  : option AcpRuntimeEvent :=
  let fallback :=
    match asString (prop update "text") with
    | Some text =>
        if Js.nonEmpty text then Some (EvTextDelta text (Some stream) (Some tag)) else None
    | None => None
    end in
  match asRecord (prop update "content") with
  | Some contentRaw =>
      let contentType := asTrimmedString (prop contentRaw "type") in
      if Js.nonEmpty contentType && negb (String.eqb contentType "text") then None
      else
        match asString (prop contentRaw "text") with
        | Some text =>
            if Js.nonEmpty text && (0 <? Js.len text)%Z
            then Some (EvTextDelta text (Some stream) (Some tag))
            else fallback
        | None => fallback
        end
  | None => fallback
  end.

(** [resolveStatusTextForTag] *)
Definition resolveStatusTextForTag (tag : string) (update : Obj) : option string :=
  if String.eqb tag "available_commands_update" then
    let commands := asArray (prop update "availableCommands") in
    Some (if (0 <? Z.of_nat (List.length commands))%Z
          then "available commands updated (" ++ Js.ofZ (Z.of_nat (List.length commands)) ++ ")"
          else "available commands updated")
  else if String.eqb tag "current_mode_update" then
    let mode :=
      Js.orElse (asTrimmedString (prop update "currentModeId"))
        (Js.orElse (asTrimmedString (prop update "modeId"))
           (asTrimmedString (prop update "mode"))) in
    Some (if Js.nonEmpty mode then "mode updated: " ++ mode else "mode updated")
  else if String.eqb tag "config_option_update" then
    let id :=
      Js.orElse (asTrimmedString (prop update "id"))
        (asTrimmedString (prop update "configOptionId")) in
    let value :=
      Js.orElse (asTrimmedString (prop update "currentValue"))
        (Js.orElse (asTrimmedString (prop update "value"))
           (asTrimmedString (prop update "optionValue"))) in
    if Js.nonEmpty id && Js.nonEmpty value then Some ("config updated: " ++ id ++ "=" ++ value)
    else if Js.nonEmpty id then Some ("config updated: " ++ id)
    else Some "config updated"
  else if String.eqb tag "session_info_update" then
    Some (Js.orElse (asTrimmedString (prop update "summary"))
            (Js.orElse (asTrimmedString (prop update "message")) "session updated"))
  else if String.eqb tag "plan" then Some (Events.planText update)
  else None.

(** [parseSessionUpdateEvent] *)
Definition parseSessionUpdateEvent (message : Obj) : option AcpRuntimeEvent :=
  if negb (String.eqb (asTrimmedString (prop message "method")) "session/update") then None
  else
    match asRecord (prop message "params") with
    | None => None
    | Some params =>
        match asRecord (prop params "update") with
        | None => None
        | Some update =>
            match asOptionalString (prop update "sessionUpdate") with
            | None => None
            | Some tag =>
                if String.eqb tag "agent_message_chunk" then resolveTextChunk update output tag
                else if String.eqb tag "agent_thought_chunk" then
                  resolveTextChunk update thought tag
                else if String.eqb tag "tool_call" || String.eqb tag "tool_call_update" then
                  let title := Js.orElse (asTrimmedString (prop update "title")) "tool call" in
                  let status := asTrimmedString (prop update "status") in
                  let toolCallId := asOptionalString (prop update "toolCallId") in
                  Some (EvToolCall
                          (if Js.nonEmpty status then title ++ " (" ++ status ++ ")" else title)
                          (Some tag) toolCallId
                          (if Js.nonEmpty status then Some status else None)
                          (Some title))
                else if String.eqb tag "usage_update" then
                  let used := asOptionalFiniteNumber (prop update "used") in
                  let size := asOptionalFiniteNumber (prop update "size") in
                  Some (EvStatus
                          (match used, size with
                           | Some u, Some s => "usage updated: " ++ Js.ofZ u ++ "/" ++ Js.ofZ s
                           | _, _ => "usage updated"
                           end)
                          (Some tag) used size)
                else if String.eqb tag "available_commands_update"
                        || String.eqb tag "current_mode_update"
                        || String.eqb tag "config_option_update"
                        || String.eqb tag "session_info_update"
                        || String.eqb tag "plan" then
                  match resolveStatusTextForTag tag update with
                  | Some text =>
                      if Js.nonEmpty text then Some (EvStatus text (Some tag) None None)
                      else None
                  | None => None
                  end
                else None
            end
        end
    end.

Section Projector.

Variable JSON_parse : string -> option Json.
Variable isAcpJsonRpcMessage : Obj -> bool.
Variable normalizeJsonRpcId : option Json -> option string.

(** [PromptStreamProjector.consumePromptResponse]: whether the response is
    one of an awaited prompt, and [promptRequestIds] afterwards. *)
Definition consumePromptResponse (promptRequestIds : gset string) (message : Obj)
  : bool * gset string :=
  match normalizeJsonRpcId (prop message "id") with
  | Some id =>
      if negb (Js.nonEmpty id) then (false, promptRequestIds)
      else if negb (bool_decide (id ∈ promptRequestIds)) then (false, promptRequestIds)
      else (true, promptRequestIds ∖ {[id]})
  | None => (false, promptRequestIds)
  end.

(** [ingestLine] from the decoded value on. *)
Definition ingestParsed (parsed : Json) (promptRequestIds : gset string)
  : option AcpRuntimeEvent * gset string :=
  match asRecord (Some parsed) with
  | None => (None, promptRequestIds)
  | Some message =>
      if negb (isAcpJsonRpcMessage message) then (None, promptRequestIds)
      else if String.eqb (asTrimmedString (prop message "method")) "session/prompt" then
        match normalizeJsonRpcId (prop message "id") with
        | Some id =>
            (None, if Js.nonEmpty id then {[id]} ∪ promptRequestIds else promptRequestIds)
        | None => (None, promptRequestIds)
        end
      else
        match parseSessionUpdateEvent message with
        | Some updateEvent =>
            (if (0 <? Z.of_nat (size promptRequestIds))%Z then Some updateEvent else None,
             promptRequestIds)
        | None =>
            if hasOwn message "error" then
              let '(handled, ids) := consumePromptResponse promptRequestIds message in
              if negb handled then (None, ids)
              else (Some (Events.errorEvent message), ids)
            else
              match parsePromptStopReason message with
              | None => (None, promptRequestIds)
              | Some stopReason =>
                  let '(handled, ids) := consumePromptResponse promptRequestIds message in
                  if negb handled then (None, ids)
                  else (Some (EvDone stopReason), ids)
              end
        end
  end.

(** [PromptStreamProjector.ingestLine] *)
Definition ingestLine (line : string) (promptRequestIds : gset string)
  : option AcpRuntimeEvent * gset string :=
  let trimmed := Js.trim line in
  if negb (Js.nonEmpty trimmed) then (None, promptRequestIds)
  else
    match JSON_parse trimmed with
    | None => (Some (EvStatus trimmed None None None), promptRequestIds)
    | Some parsed => ingestParsed parsed promptRequestIds
    end.

End Projector.

End EventsGated.

(* ===================================================================== *)
(** * The reply projection pipeline ([createAcpReplyProjector])           *)
(* ===================================================================== *)

Module AcpProjector.
Import Runtime.

Inductive AcpDeliveryMode : Type := live | final_only.
Inductive AcpMetaMode : Type := off | minimal | verbose.

(** [cfg.acp?.stream]: a numeric option is [Some] for a finite number and
    [None] for anything else, a string or boolean option likewise. *)
Record AcpStreamConfig : Type := {
  stream_coalesceIdleMs : option Q;
  stream_maxChunkChars : option Q;
  stream_deliveryMode : option string;
  stream_metaMode : option string;
  stream_showUsage : option bool;
  stream_maxTurnChars : option Q;
  stream_maxToolSummaryChars : option Q;
  stream_maxStatusChars : option Q;
  stream_maxMetaEventsPerTurn : option Q;
  stream_tagVisibility : list (string * bool)
}.

Record AcpProjectionSettings : Type := {
  deliveryMode : AcpDeliveryMode;
  metaMode : AcpMetaMode;
  showUsage : bool;
  maxTurnChars : Z;
  maxToolSummaryChars : Z;
  maxStatusChars : Z;
  maxMetaEventsPerTurn : Z;
  tagVisibility : list (string * bool)
}.

Record ToolLifecycleState : Type := {
  started : bool;
  terminal : bool;
  lastRenderedHash : option string
}.

Record AcpProjectedDeliveryMeta : Type := {
  tag : option string;
  toolCallId : option string;
  toolStatus : option string;
  allowEdit : option bool
}.

(** Modelled from the spec: [ReplyDispatchKind] of [./reply-dispatcher.js],
    not among the sources: [deliver(kind: "block"|"tool", ...)]. *)
Inductive ReplyDispatchKind : Type := block | tool.

Definition DEFAULT_ACP_STREAM_COALESCE_IDLE_MS : Z := 350.
Definition DEFAULT_ACP_STREAM_MAX_CHUNK_CHARS : Z := 1800.
Definition DEFAULT_ACP_META_MODE : AcpMetaMode := minimal.
Definition DEFAULT_ACP_SHOW_USAGE : bool := false.
Definition DEFAULT_ACP_DELIVERY_MODE : AcpDeliveryMode := live.
Definition DEFAULT_ACP_MAX_TURN_CHARS : Z := 24000.
Definition DEFAULT_ACP_MAX_TOOL_SUMMARY_CHARS : Z := 320.
Definition DEFAULT_ACP_MAX_STATUS_CHARS : Z := 320.
Definition DEFAULT_ACP_MAX_META_EVENTS_PER_TURN : Z := 64.

Definition ACP_TAG_VISIBILITY_DEFAULTS : list (string * bool) :=
  [ ("agent_message_chunk", true);
    ("tool_call", true);
    ("tool_call_update", true);
    ("usage_update", false);
    ("available_commands_update", false);
    ("current_mode_update", false);
    ("config_option_update", false);
    ("session_info_update", false);
    ("plan", false);
    ("agent_thought_chunk", false) ].

Definition TERMINAL_TOOL_STATUSES : list string :=
  ["completed"; "failed"; "cancelled"; "done"; "error"].

(** [Math.round]: the nearest integer, a half goes up. *)
Definition Math_round (v : Q) : Z := Qfloor (Qplus v (1 # 2)).

(** [clampPositiveInteger] *)
Definition clampPositiveInteger (value : option Q) (fallback min max : Z) : Z :=
  match value with
  | None => fallback
  | Some v =>
      let rounded := Math_round v in
      if (rounded <? min)%Z then min
      else if (rounded >? max)%Z then max
      else rounded
  end.

(** [clampBoolean] *)
Definition clampBoolean (value : option bool) (fallback : bool) : bool :=
  match value with Some b => b | None => fallback end.

(** [resolveAcpDeliveryMode] *)
Definition resolveAcpDeliveryMode (value : option string) : AcpDeliveryMode :=
  match value with
  | Some v => if String.eqb v "final_only" then final_only else DEFAULT_ACP_DELIVERY_MODE
  | None => DEFAULT_ACP_DELIVERY_MODE
  end.

(** [resolveAcpMetaMode] *)
Definition resolveAcpMetaMode (value : option string) : AcpMetaMode :=
  match value with
  | Some v =>
      if String.eqb v "off" then off
      else if String.eqb v "minimal" then minimal
      else if String.eqb v "verbose" then verbose
      else DEFAULT_ACP_META_MODE
  | None => DEFAULT_ACP_META_MODE
  end.

(** [stream?.field] *)
Definition field {A : Type} (stream : option AcpStreamConfig)
    (f : AcpStreamConfig -> option A) : option A :=
  match stream with Some s => f s | None => None end.

(** [resolveAcpStreamCoalesceIdleMs] *)
Definition resolveAcpStreamCoalesceIdleMs (stream : option AcpStreamConfig) : Z :=
  clampPositiveInteger (field stream stream_coalesceIdleMs)
    DEFAULT_ACP_STREAM_COALESCE_IDLE_MS 0 5000.

(** [resolveAcpStreamMaxChunkChars] *)
Definition resolveAcpStreamMaxChunkChars (stream : option AcpStreamConfig) : Z :=
  clampPositiveInteger (field stream stream_maxChunkChars)
    DEFAULT_ACP_STREAM_MAX_CHUNK_CHARS 50 4000.

(** [resolveAcpProjectionSettings] *)
Definition resolveAcpProjectionSettings (stream : option AcpStreamConfig)
  : AcpProjectionSettings :=
  {| deliveryMode := resolveAcpDeliveryMode (field stream stream_deliveryMode);
     metaMode := resolveAcpMetaMode (field stream stream_metaMode);
     showUsage := clampBoolean (field stream stream_showUsage) DEFAULT_ACP_SHOW_USAGE;
     maxTurnChars :=
       clampPositiveInteger (field stream stream_maxTurnChars)
         DEFAULT_ACP_MAX_TURN_CHARS 1 500000;
     maxToolSummaryChars :=
       clampPositiveInteger (field stream stream_maxToolSummaryChars)
         DEFAULT_ACP_MAX_TOOL_SUMMARY_CHARS 64 8000;
     maxStatusChars :=
       clampPositiveInteger (field stream stream_maxStatusChars)
         DEFAULT_ACP_MAX_STATUS_CHARS 64 8000;
     maxMetaEventsPerTurn :=
       clampPositiveInteger (field stream stream_maxMetaEventsPerTurn)
         DEFAULT_ACP_MAX_META_EVENTS_PER_TURN 1 2000;
     tagVisibility :=
       match stream with Some s => stream_tagVisibility s | None => [] end |}.

(** The ellipsis U+2026 is one code unit; it lies above 255, and the unit
    133 stands for it. *)
Definition ellipsis : string := String "133"%char EmptyString.

(** [" · "], the middle dot is the code unit 183. *)
Definition middleDot : string := String " " (String "183"%char (String " " EmptyString)).

(** [truncateText] *)
Definition truncateText (input : string) (maxChars : Z) : string :=
  if (Js.len input <=? maxChars)%Z then input
  else if (maxChars <=? 1)%Z then Js.slice0 input maxChars
  else Js.slice0 input (maxChars - 1) ++ ellipsis.

(** [hashText] *)
Definition hashText (text : string) : string := Js.trim text.

(** [normalizeToolStatus] *)
Definition normalizeToolStatus (status : option string) : option string :=
  match status with
  | None => None
  | Some s =>
      if negb (Js.nonEmpty s) then None
      else
        let normalized := Js.toLowerCase (Js.trim s) in
        if Js.nonEmpty normalized then Some normalized else None
  end.

(** [table[key]] for a table of booleans, [None] when the key is not there. *)
Fixpoint lookupFlag (table : list (string * bool)) (key : string) : option bool :=
  match table with
  | [] => None
  | (k, b) :: rest => if String.eqb k key then Some b else lookupFlag rest key
  end.

(** [isTagVisible] *)
Definition isTagVisible (settings : AcpProjectionSettings) (tag : option string) : bool :=
  match tag with
  | None => true
  | Some t =>
      if negb (Js.nonEmpty t) then true
      else
        match lookupFlag (tagVisibility settings) t with
        | Some override => override
        | None =>
            match lookupFlag ACP_TAG_VISIBILITY_DEFAULTS t with
            | Some visible => visible
            | None => true
            end
        end
  end.

(** [TERMINAL_TOOL_STATUSES.has(status)] *)
Definition isTerminalStatus (status : string) : bool :=
  existsb (String.eqb status) TERMINAL_TOOL_STATUSES.

(** What the pipeline asks of its collaborators, in the order of the calls:
    the chunker ([EmbeddedBlockChunker]), the block reply pipeline
    ([createBlockReplyPipeline]) and the injected [deliver]. *)
Inductive Effect : Type :=
| ChunkerAppend (text : string)
| ChunkerDrain (force : bool)
| PipelineFlush (force : bool)
| Deliver (kind : ReplyDispatchKind) (text : string) (meta : option AcpProjectedDeliveryMeta).

(** The turn-scoped variables of the closure. *)
Record TurnState : Type := {
  emittedTurnChars : Z;
  emittedMetaEvents : Z;
  truncationNoticeEmitted : bool;
  lastStatusHash : option string;
  lastToolHash : option string;
  lastUsageTuple : option string;
  toolLifecycleById : gmap string ToolLifecycleState
}.

(** The state the projector is created with, and [resetTurnState]. *)
Definition initialTurnState : TurnState :=
  {| emittedTurnChars := 0;
     emittedMetaEvents := 0;
     truncationNoticeEmitted := false;
     lastStatusHash := None;
     lastToolHash := None;
     lastUsageTuple := None;
     toolLifecycleById := ∅ |}.

Definition resetTurnState (st : TurnState) : TurnState := initialTurnState.

Definition setEmittedTurnChars (n : Z) (st : TurnState) : TurnState :=
  {| emittedTurnChars := n;
     emittedMetaEvents := emittedMetaEvents st;
     truncationNoticeEmitted := truncationNoticeEmitted st;
     lastStatusHash := lastStatusHash st;
     lastToolHash := lastToolHash st;
     lastUsageTuple := lastUsageTuple st;
     toolLifecycleById := toolLifecycleById st |}.

Definition setEmittedMetaEvents (n : Z) (st : TurnState) : TurnState :=
  {| emittedTurnChars := emittedTurnChars st;
     emittedMetaEvents := n;
     truncationNoticeEmitted := truncationNoticeEmitted st;
     lastStatusHash := lastStatusHash st;
     lastToolHash := lastToolHash st;
     lastUsageTuple := lastUsageTuple st;
     toolLifecycleById := toolLifecycleById st |}.

Definition setTruncationNoticeEmitted (b : bool) (st : TurnState) : TurnState :=
  {| emittedTurnChars := emittedTurnChars st;
     emittedMetaEvents := emittedMetaEvents st;
     truncationNoticeEmitted := b;
     lastStatusHash := lastStatusHash st;
     lastToolHash := lastToolHash st;
     lastUsageTuple := lastUsageTuple st;
     toolLifecycleById := toolLifecycleById st |}.

Definition setLastStatusHash (h : option string) (st : TurnState) : TurnState :=
  {| emittedTurnChars := emittedTurnChars st;
     emittedMetaEvents := emittedMetaEvents st;
     truncationNoticeEmitted := truncationNoticeEmitted st;
     lastStatusHash := h;
     lastToolHash := lastToolHash st;
     lastUsageTuple := lastUsageTuple st;
     toolLifecycleById := toolLifecycleById st |}.

Definition setLastToolHash (h : option string) (st : TurnState) : TurnState :=
  {| emittedTurnChars := emittedTurnChars st;
     emittedMetaEvents := emittedMetaEvents st;
     truncationNoticeEmitted := truncationNoticeEmitted st;
     lastStatusHash := lastStatusHash st;
     lastToolHash := h;
     lastUsageTuple := lastUsageTuple st;
     toolLifecycleById := toolLifecycleById st |}.

Definition setLastUsageTuple (h : option string) (st : TurnState) : TurnState :=
  {| emittedTurnChars := emittedTurnChars st;
     emittedMetaEvents := emittedMetaEvents st;
     truncationNoticeEmitted := truncationNoticeEmitted st;
     lastStatusHash := lastStatusHash st;
     lastToolHash := lastToolHash st;
     lastUsageTuple := h;
     toolLifecycleById := toolLifecycleById st |}.

Definition setToolLifecycle (id : string) (s : ToolLifecycleState) (st : TurnState)
  : TurnState :=
  {| emittedTurnChars := emittedTurnChars st;
     emittedMetaEvents := emittedMetaEvents st;
     truncationNoticeEmitted := truncationNoticeEmitted st;
     lastStatusHash := lastStatusHash st;
     lastToolHash := lastToolHash st;
     lastUsageTuple := lastUsageTuple st;
     toolLifecycleById := <[id := s]> (toolLifecycleById st) |}.

Section Pipeline.

(** [prefixSystemMessage] of [infra/system-message.js], and
    [resolveToolDisplay], [formatToolSummary] of [agents/tool-display.js]:
    collaborators that are not among the sources. *)
Variable prefixSystemMessage : string -> string.
Variable ToolDisplay : Type.
Variable resolveToolDisplay : string -> string -> ToolDisplay.
Variable formatToolSummary : ToolDisplay -> string.

(** [params.shouldSendToolSummaries] and the resolved settings. *)
Variable shouldSendToolSummaries : bool.
Variable settings : AcpProjectionSettings.

(** [renderToolSummaryText] *)
Definition renderToolSummaryText (text : string) (status title : option string) : string :=
  let title' := match title with Some t => Js.trim t | None => "" end in
  let detailParts := if Js.nonEmpty title' then [title'] else [] in
  let status' := match status with Some s => Js.trim s | None => "" end in
  let detailParts :=
    if Js.nonEmpty status' then (detailParts ++ [("status=" ++ status')%string])%list
    else detailParts in
  let fallback := Js.trim text in
  let detailParts :=
    if (Z.of_nat (List.length detailParts) =? 0)%Z && Js.nonEmpty fallback
    then (detailParts ++ [fallback])%list else detailParts in
  let display :=
    resolveToolDisplay "tool_call" (Js.orElse (Js.join middleDot detailParts) "tool call") in
  formatToolSummary display.

(** [drainChunker] *)
Definition drainChunker (force : bool) : list Effect :=
  match deliveryMode settings with
  | final_only => if negb force then [] else [ChunkerDrain force]
  | live => [ChunkerDrain force]
  end.

(** [flush] *)
Definition flush (force : bool) : list Effect :=
  (drainChunker force ++ [PipelineFlush force])%list.

(** [consumeMetaQuota] *)
Definition consumeMetaQuota (force : bool) (st : TurnState) : bool * TurnState :=
  if force then (true, st)
  else if (emittedMetaEvents st >=? maxMetaEventsPerTurn settings)%Z then (false, st)
  else (true, setEmittedMetaEvents (emittedMetaEvents st + 1) st).

(** The flush that a status or tool line forces in live mode. *)
Definition flushIfLive : list Effect :=
  match deliveryMode settings with live => flush true | final_only => [] end.

(** [emitSystemStatus]; [force] is [opts?.force === true] and [dedupe] is
    [opts?.dedupe !== false]. *)
Definition emitSystemStatus (text : string) (meta : option AcpProjectedDeliveryMeta)
    (force dedupe : bool) (st : TurnState) : TurnState * list Effect :=
  if negb shouldSendToolSummaries then (st, [])
  else if match metaMode settings with off => negb force | _ => false end then (st, [])
  else
    let bounded := truncateText (Js.trim text) (maxStatusChars settings) in
    if negb (Js.nonEmpty bounded) then (st, [])
    else
      let formatted := prefixSystemMessage bounded in
      let hash := hashText formatted in
      if dedupe && Js.optEqb (lastStatusHash st) (Some hash) then (st, [])
      else
        let '(granted, st1) := consumeMetaQuota force st in
        if negb granted then (st1, [])
        else (setLastStatusHash (Some hash) st1,
              (flushIfLive ++ [Deliver tool formatted meta])%list).

(** The three guards of minimal mode for one tool call id: [None] where the
    source returns, otherwise the lifecycle state that it stores. *)
Definition minimalGuards (state : ToolLifecycleState) (hash : string)
    (isTerminal isStart : bool) : option ToolLifecycleState :=
  if isTerminal && terminal state then None
  else if isStart && started state then None
  else if Js.optEqb (lastRenderedHash state) (Some hash) then None
  else Some {| started := if isStart then true else started state;
               terminal := if isTerminal then true else terminal state;
               lastRenderedHash := Some hash |}.

(** [emitToolSummary] for the event [tool_call{text, tag, toolCallId, status,
    title}]; [force] is [opts?.force === true]. *)
Definition emitToolSummary (text : string) (evTag evToolCallId evStatus evTitle : option string)
    (force : bool) (st : TurnState) : TurnState * list Effect :=
  if negb shouldSendToolSummaries
     || match metaMode settings with off => true | _ => false end then (st, [])
  else if negb (isTagVisible settings evTag) then (st, [])
  else
    let toolSummary :=
      truncateText (renderToolSummaryText text evStatus evTitle)
        (maxToolSummaryChars settings) in
    let hash := hashText toolSummary in
    let toolCallId :=
      match evToolCallId with
      | Some id => if Js.nonEmpty (Js.trim id) then Some (Js.trim id) else None
      | None => None
      end in
    let status := normalizeToolStatus evStatus in
    let isTerminal := match status with Some s => isTerminalStatus s | None => false end in
    let isStart := Js.optEqb status (Some "in_progress") || Js.optEqb evTag (Some "tool_call") in
    let guarded : option TurnState :=
      match metaMode settings with
      | verbose => if Js.optEqb (lastToolHash st) (Some hash) then None else Some st
      | minimal =>
          match toolCallId with
          | Some id =>
              let state :=
                match toolLifecycleById st !! id with
                | Some s => s
                | None => {| started := false; terminal := false; lastRenderedHash := None |}
                end in
              match minimalGuards state hash isTerminal isStart with
              | Some state' => Some (setToolLifecycle id state' st)
              | None => None
              end
          | None => if Js.optEqb (lastToolHash st) (Some hash) then None else Some st
          end
      | off => Some st
      end in
    match guarded with
    | None => (st, [])
    | Some st1 =>
        let '(granted, st2) := consumeMetaQuota force st1 in
        if negb granted then (st2, [])
        else
          (setLastToolHash (Some hash) st2,
           (flushIfLive ++
            [Deliver tool toolSummary
               (Some {| tag := if Js.truthy evTag then evTag else None;
                        toolCallId := toolCallId;
                        toolStatus := status;
                        allowEdit :=
                          Some (Js.truthy toolCallId
                                && Js.optEqb evTag (Some "tool_call_update")) |})])%list)
    end.

(** [emitTruncationNotice] *)
Definition emitTruncationNotice (st : TurnState) : TurnState * list Effect :=
  if truncationNoticeEmitted st then (st, [])
  else
    emitSystemStatus "output truncated"
      (Some {| tag := Some "session_info_update"; toolCallId := None;
               toolStatus := None; allowEdit := None |})
      true false (setTruncationNoticeEmitted true st).

(** [onEvent] *)
Definition onEvent (event : AcpRuntimeEvent) (st : TurnState) : TurnState * list Effect :=
  match event with
  | EvTextDelta text stream evTag =>
      if match stream with Some thought => true | _ => false end then (st, [])
      else if negb (isTagVisible settings evTag) then (st, [])
      else if negb (Js.nonEmpty text) then (st, [])
      else if (emittedTurnChars st >=? maxTurnChars settings)%Z then emitTruncationNotice st
      else
        let remaining := (maxTurnChars settings - emittedTurnChars st)%Z in
        let accepted := if (remaining <? Js.len text)%Z then Js.slice0 text remaining else text in
        let '(st1, appended) :=
          if (Js.len accepted >? 0)%Z
          then (setEmittedTurnChars (emittedTurnChars st + Js.len accepted) st,
                (ChunkerAppend accepted :: drainChunker false)%list)
          else (st, []) in
        if (Js.len accepted <? Js.len text)%Z
        then
          let '(st2, notice) := emitTruncationNotice st1 in
          (st2, (appended ++ notice)%list)
        else (st1, appended)
  | EvStatus text evTag used size =>
      if negb (isTagVisible settings evTag) then (st, [])
      else
        let meta :=
          if Js.truthy evTag
          then Some {| tag := evTag; toolCallId := None; toolStatus := None; allowEdit := None |}
          else None in
        if Js.optEqb evTag (Some "usage_update") then
          if negb (showUsage settings) then (st, [])
          else
            let usageTuple :=
              match used, size with
              | Some u, Some s => Js.ofZ u ++ "/" ++ Js.ofZ s
              | _, _ => hashText text
              end in
            if Js.optEqb (Some usageTuple) (lastUsageTuple st) then (st, [])
            else emitSystemStatus text meta false true (setLastUsageTuple (Some usageTuple) st)
        else emitSystemStatus text meta false true st
  | EvToolCall text evTag evToolCallId evStatus evTitle =>
      emitToolSummary text evTag evToolCallId evStatus evTitle false st
  | EvDone _ | EvError _ _ => (resetTurnState st, flush true)
  end.

(** The events of a stream, each [onEvent] awaited before the next. *)
Fixpoint onEvents (events : list AcpRuntimeEvent) (st : TurnState)
  : TurnState * list Effect :=
  match events with
  | [] => (st, [])
  | event :: rest =>
      let '(st1, effects1) := onEvent event st in
      let '(st2, effects2) := onEvents rest st1 in
      (st2, (effects1 ++ effects2)%list)
  end.

End Pipeline.

(** The [onBlockReply] that the projector gives to the block reply
    pipeline: a chunk that the pipeline sends goes to [deliver]. *)
Definition onBlockReply (text : string) : list Effect := [Deliver block text None].

(** The [tool] deliveries among the effects. *)
Definition toolDeliveries (effects : list Effect) : list (string * option AcpProjectedDeliveryMeta) :=
  flat_map (fun e => match e with Deliver tool t m => [(t, m)] | _ => [] end) effects.

(** The text handed to the chunker, in order. *)
Definition appendedText (effects : list Effect) : string :=
  fold_right (fun e acc => match e with ChunkerAppend t => t ++ acc | _ => acc end) "" effects.

End AcpProjector.

(* ===================================================================== *)
(** * The bounded guards ([webhook-memory-guards.ts])                     *)
(* ===================================================================== *)

Module Guards.

(** A [Map<string, V>] that is read in insertion order: the oldest entry is
    the head of the list. *)
Definition OrderedMap (V : Type) : Type := list (string * V).

(** [map.get(key)] *)
Fixpoint mapGet {V : Type} (map : OrderedMap V) (key : string) : option V :=
  match map with
  | [] => None
  | (k, v) :: rest => if String.eqb k key then Some v else mapGet rest key
  end.

(** [map.delete(key)] *)
Definition mapDelete {V : Type} (map : OrderedMap V) (key : string) : OrderedMap V :=
  List.filter (fun kv => negb (String.eqb (fst kv) key)) map.

(** [touch]: [delete] and then [set], which puts the key last. *)
Definition touch {V : Type} (map : OrderedMap V) (key : string) (value : V) : OrderedMap V :=
  (mapDelete map key ++ [(key, value)])%list.

(** [map.size] *)
Definition mapSize {V : Type} (map : OrderedMap V) : Z := Z.of_nat (List.length map).

(** Modelled from the spec: [pruneMapToMaxSize] of [../infra/map-size.js],
    which is not among the sources: once the size exceeds the maximum the
    least recently touched keys, the first in the order of the map, are
    evicted until the size is the maximum. *)
Definition pruneMapToMaxSize {V : Type} (map : OrderedMap V) (maxSize : Z) : OrderedMap V :=
  skipn (Z.to_nat (mapSize map - maxSize)) map.

(** [Math.max(1, Math.floor(v))] *)
Definition atLeastOne (v : Q) : Z := Z.max 1 (Qfloor v).

Module FixedWindow.

Record FixedWindowState : Type := { count : Z; windowStartMs : Z }.

(** The options of [createFixedWindowRateLimiter]. *)
Record Options : Type := {
  opt_windowMs : Q;
  opt_maxRequests : Q;
  opt_maxTrackedKeys : Q;
  opt_pruneIntervalMs : option Q
}.

(** The variables of the closure. *)
Record Limiter : Type := {
  state : OrderedMap FixedWindowState;
  lastPruneMs : Z
}.

Section Limiter.
Variable options : Options.

Definition windowMs : Z := atLeastOne (opt_windowMs options).
Definition maxRequests : Z := atLeastOne (opt_maxRequests options).
Definition maxTrackedKeys : Z := atLeastOne (opt_maxTrackedKeys options).
Definition pruneIntervalMs : Z :=
  match opt_pruneIntervalMs options with
  | Some v => atLeastOne v
  | None => Z.max 1 windowMs
  end.

(** The limiter that [createFixedWindowRateLimiter] returns. *)
Definition create : Limiter := {| state := []; lastPruneMs := 0 |}.

(** [prune] *)
Definition prune (map : OrderedMap FixedWindowState) (nowMs : Z) : OrderedMap FixedWindowState :=
  List.filter (fun kv => negb (nowMs - windowStartMs (snd kv) >=? windowMs)%Z) map.

(** The sweep at the head of [isRateLimited]. *)
Definition sweep (l : Limiter) (nowMs : Z) : Limiter :=
  if (nowMs - lastPruneMs l >=? pruneIntervalMs)%Z
  then {| state := prune (state l) nowMs; lastPruneMs := nowMs |}
  else l.

(** [isRateLimited] *)
Definition isRateLimited (key : string) (nowMs : Z) (l : Limiter) : bool * Limiter :=
  if negb (Js.nonEmpty key) then (false, l)
  else
    let l1 := sweep l nowMs in
    let fresh :=
      (false,
       {| state :=
            pruneMapToMaxSize
              (touch (state l1) key {| count := 1; windowStartMs := nowMs |})
              maxTrackedKeys;
          lastPruneMs := lastPruneMs l1 |}) in
    match mapGet (state l1) key with
    | None => fresh
    | Some existing =>
        if (nowMs - windowStartMs existing >=? windowMs)%Z then fresh
        else
          let nextCount := (count existing + 1)%Z in
          ((nextCount >? maxRequests)%Z,
           {| state :=
                pruneMapToMaxSize
                  (touch (state l1) key
                     {| count := nextCount; windowStartMs := windowStartMs existing |})
                  maxTrackedKeys;
              lastPruneMs := lastPruneMs l1 |})
    end.

(** [size] *)
Definition size (l : Limiter) : Z := mapSize (state l).

(** [clear] *)
Definition clear (l : Limiter) : Limiter := {| state := []; lastPruneMs := 0 |}.

(** Calls for one key at the given times, one after the other. *)
Fixpoint calls (key : string) (times : list Z) (l : Limiter) : list bool * Limiter :=
  match times with
  | [] => ([], l)
  | t :: rest =>
      let '(r, l1) := isRateLimited key t l in
      let '(rs, l2) := calls key rest l1 in
      (r :: rs, l2)
  end.

(** Any calls, one after the other: the limiter afterwards. *)
Fixpoint run (requests : list (string * Z)) (l : Limiter) : Limiter :=
  match requests with
  | [] => l
  | (key, t) :: rest => run rest (snd (isRateLimited key t l))
  end.

End Limiter.
End FixedWindow.

Module Counter.

Record CounterState : Type := { count : Z; updatedAtMs : Z }.

(** The options of [createBoundedCounter]. *)
Record Options : Type := {
  opt_maxTrackedKeys : Q;
  opt_ttlMs : option Q;
  opt_pruneIntervalMs : option Q
}.

(** The variables of the closure. *)
Record BoundedCounter : Type := {
  counters : OrderedMap CounterState;
  lastPruneMs : Z
}.

Section Counter.
Variable options : Options.

Definition maxTrackedKeys : Z := atLeastOne (opt_maxTrackedKeys options).
Definition ttlMs : Z :=
  Z.max 0 (Qfloor (match opt_ttlMs options with Some v => v | None => 0%Q end)).
Definition pruneIntervalMs : Z :=
  match opt_pruneIntervalMs options with
  | Some v => atLeastOne v
  | None => Z.max 1 (if (ttlMs >? 0)%Z then ttlMs else 60000)
  end.

(** The counter that [createBoundedCounter] returns. *)
Definition create : BoundedCounter := {| counters := []; lastPruneMs := 0 |}.

(** [isExpired] *)
Definition isExpired (entry : CounterState) (nowMs : Z) : bool :=
  (ttlMs >? 0)%Z && (nowMs - updatedAtMs entry >=? ttlMs)%Z.

(** [prune] *)
Definition prune (map : OrderedMap CounterState) (nowMs : Z) : OrderedMap CounterState :=
  if (ttlMs >? 0)%Z then List.filter (fun kv => negb (isExpired (snd kv) nowMs)) map
  else map.

(** The sweep at the head of [increment]. *)
Definition sweep (c : BoundedCounter) (nowMs : Z) : BoundedCounter :=
  if (nowMs - lastPruneMs c >=? pruneIntervalMs)%Z
  then {| counters := prune (counters c) nowMs; lastPruneMs := nowMs |}
  else c.

(** [increment] *)
Definition increment (key : string) (nowMs : Z) (c : BoundedCounter) : Z * BoundedCounter :=
  if negb (Js.nonEmpty key) then (0%Z, c)
  else
    let c1 := sweep c nowMs in
    let baseCount :=
      match mapGet (counters c1) key with
      | Some existing => if negb (isExpired existing nowMs) then count existing else 0%Z
      | None => 0%Z
      end in
    let nextCount := (baseCount + 1)%Z in
    (nextCount,
     {| counters :=
          pruneMapToMaxSize
            (touch (counters c1) key {| count := nextCount; updatedAtMs := nowMs |})
            maxTrackedKeys;
        lastPruneMs := lastPruneMs c1 |}).

(** [size] *)
Definition size (c : BoundedCounter) : Z := mapSize (counters c).

(** [clear] *)
Definition clear (c : BoundedCounter) : BoundedCounter := {| counters := []; lastPruneMs := 0 |}.

(** Any calls, one after the other: the counter afterwards. *)
Fixpoint run (requests : list (string * Z)) (c : BoundedCounter) : BoundedCounter :=
  match requests with
  | [] => c
  | (key, t) :: rest => run rest (snd (increment key t c))
  end.

End Counter.
End Counter.

End Guards.

(* ===================================================================== *)
(** * Properties                                                          *)
(* ===================================================================== *)

Module JsFacts.

Lemma nonEmpty_true (s : string) : Js.nonEmpty s = true <-> s <> "".
Proof. destruct s; simpl; split; intros; congruence. Qed.

Lemma nonEmpty_false (s : string) : Js.nonEmpty s = false <-> s = "".
Proof. destruct s; simpl; split; intros; congruence. Qed.

Lemma orElse_nonEmpty (a b : string) : Js.nonEmpty a = true -> Js.orElse a b = a.
Proof. unfold Js.orElse. now intros ->. Qed.

Lemma orElse_empty (b : string) : Js.orElse "" b = b.
Proof. reflexivity. Qed.

End JsFacts.

Module EventsFacts.
Import Json Runtime Events.

(** The event that a response asks for: [error] when it carries an error,
    otherwise [done] when it carries a stop reason that is not blank. *)
Definition responseEvent (message : Obj) : option AcpRuntimeEvent :=
  if hasOwn message "error" then Some (errorEvent message)
  else
    match parsePromptStopReason message with
    | Some stopReason => Some (EvDone stopReason)
    | None => None
    end.


(** [message] is a [session/update] notification whose update is [update],
    of the kind [kind]. *)
Definition isSessionUpdate (message : Obj) (kind : string) (update : Obj) : Prop :=
  asTrimmedString (prop message "method") = "session/update"
  /\ exists params,
       asRecord (prop message "params") = Some params
       /\ asRecord (prop params "update") = Some update
       /\ asTrimmedString (prop update "sessionUpdate") = kind.

(** A notification carries neither [error] nor [result]. *)
Definition isNotification (message : Obj) : Prop :=
  hasOwn message "error" = false /\ hasOwn message "result" = false.

Lemma parseSessionUpdateEvent_chunk (message update : Obj) :
  isSessionUpdate message "agent_message_chunk" update ->
  parseSessionUpdateEvent message = textChunk update output.
Proof.
  intros (Hm & params & Hp & Hu & Hk). unfold parseSessionUpdateEvent.
  now rewrite Hm, Hp, Hu, Hk.
Qed.

Lemma parseSessionUpdateEvent_config (message update : Obj) :
  isSessionUpdate message "config_option_update" update ->
  parseSessionUpdateEvent message =
    Some (EvStatus
            ("config options updated (" ++ Js.ofZ (arrayLength (prop update "configOptions")) ++ ")")
            None None None).
Proof.
  intros (Hm & params & Hp & Hu & Hk). unfold parseSessionUpdateEvent.
  now rewrite Hm, Hp, Hu, Hk.
Qed.

Section Projector.

Variable JSON_parse : string -> option Json.
Variable isAcpJsonRpcMessage : Obj -> bool.
Variable normalizeJsonRpcId : option Json -> option string.

Local Abbreviation ingestLine := (Events.ingestLine JSON_parse isAcpJsonRpcMessage normalizeJsonRpcId).
Local Abbreviation ingestParsed := (Events.ingestParsed isAcpJsonRpcMessage normalizeJsonRpcId).
Local Abbreviation shouldHandlePromptResponse := (Events.shouldHandlePromptResponse normalizeJsonRpcId).

Lemma ingestLine_decoded (line : string) (parsed : Json) (ids : gset string) :
  Js.trim line <> "" ->
  JSON_parse (Js.trim line) = Some parsed ->
  ingestLine line ids = ingestParsed parsed ids.
Proof.
  intros Hne Hparse. unfold Events.ingestLine.
  apply JsFacts.nonEmpty_true in Hne. now rewrite Hne, Hparse.
Qed.




(** A prompt request is recorded under its normalized id and gives no event. *)
Lemma prompt_request_recorded (message : Obj) (ids : gset string) (id : string) :
  isAcpJsonRpcMessage message = true ->
  asTrimmedString (prop message "method") = "session/prompt" ->
  normalizeJsonRpcId (prop message "id") = Some id ->
  id <> "" ->
  ingestParsed (JObject message) ids = (None, {[id]} ∪ ids).
Proof.
  intros Hmsg Hmethod Hid Hne. unfold Events.ingestParsed, asRecord. cbv beta iota.
  rewrite Hmsg. cbn [negb].
  assert (Hupd : parseSessionUpdateEvent message = None).
  { unfold parseSessionUpdateEvent. now rewrite Hmethod. }
  rewrite Hupd, Hmethod, Hid. cbn.
  apply JsFacts.nonEmpty_true in Hne. now rewrite Hne.
Qed.


(** C5: a line whose trimmed text is not empty and does not decode gives a
    status event with the trimmed line as its text; a blank line gives
    nothing; the awaited ids are untouched, and [ingestLine] is total. *)
Theorem malformed_line_is_status (line : string) (ids : gset string) :
  (Js.trim line <> "" ->
   JSON_parse (Js.trim line) = None ->
   ingestLine line ids = (Some (EvStatus (Js.trim line) None None None), ids))
  /\ (Js.trim line = "" -> ingestLine line ids = (None, ids)).
Proof.
  unfold Events.ingestLine. split.
  - intros Hne Hparse. apply JsFacts.nonEmpty_true in Hne. now rewrite Hne, Hparse.
  - intros Hblank. apply JsFacts.nonEmpty_false in Hblank. now rewrite Hblank.
Qed.

Lemma ingestParsed_update (message : Obj) (event : AcpRuntimeEvent) (ids : gset string) :
  isAcpJsonRpcMessage message = true ->
  parseSessionUpdateEvent message = Some event ->
  ingestParsed (JObject message) ids = (Some event, ids).
Proof.
  intros Hmsg Hev. unfold Events.ingestParsed, asRecord. cbv beta iota.
  now rewrite Hmsg, Hev.
Qed.

(** A [session/update] notification that gives no event gives nothing at all. *)
Lemma ingestParsed_update_dropped (message : Obj) (ids : gset string) :
  asTrimmedString (prop message "method") = "session/update" ->
  isNotification message ->
  parseSessionUpdateEvent message = None ->
  ingestParsed (JObject message) ids = (None, ids).
Proof.
  intros Hm [Herr Hres] Hev. unfold Events.ingestParsed, asRecord. cbv beta iota.
  destruct (isAcpJsonRpcMessage message); [|reflexivity]. simpl.
  rewrite Hev, Hm, Herr. simpl.
  unfold parsePromptStopReason. now rewrite Hres.
Qed.

(** Decides the comparisons of the kind of an update with the kinds that
    the projector knows. *)
Ltac kind_known :=
  repeat match goal with
         | |- context [String.eqb ?a ?b] =>
             let v := eval vm_compute in (String.eqb a b) in
             progress change (String.eqb a b) with v
         end;
  cbn [orb]; cbv iota.

(** The line gives [event] whatever the awaited ids are, also when there
    are none, and leaves them as they are. *)
Definition returnedUngated (line : string) (event : AcpRuntimeEvent) : Prop :=
  (forall ids : gset string, ingestLine line ids = (Some event, ids))
  /\ ingestLine line ∅ = (Some event, ∅).

(** C10: a [session/update] line is projected whatever the awaited ids
    are, also when there are none, and the ids are left as they are.  For
    each kind of update the event is the one of that kind: the text delta
    of a message or thought chunk whose content is a text that is not empty,
    the tool call with its title and status, and the status of a plan, of
    the available commands, of the mode, of the config options, of the
    session info and of the usage.  What a [session/update] notification
    gives, an event or nothing, never depends on the awaited ids. *)
Theorem session_update_not_gated
    (line : string) (message update : Obj) (kind : string) :
  Js.trim line <> "" ->
  JSON_parse (Js.trim line) = Some (JObject message) ->
  isAcpJsonRpcMessage message = true ->
  isSessionUpdate message kind update ->
  (forall (stream : Stream) (content : Obj) (text : string),
      kind = match stream with
             | output => "agent_message_chunk"
             | thought => "agent_thought_chunk"
             end ->
      asRecord (prop update "content") = Some content ->
      asTrimmedString (prop content "type") = "text" ->
      prop content "text" = Some (JString text) ->
      text <> "" ->
      returnedUngated line (EvTextDelta text (Some stream) None))
  /\ (kind = "tool_call" \/ kind = "tool_call_update" ->
      returnedUngated line
        (EvToolCall
           (let title :=
              Js.orElse (asTrimmedString (prop update "title"))
                (Js.orElse (asTrimmedString (prop update "toolCallId"))
                   (Js.orElse (asTrimmedString (prop update "kind")) "tool")) in
            let status := asTrimmedString (prop update "status") in
            if Js.nonEmpty status then title ++ " (" ++ status ++ ")" else title)
           None None None None))
  /\ (kind = "plan" ->
      returnedUngated line
        (EvStatus
           (let first := findRecord (asArray (prop update "entries")) in
            let content := asTrimmedString (propOpt first "content") in
            let status := asTrimmedString (propOpt first "status") in
            if Js.nonEmpty content
            then if Js.nonEmpty status then "plan: [" ++ status ++ "] " ++ content
                 else "plan: " ++ content
            else "plan updated")
           None None None))
  /\ (kind = "available_commands_update" ->
      returnedUngated line
        (EvStatus
           ("available commands updated ("
              ++ Js.ofZ (match prop update "availableCommands" with
                         | Some (JArray commands) => Z.of_nat (List.length commands)
                         | _ => 0
                         end) ++ ")")
           None None None))
  /\ (kind = "current_mode_update" ->
      returnedUngated line
        (EvStatus
           (let modeId := asTrimmedString (prop update "currentModeId") in
            if Js.nonEmpty modeId then "mode updated: " ++ modeId else "mode updated")
           None None None))
  /\ (kind = "config_option_update" ->
      returnedUngated line
        (EvStatus
           ("config options updated ("
              ++ Js.ofZ (match prop update "configOptions" with
                         | Some (JArray options) => Z.of_nat (List.length options)
                         | _ => 0
                         end) ++ ")")
           None None None))
  /\ (kind = "session_info_update" ->
      returnedUngated line
        (EvStatus
           (let title := asTrimmedString (prop update "title") in
            if Js.nonEmpty title then "session info updated: " ++ title
            else "session info updated")
           None None None))
  /\ (kind = "usage_update" ->
      returnedUngated line
        (EvStatus
           (match prop update "used", prop update "size" with
            | Some (JNumber used), Some (JNumber size) =>
                "usage updated: " ++ Js.ofZ used ++ "/" ++ Js.ofZ size
            | _, _ => "usage updated"
            end)
           None None None))
  /\ (isNotification message ->
      forall ids ids' : gset string,
        fst (ingestLine line ids) = fst (ingestLine line ids')
        /\ snd (ingestLine line ids) = ids).
Proof.
  intros Hne Hparse Hmsg Hupd.
  assert (Hgiven : forall event : AcpRuntimeEvent,
             parseSessionUpdateEvent message = Some event -> returnedUngated line event).
  { intros event Hev.
    assert (H : forall ids : gset string, ingestLine line ids = (Some event, ids)).
    { intros ids. rewrite (ingestLine_decoded _ _ _ Hne Hparse).
      now apply ingestParsed_update. }
    split; [exact H | apply H]. }
  pose proof Hupd as (Hm & params & Hp & Hu & Hk).
  assert (Hkind : parseSessionUpdateEvent message
                  = if String.eqb kind "agent_message_chunk" then textChunk update output
                    else if String.eqb kind "agent_thought_chunk" then textChunk update thought
                    else if String.eqb kind "tool_call" || String.eqb kind "tool_call_update"
                    then
                      Some (EvToolCall
                              (if Js.nonEmpty (asTrimmedString (prop update "status"))
                               then Js.orElse (asTrimmedString (prop update "title"))
                                      (Js.orElse (asTrimmedString (prop update "toolCallId"))
                                         (Js.orElse (asTrimmedString (prop update "kind"))
                                            "tool"))
                                    ++ " (" ++ asTrimmedString (prop update "status") ++ ")"
                               else Js.orElse (asTrimmedString (prop update "title"))
                                      (Js.orElse (asTrimmedString (prop update "toolCallId"))
                                         (Js.orElse (asTrimmedString (prop update "kind"))
                                            "tool")))
                              None None None None)
                    else if String.eqb kind "plan" then statusOnly (planText update)
                    else if String.eqb kind "available_commands_update" then
                      statusOnly ("available commands updated ("
                                    ++ Js.ofZ (arrayLength (prop update "availableCommands"))
                                    ++ ")")
                    else if String.eqb kind "current_mode_update" then
                      statusOnly (if Js.nonEmpty (asTrimmedString (prop update "currentModeId"))
                                  then "mode updated: "
                                         ++ asTrimmedString (prop update "currentModeId")
                                  else "mode updated")
                    else if String.eqb kind "config_option_update" then
                      statusOnly ("config options updated ("
                                    ++ Js.ofZ (arrayLength (prop update "configOptions")) ++ ")")
                    else if String.eqb kind "session_info_update" then
                      statusOnly (if Js.nonEmpty (asTrimmedString (prop update "title"))
                                  then "session info updated: "
                                         ++ asTrimmedString (prop update "title")
                                  else "session info updated")
                    else if String.eqb kind "usage_update" then
                      match finiteNumber (prop update "used"),
                            finiteNumber (prop update "size") with
                      | Some used, Some size =>
                          statusOnly ("usage updated: " ++ Js.ofZ used ++ "/" ++ Js.ofZ size)
                      | _, _ => statusOnly "usage updated"
                      end
                    else None).
  { unfold parseSessionUpdateEvent. now rewrite Hm, Hp, Hu, Hk. }
  split; [|split; [|split; [|split; [|split; [|split; [|split; [|split]]]]]]].
  - intros stream content text Hstream Hc Hty Htx Hnonempty.
    apply Hgiven. rewrite Hkind, Hstream. apply JsFacts.nonEmpty_true in Hnonempty.
    destruct stream; kind_known; unfold textChunk;
      rewrite Hc, Hty, Htx; simpl; now rewrite Hnonempty.
  - intros [-> | ->]; apply Hgiven; rewrite Hkind; kind_known; reflexivity.
  - intros ->. apply Hgiven. rewrite Hkind. kind_known.
    unfold statusOnly, planText. cbv zeta.
    now destruct (Js.nonEmpty (asTrimmedString (propOpt _ "content"))).
  - intros ->. apply Hgiven. rewrite Hkind. kind_known. reflexivity.
  - intros ->. apply Hgiven. rewrite Hkind. kind_known. reflexivity.
  - intros ->. apply Hgiven. rewrite Hkind. kind_known. reflexivity.
  - intros ->. apply Hgiven. rewrite Hkind. kind_known. reflexivity.
  - intros ->. apply Hgiven. rewrite Hkind. kind_known.
    unfold statusOnly, finiteNumber.
    destruct (prop update "used") as [[| |used| | |]|]; try reflexivity;
      destruct (prop update "size") as [[| |size| | |]|]; reflexivity.
  - intros Hnote ids ids'.
    destruct (parseSessionUpdateEvent message) as [event|] eqn:Hev.
    + destruct (Hgiven event eq_refl) as [Hall _]. now rewrite !Hall.
    + rewrite !(ingestLine_decoded _ _ _ Hne Hparse).
      now rewrite !(ingestParsed_update_dropped _ _ Hm Hnote Hev).
Qed.

(** C6, as the projector does it: a message chunk gives
    [text_delta{stream: output}] exactly when its [content] is a record whose
    trimmed [type] is ["text"] and whose [text] is a string that is not
    empty; the text of the event is that string, untrimmed.  In every other
    case (no [content], a [type] that is absent or different, a [text] that
    is absent, no string or empty) the chunk gives no event: no other field
    is read in its place. *)
Theorem message_chunk_text_exact
    (line : string) (message update : Obj) (ids : gset string) :
  Js.trim line <> "" ->
  JSON_parse (Js.trim line) = Some (JObject message) ->
  isAcpJsonRpcMessage message = true ->
  isSessionUpdate message "agent_message_chunk" update ->
  (forall (content : Obj) (text : string),
      asRecord (prop update "content") = Some content ->
      asTrimmedString (prop content "type") = "text" ->
      prop content "text" = Some (JString text) ->
      text <> "" ->
      ingestLine line ids = (Some (EvTextDelta text (Some output) None), ids))
  /\ (isNotification message ->
      asRecord (prop update "content") = None ->
      ingestLine line ids = (None, ids))
  /\ (forall content : Obj,
        isNotification message ->
        asRecord (prop update "content") = Some content ->
        asTrimmedString (prop content "type") <> "text"
        \/ asString (prop content "text") = None
        \/ prop content "text" = Some (JString "") ->
        ingestLine line ids = (None, ids)).
Proof.
  intros Hne Hparse Hmsg Hupd.
  rewrite (ingestLine_decoded _ _ _ Hne Hparse).
  pose proof (parseSessionUpdateEvent_chunk _ _ Hupd) as Hchunk.
  assert (Hmethod : asTrimmedString (prop message "method") = "session/update")
    by apply Hupd.
  split; [|split].
  - intros content text Hc Hty Htx Hnonempty.
    apply ingestParsed_update; [assumption|]. rewrite Hchunk. unfold textChunk.
    rewrite Hc, Hty, Htx. simpl. apply JsFacts.nonEmpty_true in Hnonempty.
    now rewrite Hnonempty.
  - intros Hnote Hc. apply ingestParsed_update_dropped; try assumption.
    rewrite Hchunk. unfold textChunk. now rewrite Hc.
  - intros content Hnote Hc Hcase. apply ingestParsed_update_dropped; try assumption.
    rewrite Hchunk. unfold textChunk. rewrite Hc.
    destruct Hcase as [Hty | [Htx | Htx]].
    + apply String.eqb_neq in Hty. now rewrite Hty.
    + rewrite Htx. now destruct (negb _).
    + rewrite Htx. simpl. now destruct (negb _).
Qed.

(** C9, as the projector does it: a config-option update gives the status
    text ["config options updated (N)"], where [N] is the length of the
    array [configOptions] of the update and 0 when that is no array; the id
    and the value of an option are not read. *)
Theorem config_option_update_counts
    (line : string) (message update : Obj) (ids : gset string) :
  Js.trim line <> "" ->
  JSON_parse (Js.trim line) = Some (JObject message) ->
  isAcpJsonRpcMessage message = true ->
  isSessionUpdate message "config_option_update" update ->
  ingestLine line ids =
    (Some (EvStatus
             ("config options updated ("
                ++ Js.ofZ (match prop update "configOptions" with
                           | Some (JArray options) => Z.of_nat (List.length options)
                           | _ => 0
                           end) ++ ")")
             None None None), ids).
Proof.
  intros Hne Hparse Hmsg Hupd.
  rewrite (ingestLine_decoded _ _ _ Hne Hparse).
  apply ingestParsed_update; [assumption|].
  now rewrite (parseSessionUpdateEvent_config _ _ Hupd).
Qed.

End Projector.

(** ** The projector on the reference decoder *)

Definition project : list string -> gset string -> list (option AcpRuntimeEvent) * gset string :=
  ingestLines decode isAcpJsonRpcMessage normalizeJsonRpcId.

Definition project1 : string -> gset string -> option AcpRuntimeEvent * gset string :=
  ingestLine decode isAcpJsonRpcMessage normalizeJsonRpcId.

Definition promptLine : string :=
  dq "{'jsonrpc':'2.0','id':3,'method':'session/prompt','params':{'sessionId':'session-1','prompt':[{'type':'text','text':'hello'}]}}".

Definition unrelatedErrorLine : string :=
  dq "{'jsonrpc':'2.0','id':1,'error':{'code':-32002,'message':'Resource not found'}}".

Definition doneLine : string :=
  dq "{'jsonrpc':'2.0','id':3,'result':{'stopReason':'end_turn'}}".

Definition errorLine : string :=
  dq "{'jsonrpc':'2.0','id':3,'error':{'code':-32000,'message':'adapter failed'}}".

Definition indentedChunkLine : string :=
  dq "{'jsonrpc':'2.0','method':'session/update','params':{'sessionId':'session-1','update':{'sessionUpdate':'agent_message_chunk','content':{'type':'text','text':'  indented'}}}}".

Definition untypedChunkLine : string :=
  dq "{'jsonrpc':'2.0','method':'session/update','params':{'update':{'sessionUpdate':'agent_message_chunk','content':{'text':'hi'}}}}".

Definition fallbackChunkLine : string :=
  dq "{'jsonrpc':'2.0','method':'session/update','params':{'update':{'sessionUpdate':'agent_message_chunk','text':'hi'}}}".

Definition configLine : string :=
  dq "{'jsonrpc':'2.0','method':'session/update','params':{'update':{'sessionUpdate':'config_option_update','id':'model','currentValue':'fast'}}}".

Definition toolCallLine : string :=
  dq "{'jsonrpc':'2.0','method':'session/update','params':{'sessionId':'session-1','update':{'sessionUpdate':'tool_call','toolCallId':'call-1','title':'exec','status':'in_progress'}}}".

(** The cases of [events.test.ts]. *)
Example test_preserves_leading_spaces :
  project1 indentedChunkLine ∅ = (Some (EvTextDelta "  indented" (Some output) None), ∅).
Proof. vm_compute. reflexivity. Qed.

Example test_tool_call_update :
  fst (project1 toolCallLine ∅) = Some (EvToolCall "exec (in_progress)" None None None None).
Proof. vm_compute. reflexivity. Qed.

Example test_ignores_non_prompt_response_errors :
  fst (project [promptLine; unrelatedErrorLine; doneLine] ∅)
  = [None; None; Some (EvDone "end_turn")].
Proof. vm_compute. reflexivity. Qed.

Example test_json_rpc_error :
  fst (project [promptLine; errorLine] ∅)
  = [None; Some (EvError "adapter failed" (Some "-32000"))].
Proof. vm_compute. reflexivity. Qed.


(** C6 fails for a chunk whose content has no [type], and for a chunk whose
    text is in the field [text] of the update: both give nothing. *)
Lemma message_chunk_untyped_or_fallback_dropped :
  project1 untypedChunkLine ∅ = (None, ∅)
  /\ project1 fallbackChunkLine ∅ = (None, ∅).
Proof. split; vm_compute; reflexivity. Qed.

(** C9 fails: the update of option [model] to [fast] is projected to a
    count of options, not to ["config updated: model=fast"]. *)
Lemma config_option_update_text_is_count :
  project1 configLine ∅ = (Some (EvStatus "config options updated (0)" None None None), ∅)
  /\ fst (project1 configLine ∅) <> Some (EvStatus "config updated: model=fast" None None None).
Proof. split; [vm_compute; reflexivity | vm_compute; discriminate]. Qed.


Definition chunkUpdate (content : Obj) : Obj :=
  [("sessionUpdate", JString "agent_message_chunk"); ("content", JObject content)].

Definition updateMessage (session : list (string * Json)) (update : Obj) : Obj :=
  [("jsonrpc", JString "2.0"); ("method", JString "session/update");
   ("params", JObject (session ++ [("update", JObject update)])%list)].

Definition indentedContent : Obj := [("type", JString "text"); ("text", JString "  indented")].

Definition configUpdate : Obj :=
  [("sessionUpdate", JString "config_option_update"); ("id", JString "model");
   ("currentValue", JString "fast")].


Lemma malformed_line_is_status_witness :
  Js.trim "  not json " <> ""
  /\ decode (Js.trim "  not json ") = None
  /\ project1 "  not json " ∅ = (Some (EvStatus "not json" None None None), ∅)
  /\ project1 "   " ∅ = (None, ∅).
Proof.
  split; [vm_compute; discriminate|]. split; [vm_compute; reflexivity|]. split.
  - apply (malformed_line_is_status decode isAcpJsonRpcMessage normalizeJsonRpcId
             "  not json " ∅); [vm_compute; discriminate | vm_compute; reflexivity].
  - apply (malformed_line_is_status decode isAcpJsonRpcMessage normalizeJsonRpcId "   " ∅).
    vm_compute. reflexivity.
Defined.

Lemma session_update_not_gated_witness :
  decode (Js.trim indentedChunkLine)
  = Some (JObject (updateMessage [("sessionId", JString "session-1")] (chunkUpdate indentedContent)))
  /\ project1 indentedChunkLine ∅ = (Some (EvTextDelta "  indented" (Some output) None), ∅).
Proof.
  split; [vm_compute; reflexivity|].
  destruct (session_update_not_gated decode isAcpJsonRpcMessage normalizeJsonRpcId
              indentedChunkLine
              (updateMessage [("sessionId", JString "session-1")] (chunkUpdate indentedContent))
              (chunkUpdate indentedContent) "agent_message_chunk") as (Hchunk & _).
  - vm_compute. discriminate.
  - vm_compute. reflexivity.
  - reflexivity.
  - split; [reflexivity|]. eexists. repeat split; reflexivity.
  - destruct (Hchunk output indentedContent "  indented") as [_ Hempty];
      [reflexivity | reflexivity | reflexivity | reflexivity | discriminate | exact Hempty].
Defined.

Lemma message_chunk_text_exact_witness :
  project1 indentedChunkLine {["3"]} = (Some (EvTextDelta "  indented" (Some output) None), {["3"]})
  /\ project1 untypedChunkLine ∅ = (None, ∅).
Proof.
  split.
  - assert (Hupd : isSessionUpdate
                     (updateMessage [("sessionId", JString "session-1")]
                        (chunkUpdate indentedContent))
                     "agent_message_chunk" (chunkUpdate indentedContent)).
    { split; [reflexivity|]. eexists. repeat split; reflexivity. }
    assert (Hne : Js.trim indentedChunkLine <> "") by (vm_compute; discriminate).
    assert (Hdec : decode (Js.trim indentedChunkLine)
                   = Some (JObject (updateMessage [("sessionId", JString "session-1")]
                                      (chunkUpdate indentedContent))))
      by (vm_compute; reflexivity).
    destruct (message_chunk_text_exact decode isAcpJsonRpcMessage normalizeJsonRpcId
                indentedChunkLine _ _ {["3"]} Hne Hdec eq_refl Hupd) as (Hyes & _ & _).
    apply (Hyes indentedContent "  indented"); [reflexivity | reflexivity | reflexivity|].
    discriminate.
  - assert (Hupd : isSessionUpdate
                     (updateMessage [] (chunkUpdate [("text", JString "hi")]))
                     "agent_message_chunk" (chunkUpdate [("text", JString "hi")])).
    { split; [reflexivity|]. eexists. repeat split; reflexivity. }
    assert (Hne : Js.trim untypedChunkLine <> "") by (vm_compute; discriminate).
    assert (Hdec : decode (Js.trim untypedChunkLine)
                   = Some (JObject (updateMessage [] (chunkUpdate [("text", JString "hi")]))))
      by (vm_compute; reflexivity).
    destruct (message_chunk_text_exact decode isAcpJsonRpcMessage normalizeJsonRpcId
                untypedChunkLine _ _ ∅ Hne Hdec eq_refl Hupd) as (_ & _ & Hno).
    apply (Hno [("text", JString "hi")]); [split; reflexivity | reflexivity|].
    left. vm_compute. discriminate.
Defined.

Lemma config_option_update_counts_witness :
  project1 configLine ∅ = (Some (EvStatus "config options updated (0)" None None None), ∅).
Proof.
  apply (config_option_update_counts decode isAcpJsonRpcMessage normalizeJsonRpcId
           configLine (updateMessage [] configUpdate) configUpdate ∅);
    [vm_compute; discriminate | vm_compute; reflexivity | reflexivity
    | split; [reflexivity | eexists; repeat split; reflexivity]].
Defined.

End EventsFacts.

(** ** The projector that consumes prompt ids

    What the second revision does where the first differs: it removes the id
    of a response that matches, it returns a session update only while a
    prompt is awaited, a text chunk needs no [type] and may come from the
    field [text] of the update, and a config-option update names the option. *)
Module EventsGatedFacts.
Import Json Runtime.

Section Projector.

Variable JSON_parse : string -> option Json.
Variable isAcpJsonRpcMessage : Obj -> bool.
Variable normalizeJsonRpcId : option Json -> option string.

Local Abbreviation ingestLine :=
  (EventsGated.ingestLine JSON_parse isAcpJsonRpcMessage normalizeJsonRpcId).
Local Abbreviation ingestParsed :=
  (EventsGated.ingestParsed isAcpJsonRpcMessage normalizeJsonRpcId).

Lemma gated_ingestLine_decoded (line : string) (parsed : Json) (ids : gset string) :
  Js.trim line <> "" ->
  JSON_parse (Js.trim line) = Some parsed ->
  ingestLine line ids = ingestParsed parsed ids.
Proof.
  intros Hne Hparse. unfold EventsGated.ingestLine.
  apply JsFacts.nonEmpty_true in Hne. now rewrite Hne, Hparse.
Qed.

Lemma gated_no_method_no_update (message : Obj) :
  prop message "method" = None -> EventsGated.parseSessionUpdateEvent message = None.
Proof. intros H. unfold EventsGated.parseSessionUpdateEvent. now rewrite H. Qed.

(** A response that matches an awaited id gives its event and removes the id. *)
Lemma gated_response_consumes_id
    (line : string) (message : Obj) (event : AcpRuntimeEvent) (ids : gset string) (id : string) :
  Js.trim line <> "" ->
  JSON_parse (Js.trim line) = Some (JObject message) ->
  isAcpJsonRpcMessage message = true ->
  prop message "method" = None ->
  EventsFacts.responseEvent message = Some event ->
  normalizeJsonRpcId (prop message "id") = Some id ->
  id <> "" ->
  id ∈ ids ->
  ingestLine line ids = (Some event, ids ∖ {[id]}).
Proof.
  intros Hne Hparse Hmsg Hmethod Hev Hid Hnonempty Hin.
  rewrite (gated_ingestLine_decoded _ _ _ Hne Hparse).
  unfold EventsGated.ingestParsed, asRecord. cbv beta iota.
  rewrite Hmsg, Hmethod, (gated_no_method_no_update _ Hmethod). simpl.
  unfold EventsGated.consumePromptResponse. rewrite Hid.
  apply JsFacts.nonEmpty_true in Hnonempty. rewrite Hnonempty. simpl.
  rewrite (bool_decide_eq_true_2 _ Hin). simpl.
  unfold EventsFacts.responseEvent in Hev.
  destruct (hasOwn message "error").
  - now inversion Hev.
  - unfold EventsGated.parsePromptStopReason.
    destruct (Events.parsePromptStopReason message); [|discriminate].
    now inversion Hev.
Qed.

(** A session update is returned only while some prompt is awaited. *)
Lemma gated_session_update_needs_prompt
    (line : string) (message : Obj) (event : AcpRuntimeEvent) (ids : gset string) :
  Js.trim line <> "" ->
  JSON_parse (Js.trim line) = Some (JObject message) ->
  isAcpJsonRpcMessage message = true ->
  EventsGated.parseSessionUpdateEvent message = Some event ->
  ingestLine line ids = (if decide (ids = ∅) then None else Some event, ids).
Proof.
  intros Hne Hparse Hmsg Hev.
  rewrite (gated_ingestLine_decoded _ _ _ Hne Hparse).
  unfold EventsGated.ingestParsed, asRecord. cbv beta iota. rewrite Hmsg. simpl.
  assert (Hmethod : asTrimmedString (prop message "method") = "session/update").
  { unfold EventsGated.parseSessionUpdateEvent in Hev.
    destruct (String.eqb_spec (asTrimmedString (prop message "method")) "session/update");
      [assumption | discriminate]. }
  rewrite Hmethod, Hev. simpl.
  destruct (decide (ids = ∅)) as [->|Hnonempty].
  - reflexivity.
  - assert (size ids <> 0%nat) by (intros H0; apply size_empty_inv in H0; now apply leibniz_equiv in H0).
    destruct (Z.ltb_spec 0 (Z.of_nat (size ids))); [reflexivity | lia].
Qed.

End Projector.

Definition projectGated : list string -> gset string -> list (option AcpRuntimeEvent) * gset string :=
  fix go (lines : list string) (ids : gset string) :=
    match lines with
    | [] => ([], ids)
    | line :: rest =>
        let '(event, ids1) :=
          EventsGated.ingestLine decode Events.isAcpJsonRpcMessage Events.normalizeJsonRpcId
            line ids in
        let '(events, ids2) := go rest ids1 in
        (event :: events, ids2)
    end.

Example gated_response_removes_id :
  projectGated [EventsFacts.promptLine; EventsFacts.doneLine; EventsFacts.doneLine] ∅
  = ([None; Some (EvDone "end_turn"); None], ∅).
Proof. vm_compute. reflexivity. Qed.

Example gated_update_without_prompt :
  fst (projectGated [EventsFacts.indentedChunkLine; EventsFacts.promptLine;
                EventsFacts.indentedChunkLine] ∅)
  = [None; None;
     Some (EvTextDelta "  indented" (Some output) (Some "agent_message_chunk"))].
Proof. vm_compute. reflexivity. Qed.

Example gated_chunk_untyped_and_fallback :
  fst (projectGated [EventsFacts.untypedChunkLine; EventsFacts.fallbackChunkLine] {["3"]})
  = [Some (EvTextDelta "hi" (Some output) (Some "agent_message_chunk"));
     Some (EvTextDelta "hi" (Some output) (Some "agent_message_chunk"))].
Proof. vm_compute. reflexivity. Qed.

Example gated_config_option_text :
  fst (projectGated [EventsFacts.configLine] {["3"]})
  = [Some (EvStatus "config updated: model=fast" (Some "config_option_update") None None)].
Proof. vm_compute. reflexivity. Qed.

End EventsGatedFacts.

Module AcpProjectorFacts.
Import Runtime AcpProjector.

(** ** Strings *)

Lemma append_cons (x : ascii) (a b : string) : String x a ++ b = String x (a ++ b).
Proof. reflexivity. Qed.

Lemma append_assoc (a b c : string) : (a ++ b) ++ c = a ++ (b ++ c).
Proof.
  induction a as [|x a IH]; [reflexivity|]. now rewrite !append_cons, IH.
Qed.

Lemma append_empty_r (a : string) : a ++ "" = a.
Proof. induction a as [|x a IH]; [reflexivity|]. now rewrite append_cons, IH. Qed.

Lemma length_append (a b : string) :
  String.length (a ++ b) = (String.length a + String.length b)%nat.
Proof.
  induction a as [|x a IH]; [reflexivity|]. rewrite append_cons. simpl. now rewrite IH.
Qed.

Lemma substring0_length (n : nat) (s : string) :
  String.length (String.substring 0 n s) = Nat.min n (String.length s).
Proof.
  revert s. induction n as [|n IH]; intros [|c s]; simpl; try reflexivity.
  now rewrite IH.
Qed.

Lemma substring0_all (n : nat) (s : string) :
  (String.length s <= n)%nat -> String.substring 0 n s = s.
Proof.
  revert s. induction n as [|n IH]; intros [|c s]; simpl; intros H; try reflexivity.
  - lia.
  - rewrite IH; [reflexivity | lia].
Qed.

Lemma substring0_append (n : nat) (a b : string) :
  String.substring 0 n (a ++ b)
  = String.substring 0 n a ++ String.substring 0 (n - String.length a) b.
Proof.
  revert n. induction a as [|c a IH]; intros n.
  - change ("" ++ b) with b. simpl String.length. rewrite Nat.sub_0_r. now destruct n.
  - rewrite append_cons. destruct n as [|n]; simpl.
    + now destruct b.
    + rewrite IH. now rewrite append_cons.
Qed.

Lemma len_nonneg (s : string) : 0 <= Js.len s.
Proof. unfold Js.len. lia. Qed.

Lemma len_append (a b : string) : Js.len (a ++ b) = Js.len a + Js.len b.
Proof. unfold Js.len. rewrite length_append. lia. Qed.

Lemma len_empty (s : string) : Js.len s = 0 <-> s = "".
Proof.
  unfold Js.len. destruct s; simpl; split; intros H; try reflexivity; try discriminate; lia.
Qed.

Lemma slice0_nonneg (s : string) (n : Z) :
  0 <= n -> Js.slice0 s n = String.substring 0 (Z.to_nat n) s.
Proof.
  intros Hn. unfold Js.slice0. destruct (Z.ltb_spec n 0); [lia | reflexivity].
Qed.

Lemma slice0_len (s : string) (n : Z) :
  0 <= n -> Js.len (Js.slice0 s n) = Z.min n (Js.len s).
Proof.
  intros Hn. rewrite slice0_nonneg by assumption. unfold Js.len.
  rewrite substring0_length. lia.
Qed.

Lemma slice0_all (s : string) (n : Z) : Js.len s <= n -> Js.slice0 s n = s.
Proof.
  intros Hn. pose proof (len_nonneg s). rewrite slice0_nonneg by lia.
  apply substring0_all. unfold Js.len in Hn. lia.
Qed.

Lemma slice0_zero (s : string) : Js.slice0 s 0 = "".
Proof. rewrite slice0_nonneg by lia. now destruct s. Qed.

Lemma slice0_append (a b : string) (n : Z) :
  0 <= n ->
  Js.slice0 (a ++ b) n = Js.slice0 a n ++ Js.slice0 b (n - Z.min n (Js.len a)).
Proof.
  intros Hn. pose proof (len_nonneg a).
  rewrite !slice0_nonneg by lia. rewrite substring0_append. f_equal. f_equal.
  unfold Js.len. lia.
Qed.

(** ** Effects *)

Lemma toolDeliveries_app (a b : list Effect) :
  toolDeliveries (a ++ b) = (toolDeliveries a ++ toolDeliveries b)%list.
Proof. unfold toolDeliveries. apply flat_map_app. Qed.

Lemma appendedText_cons (e : Effect) (a : list Effect) :
  appendedText (e :: a) = match e with ChunkerAppend t => t ++ appendedText a | _ => appendedText a end.
Proof. reflexivity. Qed.

Lemma appendedText_app (a b : list Effect) :
  appendedText (a ++ b) = appendedText a ++ appendedText b.
Proof.
  induction a as [|e a IH]; [reflexivity|].
  rewrite <- app_comm_cons, !appendedText_cons, IH.
  destruct e; try reflexivity. now rewrite append_assoc.
Qed.

(** ** Settings *)

Lemma clampPositiveInteger_bounds (value : option Q) (fallback min max : Z) :
  min <= fallback <= max -> min <= clampPositiveInteger value fallback min max <= max.
Proof.
  intros H. unfold clampPositiveInteger. destruct value as [v|]; [|assumption].
  destruct (Z.ltb_spec (Math_round v) min); [lia|].
  destruct (Z.gtb_spec (Math_round v) max); lia.
Qed.

Lemma maxTurnChars_bounds (cfg : option AcpStreamConfig) :
  1 <= maxTurnChars (resolveAcpProjectionSettings cfg) <= 500000.
Proof. apply clampPositiveInteger_bounds. unfold DEFAULT_ACP_MAX_TURN_CHARS. lia. Qed.

Lemma maxStatusChars_bounds (cfg : option AcpStreamConfig) :
  64 <= maxStatusChars (resolveAcpProjectionSettings cfg) <= 8000.
Proof. apply clampPositiveInteger_bounds. unfold DEFAULT_ACP_MAX_STATUS_CHARS. lia. Qed.

Lemma maxMetaEventsPerTurn_bounds (cfg : option AcpStreamConfig) :
  1 <= maxMetaEventsPerTurn (resolveAcpProjectionSettings cfg) <= 2000.
Proof. apply clampPositiveInteger_bounds. unfold DEFAULT_ACP_MAX_META_EVENTS_PER_TURN. lia. Qed.

Create Rewrite HintDb effects.

Section Pipeline.

Variable prefixSystemMessage : string -> string.
Variable ToolDisplay : Type.
Variable resolveToolDisplay : string -> string -> ToolDisplay.
Variable formatToolSummary : ToolDisplay -> string.
Variable shouldSendToolSummaries : bool.
Variable settings : AcpProjectionSettings.

Local Abbreviation onEvent :=
  (AcpProjector.onEvent prefixSystemMessage ToolDisplay resolveToolDisplay formatToolSummary
     shouldSendToolSummaries settings).
Local Abbreviation onEvents :=
  (AcpProjector.onEvents prefixSystemMessage ToolDisplay resolveToolDisplay formatToolSummary
     shouldSendToolSummaries settings).
Local Abbreviation emitSystemStatus :=
  (AcpProjector.emitSystemStatus prefixSystemMessage shouldSendToolSummaries settings).
Local Abbreviation emitTruncationNotice :=
  (AcpProjector.emitTruncationNotice prefixSystemMessage shouldSendToolSummaries settings).
Local Abbreviation emitToolSummary :=
  (AcpProjector.emitToolSummary ToolDisplay resolveToolDisplay formatToolSummary
     shouldSendToolSummaries settings).

Lemma flush_forced : flush settings true = [ChunkerDrain true; PipelineFlush true].
Proof. unfold flush, drainChunker. now destruct (deliveryMode settings). Qed.

Lemma flushIfLive_no_delivery : toolDeliveries (flushIfLive settings) = [].
Proof.
  unfold flushIfLive. destruct (deliveryMode settings) eqn:E; [|reflexivity].
  unfold flush, drainChunker. now rewrite E.
Qed.

Lemma flushIfLive_no_text : appendedText (flushIfLive settings) = "".
Proof.
  unfold flushIfLive. destruct (deliveryMode settings) eqn:E; [|reflexivity].
  unfold flush, drainChunker. now rewrite E.
Qed.

Lemma drainChunker_no_delivery (force : bool) : toolDeliveries (drainChunker settings force) = [].
Proof. unfold drainChunker. destruct (deliveryMode settings); now destruct force. Qed.

Lemma drainChunker_no_text (force : bool) : appendedText (drainChunker settings force) = "".
Proof. unfold drainChunker. destruct (deliveryMode settings); now destruct force. Qed.

(** *** [emitSystemStatus] *)

(** The gates of [emitSystemStatus] that do not look at the turn state. *)
Definition statusOpen (text : string) (force : bool) : bool :=
  shouldSendToolSummaries
  && negb (match metaMode settings with off => negb force | _ => false end)
  && Js.nonEmpty (truncateText (Js.trim text) (maxStatusChars settings)).

Definition statusLine (text : string) : string :=
  prefixSystemMessage (truncateText (Js.trim text) (maxStatusChars settings)).

(** The gates that do: the last status hash and the meta quota. *)
Definition statusFresh (text : string) (force dedupe : bool) (st : TurnState) : bool :=
  negb (dedupe && Js.optEqb (lastStatusHash st) (Some (hashText (statusLine text))))
  && (force || negb (emittedMetaEvents st >=? maxMetaEventsPerTurn settings)%Z).

Lemma emitSystemStatus_spec (text : string) (meta : option AcpProjectedDeliveryMeta)
    (force dedupe : bool) (st : TurnState) :
  emitSystemStatus text meta force dedupe st =
    if statusOpen text force && statusFresh text force dedupe st
    then (setLastStatusHash (Some (hashText (statusLine text)))
            (if force then st else setEmittedMetaEvents (emittedMetaEvents st + 1) st),
          (flushIfLive settings ++ [Deliver tool (statusLine text) meta])%list)
    else (st, []).
Proof.
  unfold AcpProjector.emitSystemStatus, statusOpen, statusFresh, statusLine, consumeMetaQuota.
  destruct shouldSendToolSummaries; [|reflexivity].
  destruct (metaMode settings), force; try reflexivity;
    destruct (Js.nonEmpty _); try reflexivity;
    destruct dedupe; try reflexivity;
    destruct (Js.optEqb _ _); try reflexivity;
    destruct (emittedMetaEvents st >=? _)%Z; reflexivity.
Qed.

Lemma emitSystemStatus_deliveries (text : string) (meta : option AcpProjectedDeliveryMeta)
    (force dedupe : bool) (st : TurnState) :
  toolDeliveries (snd (emitSystemStatus text meta force dedupe st)) =
    if statusOpen text force && statusFresh text force dedupe st
    then [(statusLine text, meta)] else [].
Proof.
  rewrite emitSystemStatus_spec. destruct (statusOpen text force && _); [|reflexivity].
  simpl. rewrite toolDeliveries_app, flushIfLive_no_delivery. reflexivity.
Qed.

(** *** Turn boundaries and status lines *)

Lemma onEvents_cons (event : AcpRuntimeEvent) (rest : list AcpRuntimeEvent) (st : TurnState) :
  onEvents (event :: rest) st
  = (fst (onEvents rest (fst (onEvent event st))),
     (snd (onEvent event st) ++ snd (onEvents rest (fst (onEvent event st))))%list).
Proof.
  simpl. destruct (onEvent event st) as [st1 effects1]. simpl.
  now destruct (onEvents rest st1).
Qed.

Lemma onEvent_done (stopReason : string) (st : TurnState) :
  onEvent (EvDone stopReason) st = (initialTurnState, [ChunkerDrain true; PipelineFlush true]).
Proof. simpl. now rewrite flush_forced. Qed.

Lemma onEvent_error (message : string) (code : option string) (st : TurnState) :
  onEvent (EvError message code) st
  = (initialTurnState, [ChunkerDrain true; PipelineFlush true]).
Proof. simpl. now rewrite flush_forced. Qed.

(** The [meta] that a status line is delivered with. *)
Definition statusMeta (evTag : option string) : option AcpProjectedDeliveryMeta :=
  if Js.truthy evTag
  then Some {| tag := evTag; toolCallId := None; toolStatus := None; allowEdit := None |}
  else None.

Definition usageTuple (text : string) (used size : option Z) : string :=
  match used, size with
  | Some u, Some s => Js.ofZ u ++ "/" ++ Js.ofZ s
  | _, _ => hashText text
  end.

(** The gates of a status event that do not look at the turn state. *)
Definition statusVisible (text : string) (evTag : option string) : bool :=
  isTagVisible settings evTag
  && (negb (Js.optEqb evTag (Some "usage_update")) || showUsage settings)
  && statusOpen text false.

(** The gates that do. *)
Definition statusNew (text : string) (evTag : option string) (used size : option Z)
    (st : TurnState) : bool :=
  negb (Js.optEqb evTag (Some "usage_update")
        && Js.optEqb (Some (usageTuple text used size)) (lastUsageTuple st))
  && statusFresh text false true st.

Lemma onEvent_status_deliveries (text : string) (evTag : option string) (used size : option Z)
    (st : TurnState) :
  toolDeliveries (snd (onEvent (EvStatus text evTag used size) st)) =
    if statusVisible text evTag && statusNew text evTag used size st
    then [(statusLine text, statusMeta evTag)] else [].
Proof.
  unfold statusVisible, statusNew. cbn [AcpProjector.onEvent].
  fold (statusMeta evTag) (usageTuple text used size).
  destruct (isTagVisible settings evTag); [|reflexivity].
  destruct (Js.optEqb evTag (Some "usage_update")).
  - destruct (showUsage settings); [|reflexivity].
    destruct (Js.optEqb (Some (usageTuple text used size)) (lastUsageTuple st));
      [cbn; now rewrite andb_false_r|].
    cbn [negb andb orb]. rewrite emitSystemStatus_deliveries. reflexivity.
  - cbn [negb andb orb]. rewrite emitSystemStatus_deliveries. reflexivity.
Qed.

Lemma statusNew_initial (text : string) (evTag : option string) (used size : option Z) :
  1 <= maxMetaEventsPerTurn settings ->
  statusNew text evTag used size initialTurnState = true.
Proof.
  intros Hquota. unfold statusNew, statusFresh. cbn.
  rewrite andb_false_r. cbn.
  destruct (Z.geb_spec 0 (maxMetaEventsPerTurn settings)); [lia | reflexivity].
Qed.

Lemma optEqb_refl (h : string) : Js.optEqb (Some h) (Some h) = true.
Proof. apply String.eqb_refl. Qed.

(** A status event right after itself is not delivered again. *)
Lemma status_repeat_suppressed (text : string) (evTag : option string) (used size : option Z)
    (st : TurnState) :
  toolDeliveries
    (snd (onEvent (EvStatus text evTag used size)
            (fst (onEvent (EvStatus text evTag used size) st)))) = [].
Proof.
  rewrite onEvent_status_deliveries.
  destruct (statusVisible text evTag) eqn:Hvisible; [|reflexivity].
  replace (statusNew text evTag used size (fst (onEvent (EvStatus text evTag used size) st)))
    with false; [reflexivity|].
  symmetry. unfold statusVisible in Hvisible. unfold statusNew.
  cbn [AcpProjector.onEvent]. fold (statusMeta evTag) (usageTuple text used size).
  destruct (isTagVisible settings evTag); [|discriminate]. cbn [negb].
  destruct (Js.optEqb evTag (Some "usage_update")).
  - destruct (showUsage settings); [|discriminate]. cbn [negb].
    destruct (Js.optEqb (Some (usageTuple text used size)) (lastUsageTuple st)) eqn:Hsame.
    + cbn [fst]. rewrite Hsame. reflexivity.
    + rewrite emitSystemStatus_spec.
      destruct (statusOpen text false && _); cbn; now rewrite String.eqb_refl.
  - cbn [andb negb]. rewrite emitSystemStatus_spec.
    cbn in Hvisible. rewrite Hvisible. cbn [andb].
    destruct (statusFresh text false true st) eqn:Hfresh.
    + unfold statusFresh. cbn. now rewrite String.eqb_refl.
    + cbn [fst]. exact Hfresh.
Qed.

(** *** The character budget of a turn *)

Definition isTextDelta (event : AcpRuntimeEvent) : Prop :=
  match event with EvTextDelta _ _ _ => True | _ => False end.

(** The text of a delta that counts against the budget: the text of a
    visible delta of the output stream, and nothing for any other delta. *)
Definition acceptable (event : AcpRuntimeEvent) : string :=
  match event with
  | EvTextDelta text stream evTag =>
      if match stream with Some thought => true | _ => false end then ""
      else if negb (isTagVisible settings evTag) then ""
      else text
  | _ => ""
  end.

(** The text that the deltas of a stream offer, in order. *)
Fixpoint offered (events : list AcpRuntimeEvent) : string :=
  match events with
  | [] => ""
  | event :: rest => acceptable event ++ offered rest
  end.

Definition noticeMeta : option AcpProjectedDeliveryMeta :=
  Some {| tag := Some "session_info_update"; toolCallId := None;
          toolStatus := None; allowEdit := None |}.

(** The truncation notice as it is delivered. *)
Definition notice : string * option AcpProjectedDeliveryMeta :=
  (prefixSystemMessage "output truncated", noticeMeta).

Lemma truncateText_short (input : string) (maxChars : Z) :
  Js.len input <= maxChars -> truncateText input maxChars = input.
Proof.
  intros H. unfold truncateText. destruct (Z.leb_spec (Js.len input) maxChars); [reflexivity | lia].
Qed.

Lemma emitTruncationNotice_spec (st : TurnState) :
  16 <= maxStatusChars settings ->
  emitTruncationNotice st =
    if truncationNoticeEmitted st then (st, [])
    else if shouldSendToolSummaries
    then (setLastStatusHash (Some (hashText (fst notice))) (setTruncationNoticeEmitted true st),
          (flushIfLive settings ++ [Deliver tool (fst notice) noticeMeta])%list)
    else (setTruncationNoticeEmitted true st, []).
Proof.
  intros Hmax. unfold AcpProjector.emitTruncationNotice.
  destruct (truncationNoticeEmitted st); [reflexivity|].
  fold noticeMeta. rewrite emitSystemStatus_spec.
  unfold statusOpen, statusFresh, statusLine.
  change (Js.trim "output truncated") with "output truncated".
  rewrite truncateText_short by (change (Js.len "output truncated") with 16; lia).
  destruct shouldSendToolSummaries; [|reflexivity].
  now destruct (metaMode settings).
Qed.

Lemma toolDeliveries_append (t : string) (effects : list Effect) :
  toolDeliveries (ChunkerAppend t :: effects) = toolDeliveries effects.
Proof. reflexivity. Qed.

#[local] Hint Rewrite toolDeliveries_app appendedText_app toolDeliveries_append appendedText_cons
  drainChunker_no_text drainChunker_no_delivery flushIfLive_no_text flushIfLive_no_delivery
  append_empty_r @app_nil_r : effects.

Ltac budget_done :=
  cbn [fst snd andb negb]; autorewrite with effects;
  repeat split; cbn;
  repeat match goal with H : truncationNoticeEmitted _ = _ |- _ => rewrite H end;
  first [reflexivity | subst; lia
        | match goal with r := _ : Z |- _ => unfold r in * end; lia].

(** One text delta, from a state within the budget. *)
Lemma textDelta_step (event : AcpRuntimeEvent) (st : TurnState) :
  isTextDelta event ->
  16 <= maxStatusChars settings ->
  0 <= emittedTurnChars st <= maxTurnChars settings ->
  let over := (maxTurnChars settings <? emittedTurnChars st + Js.len (acceptable event))%Z in
  let r := onEvent event st in
  emittedTurnChars (fst r)
    = Z.min (maxTurnChars settings) (emittedTurnChars st + Js.len (acceptable event))
  /\ truncationNoticeEmitted (fst r) = truncationNoticeEmitted st || over
  /\ appendedText (snd r)
     = Js.slice0 (acceptable event) (maxTurnChars settings - emittedTurnChars st)
  /\ toolDeliveries (snd r)
     = if over && negb (truncationNoticeEmitted st) && shouldSendToolSummaries
       then [notice] else [].
Proof.
  intros Hdelta Hstatus Hrange.
  destruct event as [text stream evTag| | | |]; try contradiction.
  pose proof (len_nonneg text) as Hlen.
  assert (Hnoop : forall t : string,
             t = "" ->
             let over := (maxTurnChars settings <? emittedTurnChars st + Js.len t)%Z in
             emittedTurnChars st = Z.min (maxTurnChars settings) (emittedTurnChars st + Js.len t)
             /\ truncationNoticeEmitted st = truncationNoticeEmitted st || over
             /\ "" = Js.slice0 t (maxTurnChars settings - emittedTurnChars st)
             /\ @nil (string * option AcpProjectedDeliveryMeta)
                = if over && negb (truncationNoticeEmitted st) && shouldSendToolSummaries
                  then [notice] else []).
  { intros t ->. cbn zeta. change (Js.len "") with 0.
    destruct (Z.ltb_spec (maxTurnChars settings) (emittedTurnChars st + 0)); [lia|].
    rewrite orb_false_r. repeat split; try reflexivity; try lia.
    rewrite slice0_nonneg by lia. now destruct (Z.to_nat _). }
  cbn [AcpProjector.onEvent acceptable]. cbv zeta.
  destruct (match stream with Some thought => true | _ => false end); [now apply Hnoop|].
  destruct (isTagVisible settings evTag); cbn [negb]; [|now apply Hnoop].
  destruct (Js.nonEmpty text) eqn:Hne; cbn [negb];
    [|apply JsFacts.nonEmpty_false in Hne; now apply Hnoop].
  assert (Hpos : 0 < Js.len text).
  { apply JsFacts.nonEmpty_true in Hne.
    destruct (Z.eq_dec (Js.len text) 0) as [E|E]; [apply len_empty in E; congruence | lia]. }
  destruct (Z.geb_spec (emittedTurnChars st) (maxTurnChars settings)) as [Hfull|Hroom].
  - (* the budget is used up *)
    rewrite emitTruncationNotice_spec by assumption.
    destruct (Z.ltb_spec (maxTurnChars settings) (emittedTurnChars st + Js.len text)); [|lia].
    rewrite orb_true_r. replace (maxTurnChars settings - emittedTurnChars st) with 0 by lia.
    rewrite slice0_zero.
    destruct (truncationNoticeEmitted st) eqn:Hflag; [budget_done|].
    destruct shouldSendToolSummaries; budget_done.
  - set (remaining := maxTurnChars settings - emittedTurnChars st).
    destruct (Z.ltb_spec remaining (Js.len text)) as [Hcut|Hfits].
    + (* the delta is cut at the budget *)
      assert (Hacc : Js.len (Js.slice0 text remaining) = remaining)
        by (rewrite slice0_len by (unfold remaining; lia); lia).
      rewrite Hacc.
      destruct (Z.gtb_spec remaining 0); [|unfold remaining in *; lia].
      destruct (Z.ltb_spec remaining (Js.len text)); [|lia].
      rewrite emitTruncationNotice_spec by assumption.
      cbn [truncationNoticeEmitted setEmittedTurnChars].
      destruct (Z.ltb_spec (maxTurnChars settings) (emittedTurnChars st + Js.len text));
        [|unfold remaining in *; lia].
      rewrite orb_true_r.
      destruct (truncationNoticeEmitted st) eqn:Hflag; [budget_done|].
      destruct shouldSendToolSummaries; budget_done.
    + (* the delta fits *)
      destruct (Z.gtb_spec (Js.len text) 0); [|lia].
      destruct (Z.ltb_spec (Js.len text) (Js.len text)); [lia|].
      destruct (Z.ltb_spec (maxTurnChars settings) (emittedTurnChars st + Js.len text));
        [unfold remaining in *; lia|].
      rewrite orb_false_r, (slice0_all text remaining) by lia.
      budget_done.
Qed.

(** The deltas of a stream, from a state within the budget. *)
Lemma textDeltas_run (events : list AcpRuntimeEvent) (st : TurnState) :
  Forall isTextDelta events ->
  16 <= maxStatusChars settings ->
  0 <= emittedTurnChars st <= maxTurnChars settings ->
  let over := (maxTurnChars settings <? emittedTurnChars st + Js.len (offered events))%Z in
  let r := onEvents events st in
  emittedTurnChars (fst r)
    = Z.min (maxTurnChars settings) (emittedTurnChars st + Js.len (offered events))
  /\ truncationNoticeEmitted (fst r) = truncationNoticeEmitted st || over
  /\ appendedText (snd r)
     = Js.slice0 (offered events) (maxTurnChars settings - emittedTurnChars st)
  /\ toolDeliveries (snd r)
     = if over && negb (truncationNoticeEmitted st) && shouldSendToolSummaries
       then [notice] else [].
Proof.
  intros Hall Hstatus. revert st.
  induction Hall as [|event rest Hdelta Hrest IH]; intros st Hrange; cbv zeta.
  - cbn [offered AcpProjector.onEvents fst snd]. change (Js.len "") with 0.
    destruct (Z.ltb_spec (maxTurnChars settings) (emittedTurnChars st + 0)); [lia|].
    rewrite orb_false_r, slice0_nonneg by lia.
    repeat split; try reflexivity; try lia. now destruct (Z.to_nat _).
  - rewrite onEvents_cons. cbn [fst snd offered].
    destruct (textDelta_step event st Hdelta Hstatus Hrange) as (He & Hf & Ha & Hd).
    cbv zeta in He, Hf, Ha, Hd.
    pose proof (len_nonneg (acceptable event)) as Hlen1.
    pose proof (len_nonneg (offered rest)) as Hlen2.
    assert (Hrange1 : 0 <= emittedTurnChars (fst (onEvent event st)) <= maxTurnChars settings)
      by (rewrite He; lia).
    destruct (IH _ Hrange1) as (He' & Hf' & Ha' & Hd'). cbv zeta in He', Hf', Ha', Hd'.
    rewrite He', Hf', toolDeliveries_app, appendedText_app, Ha, Ha', Hd, Hd', Hf, He.
    rewrite len_append.
    rewrite (slice0_append (acceptable event) (offered rest)) by lia.
    replace (maxTurnChars settings
             - Z.min (maxTurnChars settings) (emittedTurnChars st + Js.len (acceptable event)))
      with (maxTurnChars settings - emittedTurnChars st
            - Z.min (maxTurnChars settings - emittedTurnChars st) (Js.len (acceptable event)))
      by lia.
    split; [lia|].
    destruct (Z.ltb_spec (maxTurnChars settings)
                (emittedTurnChars st + Js.len (acceptable event))) as [Hover1|Hin1].
    + (* the first delta already goes over the budget *)
      destruct (Z.ltb_spec (maxTurnChars settings)
                  (emittedTurnChars st + (Js.len (acceptable event) + Js.len (offered rest))));
        [|lia].
      rewrite !orb_true_r. cbn [negb andb]. rewrite andb_false_r. cbn [andb].
      split; [reflexivity|]. split; [reflexivity|]. now rewrite app_nil_r.
    + rewrite orb_false_r. cbn [andb].
      replace (Z.min (maxTurnChars settings) (emittedTurnChars st + Js.len (acceptable event))
               + Js.len (offered rest))
        with (emittedTurnChars st + (Js.len (acceptable event) + Js.len (offered rest)))
        by lia.
      split; [reflexivity|]. split; reflexivity.
Qed.

(** *** Tool calls in minimal mode *)

Definition isToolCall (event : AcpRuntimeEvent) : Prop :=
  match event with EvToolCall _ _ _ _ _ => True | _ => False end.

(** [event.toolCallId?.trim() || undefined] *)
Definition trimmedId (evToolCallId : option string) : option string :=
  match evToolCallId with
  | Some id => if Js.nonEmpty (Js.trim id) then Some (Js.trim id) else None
  | None => None
  end.

(** The text that a tool call is announced with, and its hash. *)
Definition toolSummaryOf (text : string) (evStatus evTitle : option string) : string :=
  truncateText
    (renderToolSummaryText ToolDisplay resolveToolDisplay formatToolSummary text evStatus evTitle)
    (maxToolSummaryChars settings).

Definition toolHashOf (text : string) (evStatus evTitle : option string) : string :=
  hashText (toolSummaryOf text evStatus evTitle).

Definition isTerminalEvent (evStatus : option string) : bool :=
  match normalizeToolStatus evStatus with Some s => isTerminalStatus s | None => false end.

Definition isStartEvent (evTag evStatus : option string) : bool :=
  Js.optEqb (normalizeToolStatus evStatus) (Some "in_progress")
  || Js.optEqb evTag (Some "tool_call").

(** The lifecycle state of a tool call id, the fresh one when there is none. *)
Definition lifecycleOf (st : TurnState) (id : string) : ToolLifecycleState :=
  match toolLifecycleById st !! id with
  | Some s => s
  | None => {| started := false; terminal := false; lastRenderedHash := None |}
  end.

Definition terminalAt (st : TurnState) (id : string) : bool := terminal (lifecycleOf st id).
Definition startedAt (st : TurnState) (id : string) : bool := started (lifecycleOf st id).

(** The delivery of a tool call with the given id, of a terminal status, of
    a start. *)
Definition forTool (id : string) (d : string * option AcpProjectedDeliveryMeta) : bool :=
  match snd d with Some m => Js.optEqb (toolCallId m) (Some id) | None => false end.

Definition isTerminalDelivery (d : string * option AcpProjectedDeliveryMeta) : bool :=
  match snd d with
  | Some m => match toolStatus m with Some s => isTerminalStatus s | None => false end
  | None => false
  end.

Definition isStartDelivery (d : string * option AcpProjectedDeliveryMeta) : bool :=
  match snd d with
  | Some m => Js.optEqb (toolStatus m) (Some "in_progress") || Js.optEqb (tag m) (Some "tool_call")
  | None => false
  end.

Definition terminalCount (id : string) (effects : list Effect) : nat :=
  List.length (List.filter (fun d => forTool id d && isTerminalDelivery d) (toolDeliveries effects)).

Definition startCount (id : string) (effects : list Effect) : nat :=
  List.length (List.filter (fun d => forTool id d && isStartDelivery d) (toolDeliveries effects)).

Definition toolCount (id : string) (effects : list Effect) : nat :=
  List.length (List.filter (forTool id) (toolDeliveries effects)).

(** The delivery of a tool call event. *)
Definition toolDelivery (text : string) (evTag evToolCallId evStatus evTitle : option string)
  : Effect :=
  Deliver tool (toolSummaryOf text evStatus evTitle)
    (Some {| tag := if Js.truthy evTag then evTag else None;
             toolCallId := trimmedId evToolCallId;
             toolStatus := normalizeToolStatus evStatus;
             allowEdit :=
               Some (Js.truthy (trimmedId evToolCallId)
                     && Js.optEqb evTag (Some "tool_call_update")) |}).

(** The dedup of minimal mode: [None] where the source returns. *)
Definition minimalDedup (text : string) (evTag evToolCallId evStatus evTitle : option string)
    (st : TurnState) : option TurnState :=
  match trimmedId evToolCallId with
  | Some id =>
      match minimalGuards (lifecycleOf st id) (toolHashOf text evStatus evTitle)
              (isTerminalEvent evStatus) (isStartEvent evTag evStatus) with
      | Some state' => Some (setToolLifecycle id state' st)
      | None => None
      end
  | None =>
      if Js.optEqb (lastToolHash st) (Some (toolHashOf text evStatus evTitle))
      then None else Some st
  end.

Lemma emitToolSummary_minimal (text : string) (evTag evToolCallId evStatus evTitle : option string)
    (st : TurnState) :
  metaMode settings = minimal ->
  emitToolSummary text evTag evToolCallId evStatus evTitle false st =
    if negb shouldSendToolSummaries then (st, [])
    else if negb (isTagVisible settings evTag) then (st, [])
    else
      match minimalDedup text evTag evToolCallId evStatus evTitle st with
      | None => (st, [])
      | Some st1 =>
          if (emittedMetaEvents st1 >=? maxMetaEventsPerTurn settings)%Z then (st1, [])
          else (setLastToolHash (Some (toolHashOf text evStatus evTitle))
                  (setEmittedMetaEvents (emittedMetaEvents st1 + 1) st1),
                (flushIfLive settings
                   ++ [toolDelivery text evTag evToolCallId evStatus evTitle])%list)
      end.
Proof.
  intros Hmode. unfold AcpProjector.emitToolSummary, minimalDedup, consumeMetaQuota.
  rewrite Hmode. cbn [orb].
  destruct shouldSendToolSummaries; [|reflexivity]. cbn [negb orb].
  destruct (isTagVisible settings evTag); [|reflexivity]. cbn [negb].
  fold (trimmedId evToolCallId) (toolSummaryOf text evStatus evTitle).
  fold (toolHashOf text evStatus evTitle) (isTerminalEvent evStatus).
  fold (isStartEvent evTag evStatus).
  unfold toolDelivery.
  destruct (trimmedId evToolCallId) as [id|].
  - fold (lifecycleOf st id).
    destruct (minimalGuards _ _ _ _); [|reflexivity].
    now destruct (_ >=? _)%Z.
  - destruct (Js.optEqb _ _); [reflexivity|].
    now destruct (_ >=? _)%Z.
Qed.

Lemma minimalGuards_pass (s s' : ToolLifecycleState) (hash : string) (isTerminal isStart : bool) :
  minimalGuards s hash isTerminal isStart = Some s' ->
  (isTerminal = true -> terminal s = false)
  /\ (isStart = true -> started s = false)
  /\ lastRenderedHash s <> Some hash
  /\ terminal s' = isTerminal || terminal s
  /\ started s' = isStart || started s
  /\ lastRenderedHash s' = Some hash.
Proof.
  unfold minimalGuards.
  destruct isTerminal, isStart, (terminal s) eqn:Ht, (started s) eqn:Hs; cbn;
    try discriminate;
    destruct (Js.optEqb (lastRenderedHash s) (Some hash)) eqn:Hh; try discriminate;
    intros H; inversion H; subst; cbn;
    (repeat split; try reflexivity; try congruence;
     intros Heq; rewrite Heq in Hh; cbn in Hh; rewrite String.eqb_refl in Hh; discriminate).
Qed.

(** The same text as the last one announced for the id is not announced. *)
Lemma minimalGuards_same_text (s : ToolLifecycleState) (hash : string)
    (isTerminal isStart : bool) :
  lastRenderedHash s = Some hash -> minimalGuards s hash isTerminal isStart = None.
Proof.
  intros H. unfold minimalGuards. rewrite H. cbn. rewrite String.eqb_refl.
  now destruct (isTerminal && terminal s), (isStart && started s).
Qed.

Lemma lifecycleOf_set_eq (id : string) (s : ToolLifecycleState) (st : TurnState) :
  lifecycleOf (setToolLifecycle id s st) id = s.
Proof. unfold lifecycleOf. cbn. now rewrite lookup_insert_eq. Qed.

Lemma lifecycleOf_set_ne (id id' : string) (s : ToolLifecycleState) (st : TurnState) :
  id <> id' -> lifecycleOf (setToolLifecycle id s st) id' = lifecycleOf st id'.
Proof. intros H. unfold lifecycleOf. cbn. now rewrite lookup_insert_ne. Qed.

Lemma optEqb_true (a : option string) (b : string) : Js.optEqb a (Some b) = true <-> a = Some b.
Proof.
  destruct a as [x|]; cbn; [|split; discriminate].
  rewrite String.eqb_eq. split; congruence.
Qed.

Lemma tag_kept (evTag : option string) (k : string) :
  Js.nonEmpty k = true ->
  Js.optEqb (if Js.truthy evTag then evTag else None) (Some k) = Js.optEqb evTag (Some k).
Proof.
  intros Hk. destruct evTag as [[|c t]|]; cbn; try reflexivity. now destruct k.
Qed.

(** How the delivery of a tool call event is classified. *)
Lemma toolDelivery_class (text : string) (evTag evToolCallId evStatus evTitle : option string)
    (id : string) (effects : list Effect) :
  toolDeliveries effects = [] ->
  let delivered := (effects ++ [toolDelivery text evTag evToolCallId evStatus evTitle])%list in
  let mine := Js.optEqb (trimmedId evToolCallId) (Some id) in
  toolCount id delivered = (if mine then 1 else 0)%nat
  /\ terminalCount id delivered = (if mine && isTerminalEvent evStatus then 1 else 0)%nat
  /\ startCount id delivered = (if mine && isStartEvent evTag evStatus then 1 else 0)%nat
  /\ List.length (toolDeliveries delivered) = 1%nat.
Proof.
  intros Hnone. cbv zeta. unfold toolCount, terminalCount, startCount.
  rewrite toolDeliveries_app, Hnone. cbn [app toolDeliveries toolDelivery flat_map List.filter].
  unfold forTool, isTerminalDelivery, isStartDelivery. cbn [snd toolCallId toolStatus tag].
  rewrite (tag_kept evTag "tool_call") by reflexivity.
  fold (isTerminalEvent evStatus) (isStartEvent evTag evStatus).
  destruct (Js.optEqb (trimmedId evToolCallId) (Some id)), (isTerminalEvent evStatus),
    (isStartEvent evTag evStatus); repeat split; reflexivity.
Qed.

(** One tool call in minimal mode, seen from the tool call id [id]. *)
Lemma toolCall_step (event : AcpRuntimeEvent) (st : TurnState) (id : string) :
  metaMode settings = minimal ->
  isToolCall event ->
  let r := onEvent event st in
  (terminalAt st id = true -> terminalAt (fst r) id = true)
  /\ (startedAt st id = true -> startedAt (fst r) id = true)
  /\ (terminalCount id (snd r) <= if terminalAt st id then 0 else 1)%nat
  /\ (terminalCount id (snd r) = 1%nat -> terminalAt (fst r) id = true)
  /\ (startCount id (snd r) <= if startedAt st id then 0 else 1)%nat
  /\ (startCount id (snd r) = 1%nat -> startedAt (fst r) id = true)
  /\ (List.length (toolDeliveries (snd r)) <= 1)%nat.
Proof.
  intros Hmode Htool.
  destruct event as [|text evTag evToolCallId evStatus evTitle| | |]; try contradiction.
  cbv zeta. cbn [AcpProjector.onEvent]. rewrite emitToolSummary_minimal by assumption.
  assert (Hidle : (terminalAt st id = true -> terminalAt st id = true)
                  /\ (startedAt st id = true -> startedAt st id = true)
                  /\ (terminalCount id [] <= if terminalAt st id then 0 else 1)%nat
                  /\ (terminalCount id [] = 1%nat -> terminalAt st id = true)
                  /\ (startCount id [] <= if startedAt st id then 0 else 1)%nat
                  /\ (startCount id [] = 1%nat -> startedAt st id = true)
                  /\ (List.length (toolDeliveries []) <= 1)%nat).
  { cbn. repeat split; try tauto; try discriminate; try lia;
      destruct (terminalAt st id), (startedAt st id); lia. }
  destruct shouldSendToolSummaries; cbn [negb]; [|exact Hidle].
  destruct (isTagVisible settings evTag); cbn [negb]; [|exact Hidle].
  destruct (minimalDedup text evTag evToolCallId evStatus evTitle st) as [st1|] eqn:Hdedup;
    [|exact Hidle].
  (* the lifecycle state of [id] after the dedup *)
  assert (Hlife :
            (trimmedId evToolCallId = Some id ->
             (isTerminalEvent evStatus = true -> terminalAt st id = false)
             /\ (isStartEvent evTag evStatus = true -> startedAt st id = false)
             /\ terminalAt st1 id = isTerminalEvent evStatus || terminalAt st id
             /\ startedAt st1 id = isStartEvent evTag evStatus || startedAt st id)
            /\ (trimmedId evToolCallId <> Some id -> lifecycleOf st1 id = lifecycleOf st id)).
  { unfold minimalDedup in Hdedup.
    destruct (trimmedId evToolCallId) as [id'|].
    - destruct (minimalGuards _ _ _ _) as [s'|] eqn:Hguards; [|discriminate].
      inversion Hdedup; subst st1. apply minimalGuards_pass in Hguards.
      destruct Hguards as (Ht & Hs & _ & Ht' & Hs' & _). split.
      + intros Heq. inversion Heq; subst id'. unfold terminalAt, startedAt.
        rewrite lifecycleOf_set_eq. auto.
      + intros Hne. apply lifecycleOf_set_ne. congruence.
    - split; [discriminate|]. intros _.
      destruct (Js.optEqb _ _); [discriminate|]. now inversion Hdedup. }
  destruct Hlife as [Hmine Hother].
  assert (Hmono : (terminalAt st id = true -> terminalAt st1 id = true)
                  /\ (startedAt st id = true -> startedAt st1 id = true)).
  { destruct (decide (trimmedId evToolCallId = Some id)) as [Heq|Hne].
    - destruct (Hmine Heq) as (_ & _ & Ht & Hs). rewrite Ht, Hs.
      split; intros ->; apply orb_true_r.
    - unfold terminalAt, startedAt. rewrite (Hother Hne). tauto. }
  destruct (emittedMetaEvents st1 >=? maxMetaEventsPerTurn settings)%Z; cbn [fst snd].
  - (* the meta quota is used up: the state is kept, nothing is delivered *)
    cbn. repeat split; try tauto; try discriminate; try lia;
      destruct (terminalAt st id), (startedAt st id); lia.
  - destruct (toolDelivery_class text evTag evToolCallId evStatus evTitle id
                (flushIfLive settings) flushIfLive_no_delivery) as (_ & Htc & Hsc & Hlen).
    cbv zeta in Htc, Hsc, Hlen. rewrite Htc, Hsc, Hlen.
    change (terminalAt (setLastToolHash _ (setEmittedMetaEvents _ st1)) id)
      with (terminalAt st1 id).
    change (startedAt (setLastToolHash _ (setEmittedMetaEvents _ st1)) id)
      with (startedAt st1 id).
    destruct (Js.optEqb (trimmedId evToolCallId) (Some id)) eqn:Hid; cbn [andb].
    + apply optEqb_true in Hid. destruct (Hmine Hid) as (Ht0 & Hs0 & Ht & Hs).
      rewrite Ht, Hs.
      destruct (isTerminalEvent evStatus), (isStartEvent evTag evStatus);
        cbn [orb]; repeat split; try tauto; try discriminate; try lia;
        try (rewrite Ht0 by reflexivity; lia); try (rewrite Hs0 by reflexivity; lia);
        destruct (terminalAt st id), (startedAt st id); lia.
    + repeat split; try tauto; try discriminate; try lia;
        destruct (terminalAt st id), (startedAt st id); lia.
Qed.

Lemma terminalCount_app (id : string) (a b : list Effect) :
  terminalCount id (a ++ b) = (terminalCount id a + terminalCount id b)%nat.
Proof. unfold terminalCount. now rewrite toolDeliveries_app, List.filter_app, List.length_app. Qed.

Lemma startCount_app (id : string) (a b : list Effect) :
  startCount id (a ++ b) = (startCount id a + startCount id b)%nat.
Proof. unfold startCount. now rewrite toolDeliveries_app, List.filter_app, List.length_app. Qed.

(** The tool calls of a turn in minimal mode, seen from the tool call id [id]. *)
Lemma toolCalls_run (events : list AcpRuntimeEvent) (st : TurnState) (id : string) :
  metaMode settings = minimal ->
  Forall isToolCall events ->
  let r := onEvents events st in
  (terminalAt st id = true -> terminalAt (fst r) id = true)
  /\ (startedAt st id = true -> startedAt (fst r) id = true)
  /\ (terminalCount id (snd r) <= if terminalAt st id then 0 else 1)%nat
  /\ (startCount id (snd r) <= if startedAt st id then 0 else 1)%nat.
Proof.
  intros Hmode Hall. revert st.
  induction Hall as [|event rest Htool Hrest IH]; intros st; cbv zeta.
  - cbn. repeat split; try tauto; destruct (terminalAt st id), (startedAt st id); lia.
  - rewrite onEvents_cons. cbn [fst snd].
    destruct (toolCall_step event st id Hmode Htool) as (Ht & Hs & Htc & Ht1 & Hsc & Hs1 & _).
    cbv zeta in Ht, Hs, Htc, Ht1, Hsc, Hs1.
    destruct (IH (fst (onEvent event st))) as (Ht' & Hs' & Htc' & Hsc').
    cbv zeta in Ht', Hs', Htc', Hsc'.
    rewrite terminalCount_app, startCount_app.
    split; [tauto|]. split; [tauto|]. split.
    + destruct (terminalAt st id) eqn:E.
      * rewrite Ht in Htc' by reflexivity. lia.
      * destruct (terminalCount id (snd (onEvent event st))) as [|[|n]] eqn:Ec; [|rewrite Ht1 in Htc' by reflexivity|];
          destruct (terminalAt (fst (onEvent event st)) id); lia.
    + destruct (startedAt st id) eqn:E.
      * rewrite Hs in Hsc' by reflexivity. lia.
      * destruct (startCount id (snd (onEvent event st))) as [|[|n]] eqn:Ec; [|rewrite Hs1 in Hsc' by reflexivity|];
          destruct (startedAt (fst (onEvent event st)) id); lia.
Qed.

(** A tool call event with an id, repeated right after itself, is not
    delivered a second time. *)
Lemma toolCall_repeat_suppressed (text : string) (evTag evToolCallId evStatus evTitle : option string)
    (st : TurnState) (id : string) :
  metaMode settings = minimal ->
  trimmedId evToolCallId = Some id ->
  toolDeliveries
    (snd (onEvent (EvToolCall text evTag evToolCallId evStatus evTitle)
            (fst (onEvent (EvToolCall text evTag evToolCallId evStatus evTitle) st)))) = [].
Proof.
  intros Hmode Hid. cbn [AcpProjector.onEvent].
  rewrite !emitToolSummary_minimal by assumption.
  destruct shouldSendToolSummaries; cbn [negb]; [|reflexivity].
  destruct (isTagVisible settings evTag); cbn [negb]; [|reflexivity].
  assert (Hsame : forall st' : TurnState,
             lastRenderedHash (lifecycleOf st' id) = Some (toolHashOf text evStatus evTitle) ->
             minimalDedup text evTag evToolCallId evStatus evTitle st' = None).
  { intros st' H. unfold minimalDedup. now rewrite Hid, (minimalGuards_same_text _ _ _ _ H). }
  destruct (minimalDedup text evTag evToolCallId evStatus evTitle st) as [st1|] eqn:Hdedup.
  - assert (Hlast : lastRenderedHash (lifecycleOf st1 id)
                    = Some (toolHashOf text evStatus evTitle)).
    { unfold minimalDedup in Hdedup. rewrite Hid in Hdedup.
      destruct (minimalGuards _ _ _ _) as [s'|] eqn:Hguards; [|discriminate].
      inversion Hdedup; subst st1. rewrite lifecycleOf_set_eq.
      now apply minimalGuards_pass in Hguards. }
    destruct (emittedMetaEvents st1 >=? maxMetaEventsPerTurn settings)%Z; cbn [fst].
    + now rewrite (Hsame st1 Hlast).
    + rewrite Hsame; [reflexivity | exact Hlast].
  - cbn [fst]. now rewrite Hdedup.
Qed.

(** C3, as the pipeline does it: in minimal mode, once a terminal status of
    the tool call [id] has been delivered, no further tool call event of the
    turn is delivered with a terminal status for [id], at most one is
    delivered as a start of [id] (status [in_progress] or tag [tool_call]),
    an event whose rendered text is the last one announced for [id] is not
    delivered (so an event repeated right after itself is not), and the
    terminal flag of [id] stays set; each event is
    delivered at most once, and over a whole turn a terminal status and a
    start of [id] are each delivered at most once.  Updates of [id] that are
    neither a start nor terminal are delivered each time their text changes:
    their number is not bounded by one. *)
Theorem minimal_tool_call_guards
    (first : AcpRuntimeEvent) (further : list AcpRuntimeEvent) (st0 : TurnState) (id : string) :
  metaMode settings = minimal ->
  isToolCall first ->
  Forall isToolCall further ->
  terminalCount id (snd (onEvent first st0)) = 1%nat ->
  let st := fst (onEvent first st0) in
  let r := onEvents further st in
  terminalAt st id = true
  /\ terminalCount id (snd r) = 0%nat
  /\ (startCount id (snd r) <= 1)%nat
  /\ terminalAt (fst r) id = true
  /\ (forall (text : string) (evTag evToolCallId evStatus evTitle : option string)
             (st' : TurnState),
        trimmedId evToolCallId = Some id ->
        lastRenderedHash (lifecycleOf st' id) = Some (toolHashOf text evStatus evTitle) ->
        onEvent (EvToolCall text evTag evToolCallId evStatus evTitle) st' = (st', []))
  /\ (forall (text : string) (evTag evToolCallId evStatus evTitle : option string)
             (st' : TurnState),
        trimmedId evToolCallId = Some id ->
        toolDeliveries
          (snd (onEvent (EvToolCall text evTag evToolCallId evStatus evTitle)
                  (fst (onEvent (EvToolCall text evTag evToolCallId evStatus evTitle) st'))))
        = [])
  /\ (forall (event : AcpRuntimeEvent) (st' : TurnState),
        isToolCall event -> (List.length (toolDeliveries (snd (onEvent event st'))) <= 1)%nat)
  /\ (forall (events : list AcpRuntimeEvent) (st' : TurnState),
        Forall isToolCall events ->
        (terminalCount id (snd (onEvents events st')) <= 1)%nat
        /\ (startCount id (snd (onEvents events st')) <= 1)%nat).
Proof.
  intros Hmode Hfirst Hfurther Hdelivered. cbv zeta.
  destruct (toolCall_step first st0 id Hmode Hfirst) as (_ & _ & _ & Hterm & _).
  cbv zeta in Hterm. specialize (Hterm Hdelivered).
  destruct (toolCalls_run further (fst (onEvent first st0)) id Hmode Hfurther)
    as (Ht & _ & Htc & Hsc).
  cbv zeta in Ht, Htc, Hsc. rewrite Hterm in Htc.
  split; [exact Hterm|]. split; [lia|]. split.
  { destruct (startedAt (fst (onEvent first st0)) id); lia. }
  split; [now apply Ht|]. split; [|split; [|split]].
  - intros text evTag evToolCallId evStatus evTitle st' Hid Hsame.
    cbn [AcpProjector.onEvent]. rewrite emitToolSummary_minimal by assumption.
    unfold minimalDedup. rewrite Hid, (minimalGuards_same_text _ _ _ _ Hsame).
    now destruct (negb shouldSendToolSummaries), (negb (isTagVisible settings evTag)).
  - intros text evTag evToolCallId evStatus evTitle st' Hid.
    now apply (toolCall_repeat_suppressed text evTag evToolCallId evStatus evTitle st' id).
  - intros event st' Htool. now apply (toolCall_step event st' id Hmode Htool).
  - intros events st' Hall.
    destruct (toolCalls_run events st' id Hmode Hall) as (_ & _ & Htc' & Hsc').
    cbv zeta in Htc', Hsc'.
    destruct (terminalAt st' id), (startedAt st' id); split; lia.
Qed.

End Pipeline.

(** ** With the settings of a configuration *)

Section Resolved.

Variable prefixSystemMessage : string -> string.
Variable ToolDisplay : Type.
Variable resolveToolDisplay : string -> string -> ToolDisplay.
Variable formatToolSummary : ToolDisplay -> string.
Variable shouldSendToolSummaries : bool.
Variable cfg : option AcpStreamConfig.

Local Abbreviation settings := (resolveAcpProjectionSettings cfg).
Local Abbreviation onEvent :=
  (AcpProjector.onEvent prefixSystemMessage ToolDisplay resolveToolDisplay formatToolSummary
     shouldSendToolSummaries settings).
Local Abbreviation onEvents :=
  (AcpProjector.onEvents prefixSystemMessage ToolDisplay resolveToolDisplay formatToolSummary
     shouldSendToolSummaries settings).

Lemma statusChars_fit_notice : 16 <= maxStatusChars settings.
Proof. pose proof (maxStatusChars_bounds cfg). lia. Qed.

Lemma initial_within_budget :
  0 <= emittedTurnChars initialTurnState <= maxTurnChars settings.
Proof. pose proof (maxTurnChars_bounds cfg). cbn [emittedTurnChars initialTurnState]. lia. Qed.

(** C2, as the pipeline does it: when the visible output text that the
    deltas of a turn offer is longer than [maxTurnChars], the chunker gets
    exactly the first [maxTurnChars] characters of it, the truncation flag is
    set, and the notice ["output truncated"] is delivered once when
    [shouldSendToolSummaries] is set and not at all when it is not.  Each
    delta is accepted up to the budget that is left: the accepted prefix has
    the length of the delta or of the remaining budget, whichever is
    smaller; once the budget is used up nothing more is accepted. *)
Theorem turn_budget_truncates_once (events : list AcpRuntimeEvent) :
  Forall isTextDelta events ->
  maxTurnChars settings < Js.len (offered settings events) ->
  let r := onEvents events initialTurnState in
  toolDeliveries (snd r)
  = (if shouldSendToolSummaries then [notice prefixSystemMessage] else [])
  /\ appendedText (snd r) = Js.slice0 (offered settings events) (maxTurnChars settings)
  /\ Js.len (appendedText (snd r)) = maxTurnChars settings
  /\ emittedTurnChars (fst r) = maxTurnChars settings
  /\ truncationNoticeEmitted (fst r) = true
  /\ (forall (event : AcpRuntimeEvent) (st : TurnState),
        isTextDelta event ->
        0 <= emittedTurnChars st <= maxTurnChars settings ->
        let remaining := maxTurnChars settings - emittedTurnChars st in
        appendedText (snd (onEvent event st)) = Js.slice0 (acceptable settings event) remaining
        /\ Js.len (appendedText (snd (onEvent event st)))
           = Z.min remaining (Js.len (acceptable settings event))
        /\ (remaining = 0 -> appendedText (snd (onEvent event st)) = "")).
Proof.
  intros Hall Hlong. cbv zeta.
  pose proof (maxTurnChars_bounds cfg) as Hmax.
  destruct (textDeltas_run prefixSystemMessage ToolDisplay resolveToolDisplay formatToolSummary
              shouldSendToolSummaries settings events initialTurnState Hall
              statusChars_fit_notice initial_within_budget) as (He & Hf & Ha & Hd).
  cbv zeta in He, Hf, Ha, Hd. cbn [emittedTurnChars truncationNoticeEmitted initialTurnState] in *.
  destruct (Z.ltb_spec (maxTurnChars settings) (0 + Js.len (offered settings events))); [|lia].
  rewrite Z.sub_0_r in Ha. cbn [orb andb negb] in *.
  split; [exact Hd|]. split; [exact Ha|]. split.
  { rewrite Ha, slice0_len by lia. lia. }
  split; [lia|]. split; [exact Hf|].
  intros event st Hdelta Hrange.
  destruct (textDelta_step prefixSystemMessage ToolDisplay resolveToolDisplay formatToolSummary
              shouldSendToolSummaries settings event st Hdelta statusChars_fit_notice Hrange)
    as (_ & _ & Hstep & _).
  cbv zeta in Hstep. rewrite Hstep. split; [reflexivity|]. split.
  - apply slice0_len. lia.
  - intros ->. apply slice0_zero.
Qed.

(** C7: [done] and [error] force the flush of the chunker and of the block
    pipeline, whatever the quotas and hashes are, and leave the turn state
    as it was created; so a status line that was delivered before a turn
    boundary is delivered again right after it, while right after itself it
    is suppressed. *)
Theorem turn_boundary_flushes_and_resets
    (text : string) (evTag : option string) (used size : option Z) (st : TurnState) :
  let status := EvStatus text evTag used size in
  let delivered := toolDeliveries (snd (onEvent status initialTurnState)) in
  let fresh :=
    {| emittedTurnChars := 0; emittedMetaEvents := 0; truncationNoticeEmitted := false;
       lastStatusHash := None; lastToolHash := None; lastUsageTuple := None;
       toolLifecycleById := ∅ |} in
  (forall stopReason : string,
      onEvent (EvDone stopReason) st = (fresh, [ChunkerDrain true; PipelineFlush true]))
  /\ (forall (message : string) (code : option string),
        onEvent (EvError message code) st = (fresh, [ChunkerDrain true; PipelineFlush true]))
  /\ (forall (st1 : TurnState),
        toolDeliveries (snd (onEvent status st1)) <> [] ->
        toolDeliveries (snd (onEvent status st1))
        = [(statusLine prefixSystemMessage settings text, statusMeta evTag)]
        /\ forall (stopReason : string),
             toolDeliveries (snd (onEvent status (fst (onEvent (EvDone stopReason) st))))
             = toolDeliveries (snd (onEvent status st1)))
  /\ (forall stopReason : string,
        toolDeliveries (snd (onEvents [status; EvDone stopReason; status] initialTurnState))
        = (delivered ++ delivered)%list)
  /\ (forall (message : string) (code : option string),
        toolDeliveries (snd (onEvents [status; EvError message code; status] initialTurnState))
        = (delivered ++ delivered)%list)
  /\ toolDeliveries (snd (onEvents [status; status] initialTurnState)) = delivered.
Proof.
  cbv zeta. pose proof (maxMetaEventsPerTurn_bounds cfg) as Hquota.
  split; [intros; apply onEvent_done|]. split; [intros; apply onEvent_error|].
  split; [|split; [|split]].
  - intros st1 Hdelivered.
    rewrite onEvent_status_deliveries in Hdelivered |- *.
    destruct (statusVisible shouldSendToolSummaries settings text evTag)
      eqn:Hvisible; [|now destruct Hdelivered].
    destruct (statusNew prefixSystemMessage settings text evTag used size st1);
      [|now destruct Hdelivered].
    split; [reflexivity|]. intros stopReason.
    rewrite onEvent_done. cbn [fst]. rewrite onEvent_status_deliveries, Hvisible.
    rewrite statusNew_initial by lia. reflexivity.
  - intros stopReason. rewrite !onEvents_cons, onEvent_done. cbn [fst snd AcpProjector.onEvents].
    rewrite !toolDeliveries_app, app_nil_r. reflexivity.
  - intros message code. rewrite !onEvents_cons, onEvent_error.
    cbn [fst snd AcpProjector.onEvents].
    rewrite !toolDeliveries_app, app_nil_r. reflexivity.
  - rewrite !onEvents_cons. cbn [fst snd AcpProjector.onEvents].
    rewrite !toolDeliveries_app, app_nil_r, status_repeat_suppressed. apply app_nil_r.
Qed.

End Resolved.

(** ** The pipeline on concrete collaborators *)

Definition prefixWith (text : string) : string := "System: " ++ text.
Definition displayOf (name meta : string) : string * string := (name, meta).
Definition summaryOf (display : string * string) : string := fst display ++ ": " ++ snd display.

(** The pipeline with these collaborators. *)
Definition pipeline (shouldSendToolSummaries : bool) (cfg : option AcpStreamConfig)
    (events : list AcpRuntimeEvent) (st : TurnState) : TurnState * list Effect :=
  AcpProjector.onEvents prefixWith (string * string) displayOf summaryOf
    shouldSendToolSummaries (resolveAcpProjectionSettings cfg) events st.

(** A configuration that only sets [maxTurnChars]. *)
Definition turnChars (n : Z) : option AcpStreamConfig :=
  Some {| stream_coalesceIdleMs := None; stream_maxChunkChars := None;
          stream_deliveryMode := None; stream_metaMode := None; stream_showUsage := None;
          stream_maxTurnChars := Some (inject_Z n); stream_maxToolSummaryChars := None;
          stream_maxStatusChars := None; stream_maxMetaEventsPerTurn := None;
          stream_tagVisibility := [] |}.

Definition outputDelta (text : string) : AcpRuntimeEvent :=
  EvTextDelta text (Some output) (Some "agent_message_chunk").

Definition toolUpdate (status : option string) (title : string) : AcpRuntimeEvent :=
  EvToolCall "" (Some "tool_call_update") (Some "call-1") status (Some title).

Example default_settings :
  resolveAcpProjectionSettings None
  = {| deliveryMode := live; metaMode := minimal; showUsage := false; maxTurnChars := 24000;
       maxToolSummaryChars := 320; maxStatusChars := 320; maxMetaEventsPerTurn := 64;
       tagVisibility := [] |}.
Proof. reflexivity. Qed.

Example truncation_in_live_mode :
  snd (pipeline true (turnChars 5) [outputDelta "abc"; outputDelta "defg"; outputDelta "h"]
         initialTurnState)
  = [ChunkerAppend "abc"; ChunkerDrain false; ChunkerAppend "de"; ChunkerDrain false;
     ChunkerDrain true; PipelineFlush true;
     Deliver tool "System: output truncated" noticeMeta].
Proof. vm_compute. reflexivity. Qed.

(** C2 fails when [shouldSendToolSummaries] is not set: the text is cut at
    the budget and no ["output truncated"] status is delivered. *)
Lemma truncation_without_tool_summaries :
  maxTurnChars (resolveAcpProjectionSettings (turnChars 5))
  < Js.len (offered (resolveAcpProjectionSettings (turnChars 5))
              [outputDelta "abc"; outputDelta "defg"])
  /\ toolDeliveries
       (snd (pipeline false (turnChars 5) [outputDelta "abc"; outputDelta "defg"]
               initialTurnState)) = []
  /\ appendedText
       (snd (pipeline false (turnChars 5) [outputDelta "abc"; outputDelta "defg"]
               initialTurnState)) = "abcde".
Proof. repeat split; vm_compute; reflexivity. Qed.

Lemma turn_budget_truncates_once_witness :
  toolDeliveries
    (snd (pipeline true (turnChars 5) [outputDelta "abc"; outputDelta "defg"] initialTurnState))
  = [("System: output truncated", noticeMeta)]
  /\ appendedText
       (snd (pipeline true (turnChars 5) [outputDelta "abc"; outputDelta "defg"]
               initialTurnState)) = "abcde".
Proof.
  assert (Hall : Forall isTextDelta [outputDelta "abc"; outputDelta "defg"])
    by (repeat constructor).
  assert (Hlong : maxTurnChars (resolveAcpProjectionSettings (turnChars 5))
                  < Js.len (offered (resolveAcpProjectionSettings (turnChars 5))
                              [outputDelta "abc"; outputDelta "defg"]))
    by (vm_compute; reflexivity).
  destruct (turn_budget_truncates_once prefixWith (string * string) displayOf summaryOf true
              (turnChars 5) [outputDelta "abc"; outputDelta "defg"] Hall Hlong)
    as (Hnotice & Htext & _).
  split; [exact Hnotice|]. unfold pipeline. rewrite Htext. vm_compute. reflexivity.
Defined.

(** C3 fails where it bounds the further deliveries by one: after the
    terminal status of [call-1] three more updates of [call-1] are
    delivered, each with a text that differs from the one before. *)
Lemma updates_after_terminal_status_are_delivered :
  terminalCount "call-1"
    (snd (pipeline true None [toolUpdate (Some "completed") "search"] initialTurnState)) = 1%nat
  /\ toolCount "call-1"
       (snd (pipeline true None
               [toolUpdate None "search: 3 results"; toolUpdate None "search: 4 results";
                toolUpdate None "search: 3 results"]
               (fst (pipeline true None [toolUpdate (Some "completed") "search"]
                       initialTurnState)))) = 3%nat.
Proof. split; vm_compute; reflexivity. Qed.

Lemma minimal_tool_call_guards_witness :
  let st :=
    fst (pipeline true None [toolUpdate (Some "completed") "search"] initialTurnState) in
  let further :=
    [toolUpdate (Some "failed") "search"; toolUpdate (Some "in_progress") "search";
     toolUpdate (Some "in_progress") "search again"; toolUpdate (Some "completed") "search"] in
  terminalCount "call-1" (snd (pipeline true None further st)) = 0%nat
  /\ (startCount "call-1" (snd (pipeline true None further st)) <= 1)%nat.
Proof.
  cbv zeta.
  assert (Hmode : metaMode (resolveAcpProjectionSettings None) = minimal) by reflexivity.
  assert (Hall : Forall isToolCall
                   [toolUpdate (Some "failed") "search"; toolUpdate (Some "in_progress") "search";
                    toolUpdate (Some "in_progress") "search again";
                    toolUpdate (Some "completed") "search"])
    by (repeat constructor).
  assert (Hfirst : terminalCount "call-1"
                     (snd (AcpProjector.onEvent prefixWith (string * string) displayOf summaryOf
                             true (resolveAcpProjectionSettings None)
                             (toolUpdate (Some "completed") "search") initialTurnState)) = 1%nat)
    by (vm_compute; reflexivity).
  destruct (minimal_tool_call_guards prefixWith (string * string) displayOf summaryOf true
              (resolveAcpProjectionSettings None)
              (toolUpdate (Some "completed") "search") _ initialTurnState "call-1"
              Hmode I Hall Hfirst) as (_ & Hterminal & Hstart & _).
  cbv zeta in Hterminal, Hstart.
  assert (Hst : fst (pipeline true None [toolUpdate (Some "completed") "search"] initialTurnState)
                = fst (AcpProjector.onEvent prefixWith (string * string) displayOf summaryOf
                         true (resolveAcpProjectionSettings None)
                         (toolUpdate (Some "completed") "search") initialTurnState)).
  { unfold pipeline. rewrite onEvents_cons. reflexivity. }
  rewrite Hst. split; [exact Hterminal | exact Hstart].
Defined.

Lemma turn_boundary_flushes_and_resets_witness :
  toolDeliveries
    (snd (pipeline true None
            [EvStatus "working" None None None; EvStatus "working" None None None;
             EvDone "end_turn"; EvStatus "working" None None None]
            initialTurnState))
  = [("System: working", None); ("System: working", None)]
  /\ toolDeliveries
       (snd (pipeline true None
               [EvStatus "working" None None None; EvDone "end_turn";
                EvStatus "working" None None None]
               initialTurnState))
     = [("System: working", None); ("System: working", None)].
Proof.
  split; [vm_compute; reflexivity|].
  destruct (turn_boundary_flushes_and_resets prefixWith (string * string) displayOf summaryOf
              true None "working" None None None initialTurnState)
    as (_ & _ & _ & Htwice & _).
  cbv zeta in Htwice. unfold pipeline. rewrite (Htwice "end_turn"). vm_compute. reflexivity.
Defined.

End AcpProjectorFacts.

Module GuardsFacts.
Import Guards.

(** ** Ordered maps *)

(** A [Map] holds a key once. *)
Definition uniqueKeys {V : Type} (map : OrderedMap V) : Prop := List.NoDup (List.map fst map).

Lemma mapGet_app {V : Type} (a b : OrderedMap V) (key : string) :
  mapGet (a ++ b)%list key = match mapGet a key with Some v => Some v | None => mapGet b key end.
Proof.
  induction a as [|[k v] a IH]; [reflexivity|]. cbn. now destruct (String.eqb k key).
Qed.

Lemma mapGet_none_keys {V : Type} (map : OrderedMap V) (key : string) :
  mapGet map key = None <-> ~ In key (List.map fst map).
Proof.
  induction map as [|[k v] map IH]; cbn; [tauto|].
  destruct (String.eqb_spec k key) as [->|Hne]; split; try tauto; try discriminate.
Qed.

Lemma mapGet_some_keys {V : Type} (map : OrderedMap V) (key : string) (v : V) :
  mapGet map key = Some v -> In (key, v) map.
Proof.
  induction map as [|[k w] map IH]; cbn; [discriminate|].
  destruct (String.eqb_spec k key) as [->|Hne]; intros H; [left; congruence | right; auto].
Qed.

Lemma mapGet_filter_kept {V : Type} (keep : string * V -> bool) (map : OrderedMap V)
    (key : string) (v : V) :
  mapGet map key = Some v -> keep (key, v) = true -> mapGet (List.filter keep map) key = Some v.
Proof.
  induction map as [|[k w] map IH]; cbn; [discriminate|].
  destruct (String.eqb_spec k key) as [->|Hne]; intros Hget Hkeep.
  - inversion Hget; subst. rewrite Hkeep. cbn. now rewrite String.eqb_refl.
  - destruct (keep (k, w)); cbn; [|auto].
    destruct (String.eqb_spec k key); [contradiction | auto].
Qed.

Lemma mapGet_filter_none {V : Type} (keep : string * V -> bool) (map : OrderedMap V)
    (key : string) :
  mapGet map key = None -> mapGet (List.filter keep map) key = None.
Proof.
  rewrite !mapGet_none_keys. intros H Hin. apply H.
  apply in_map_iff in Hin. destruct Hin as (kv & Hk & Hin).
  apply List.filter_In in Hin. apply in_map_iff. exists kv. tauto.
Qed.

(** In a map with unique keys a removed entry leaves its key unbound. *)
Lemma mapGet_filter_dropped {V : Type} (keep : string * V -> bool) (map : OrderedMap V)
    (key : string) (v : V) :
  uniqueKeys map ->
  mapGet map key = Some v -> keep (key, v) = false -> mapGet (List.filter keep map) key = None.
Proof.
  unfold uniqueKeys. induction map as [|[k w] map IH]; cbn; [discriminate|].
  intros Hnodup. inversion Hnodup as [|? ? Hnotin Hrest]; subst.
  destruct (String.eqb_spec k key) as [->|Hne]; intros Hget Hkeep.
  - inversion Hget; subst. rewrite Hkeep. apply mapGet_filter_none.
    now apply mapGet_none_keys.
  - destruct (keep (k, w)); cbn; [|auto].
    destruct (String.eqb_spec k key); [contradiction | auto].
Qed.

Lemma mapGet_delete {V : Type} (map : OrderedMap V) (key : string) :
  mapGet (mapDelete map key) key = None.
Proof.
  unfold mapDelete. induction map as [|[k v] map IH]; [reflexivity|]. cbn.
  destruct (String.eqb_spec k key) as [->|Hne]; cbn; [assumption|].
  destruct (String.eqb_spec k key); [contradiction | assumption].
Qed.

Lemma mapDelete_absent {V : Type} (map : OrderedMap V) (key : string) :
  mapGet map key = None -> mapDelete map key = map.
Proof.
  unfold mapDelete. induction map as [|[k v] map IH]; [reflexivity|]. cbn.
  destruct (String.eqb_spec k key) as [->|Hne]; [discriminate|]. cbn.
  intros H. now rewrite IH.
Qed.

Lemma mapDelete_length {V : Type} (map : OrderedMap V) (key : string) :
  (List.length (mapDelete map key) <= List.length map)%nat.
Proof. apply List.filter_length_le. Qed.

Lemma in_skipn {A : Type} (n : nat) (l : list A) (x : A) : In x (skipn n l) -> In x l.
Proof. intros H. rewrite <- (firstn_skipn n l). apply in_or_app. now right. Qed.

Lemma mapGet_skipn_none {V : Type} (n : nat) (map : OrderedMap V) (key : string) :
  mapGet map key = None -> mapGet (skipn n map) key = None.
Proof.
  rewrite !mapGet_none_keys. intros H Hin. apply H.
  apply in_map_iff in Hin. destruct Hin as (kv & Hk & Hin).
  apply in_map_iff. exists kv. split; [assumption|]. eapply in_skipn; eauto.
Qed.

(** The key that was touched survives the eviction: it is the newest. *)
Lemma mapGet_touch_prune {V : Type} (map : OrderedMap V) (key : string) (v : V) (maxSize : Z) :
  1 <= maxSize ->
  mapGet (pruneMapToMaxSize (touch map key v) maxSize) key = Some v.
Proof.
  intros Hmax. unfold pruneMapToMaxSize, touch, mapSize.
  rewrite List.length_app. cbn [List.length].
  set (n := Z.to_nat _).
  assert (Hn : (n <= List.length (mapDelete map key))%nat) by (unfold n; lia).
  rewrite List.skipn_app. replace (n - List.length (mapDelete map key))%nat with 0%nat by lia.
  cbn [skipn]. rewrite mapGet_app, mapGet_skipn_none by apply mapGet_delete.
  cbn. now rewrite String.eqb_refl.
Qed.

Lemma pruneMapToMaxSize_size {V : Type} (map : OrderedMap V) (maxSize : Z) :
  0 <= maxSize -> mapSize (pruneMapToMaxSize map maxSize) <= maxSize.
Proof.
  intros Hmax. unfold pruneMapToMaxSize, mapSize. rewrite List.length_skipn. lia.
Qed.

(** A new key in a full map evicts the oldest entry, the head. *)
Lemma touch_prune_full {V : Type} (map : OrderedMap V) (key : string) (v : V) (maxSize : Z) :
  mapGet map key = None ->
  mapSize map = maxSize ->
  1 <= maxSize ->
  pruneMapToMaxSize (touch map key v) maxSize = (tl map ++ [(key, v)])%list.
Proof.
  intros Habsent Hsize Hmax. unfold pruneMapToMaxSize, touch, mapSize in *.
  rewrite (mapDelete_absent _ _ Habsent), List.length_app. cbn [List.length].
  replace (Z.to_nat _) with 1%nat by lia.
  destruct map; [cbn in Hsize; lia | reflexivity].
Qed.

(** A new key in a map with room evicts nothing. *)
Lemma touch_prune_room {V : Type} (map : OrderedMap V) (key : string) (v : V) (maxSize : Z) :
  mapGet map key = None ->
  mapSize map < maxSize ->
  pruneMapToMaxSize (touch map key v) maxSize = (map ++ [(key, v)])%list.
Proof.
  intros Habsent Hsize. unfold pruneMapToMaxSize, touch, mapSize in *.
  rewrite (mapDelete_absent _ _ Habsent), List.length_app. cbn [List.length].
  replace (Z.to_nat _) with 0%nat by lia. reflexivity.
Qed.

Lemma uniqueKeys_filter {V : Type} (keep : string * V -> bool) (map : OrderedMap V) :
  uniqueKeys map -> uniqueKeys (List.filter keep map).
Proof.
  unfold uniqueKeys. induction map as [|[k v] map IH]; cbn; intros H; [assumption|].
  inversion H as [|? ? Hnotin Hrest]; subst.
  destruct (keep (k, v)); cbn; [|auto]. constructor; [|auto].
  intros Hin. apply Hnotin. apply in_map_iff in Hin. destruct Hin as (kv & Hk & Hin).
  apply List.filter_In in Hin. apply in_map_iff. exists kv. tauto.
Qed.

Lemma uniqueKeys_skipn {V : Type} (n : nat) (map : OrderedMap V) :
  uniqueKeys map -> uniqueKeys (skipn n map).
Proof.
  unfold uniqueKeys. intros H. rewrite <- (firstn_skipn n map), List.map_app in H.
  now apply List.NoDup_app_remove_l in H.
Qed.

Lemma uniqueKeys_touch {V : Type} (map : OrderedMap V) (key : string) (v : V) :
  uniqueKeys map -> uniqueKeys (touch map key v).
Proof.
  intros H. unfold touch, uniqueKeys. rewrite List.map_app. apply List.NoDup_app.
  - now apply uniqueKeys_filter.
  - cbn. constructor; [intros [] | constructor].
  - intros k Hin [Heq|[]]. subst k.
    now apply (proj1 (mapGet_none_keys (mapDelete map key) key) (mapGet_delete map key)).
Qed.

Lemma atLeastOne_pos (v : Q) : 1 <= atLeastOne v.
Proof. unfold atLeastOne. lia. Qed.

Lemma atLeastOne_integer (n : Z) : 1 <= n -> atLeastOne (inject_Z n) = n.
Proof. intros H. unfold atLeastOne. rewrite Qfloor_Z. lia. Qed.

(** ** The fixed-window rate limiter *)

Section Limiter.
Import FixedWindow.

Variable options : Options.

Local Abbreviation windowMs := (FixedWindow.windowMs options).
Local Abbreviation maxRequests := (FixedWindow.maxRequests options).
Local Abbreviation maxTrackedKeys := (FixedWindow.maxTrackedKeys options).
Local Abbreviation isRateLimited := (FixedWindow.isRateLimited options).
Local Abbreviation sweep := (FixedWindow.sweep options).
Local Abbreviation calls := (FixedWindow.calls options).

(** The key has no window that is live at [nowMs]: no entry, or one whose
    window has elapsed. *)
Definition noLiveWindow (l : Limiter) (key : string) (nowMs : Z) : Prop :=
  match mapGet (state l) key with
  | None => True
  | Some existing => windowMs <= nowMs - windowStartMs existing
  end.

(** The limiter after a call that starts a window. *)
Definition windowStarted (l : Limiter) (key : string) (nowMs : Z) : Limiter :=
  {| state :=
       pruneMapToMaxSize
         (touch (state (sweep l nowMs)) key {| count := 1; windowStartMs := nowMs |})
         maxTrackedKeys;
     lastPruneMs := lastPruneMs (sweep l nowMs) |}.

(** The limiter after a call inside the window of [existing]. *)
Definition counted (l : Limiter) (key : string) (nowMs : Z) (existing : FixedWindowState)
  : Limiter :=
  {| state :=
       pruneMapToMaxSize
         (touch (state (sweep l nowMs)) key
            {| count := count existing + 1; windowStartMs := windowStartMs existing |})
         maxTrackedKeys;
     lastPruneMs := lastPruneMs (sweep l nowMs) |}.

Lemma maxTrackedKeys_pos : 1 <= maxTrackedKeys.
Proof. apply atLeastOne_pos. Qed.

Lemma maxRequests_pos : 1 <= maxRequests.
Proof. apply atLeastOne_pos. Qed.

Lemma sweep_live (l : Limiter) (key : string) (nowMs : Z) (existing : FixedWindowState) :
  mapGet (state l) key = Some existing ->
  nowMs - windowStartMs existing < windowMs ->
  mapGet (state (sweep l nowMs)) key = Some existing.
Proof.
  intros Hget Hlive. unfold FixedWindow.sweep.
  destruct (nowMs - lastPruneMs l >=? FixedWindow.pruneIntervalMs options)%Z; [|assumption].
  cbn [state]. unfold prune. apply mapGet_filter_kept; [assumption|]. cbn.
  destruct (Z.geb_spec (nowMs - windowStartMs existing) windowMs); [lia | reflexivity].
Qed.

Lemma sweep_no_live (l : Limiter) (key : string) (nowMs : Z) :
  uniqueKeys (state l) ->
  noLiveWindow l key nowMs ->
  noLiveWindow (sweep l nowMs) key nowMs.
Proof.
  intros Hunique Hnone. unfold noLiveWindow in *. unfold FixedWindow.sweep.
  destruct (nowMs - lastPruneMs l >=? FixedWindow.pruneIntervalMs options)%Z; [|assumption].
  cbn [state]. unfold prune.
  destruct (mapGet (state l) key) as [existing|] eqn:Hget.
  - rewrite (mapGet_filter_dropped _ _ _ existing Hunique Hget); [exact I|]. cbn.
    destruct (Z.geb_spec (nowMs - windowStartMs existing) windowMs); [reflexivity | lia].
  - now rewrite mapGet_filter_none.
Qed.

Lemma isRateLimited_fresh (l : Limiter) (key : string) (nowMs : Z) :
  key <> "" ->
  uniqueKeys (state l) ->
  noLiveWindow l key nowMs ->
  isRateLimited key nowMs l = (false, windowStarted l key nowMs).
Proof.
  intros Hkey Hunique Hnone. apply JsFacts.nonEmpty_true in Hkey.
  unfold FixedWindow.isRateLimited. rewrite Hkey. cbn [negb].
  pose proof (sweep_no_live l key nowMs Hunique Hnone) as Hswept. unfold noLiveWindow in Hswept.
  destruct (mapGet (state (sweep l nowMs)) key) as [existing|]; [|reflexivity].
  destruct (Z.geb_spec (nowMs - windowStartMs existing) windowMs); [reflexivity | lia].
Qed.

Lemma isRateLimited_live (l : Limiter) (key : string) (nowMs : Z) (existing : FixedWindowState) :
  key <> "" ->
  mapGet (state l) key = Some existing ->
  nowMs - windowStartMs existing < windowMs ->
  isRateLimited key nowMs l
  = ((count existing + 1 >? maxRequests)%Z, counted l key nowMs existing).
Proof.
  intros Hkey Hget Hlive. apply JsFacts.nonEmpty_true in Hkey.
  unfold FixedWindow.isRateLimited. rewrite Hkey. cbn [negb].
  rewrite (sweep_live l key nowMs existing Hget Hlive).
  destruct (Z.geb_spec (nowMs - windowStartMs existing) windowMs); [lia | reflexivity].
Qed.

Lemma started_get (l : Limiter) (key : string) (nowMs : Z) :
  mapGet (state (windowStarted l key nowMs)) key = Some {| count := 1; windowStartMs := nowMs |}.
Proof. apply mapGet_touch_prune, maxTrackedKeys_pos. Qed.

Lemma counted_get (l : Limiter) (key : string) (nowMs : Z) (existing : FixedWindowState) :
  mapGet (state (counted l key nowMs existing)) key
  = Some {| count := count existing + 1; windowStartMs := windowStartMs existing |}.
Proof. apply mapGet_touch_prune, maxTrackedKeys_pos. Qed.

(** Calls inside the window that windowStarted at [start], after [n] calls. *)
Lemma calls_in_window (key : string) (start : Z) (times : list Z) (l : Limiter) (n : Z) :
  key <> "" ->
  mapGet (state l) key = Some {| count := n; windowStartMs := start |} ->
  Forall (fun t => t - start < windowMs) times ->
  fst (calls key times l)
  = List.map (fun i => (n + Z.of_nat i >? maxRequests)%Z) (seq 1 (List.length times)).
Proof.
  intros Hkey Hget Hall. revert l n Hget.
  induction Hall as [|t rest Hlive Hrest IH]; intros l n Hget; [reflexivity|].
  cbn [FixedWindow.calls List.length seq List.map].
  rewrite (isRateLimited_live l key t _ Hkey Hget Hlive). cbn [count windowStartMs].
  specialize (IH (counted l key t {| count := n; windowStartMs := start |}) (n + 1)
                (counted_get _ _ _ _)).
  destruct (calls key rest _) as [results l'] eqn:Hcalls. cbn [fst] in IH |- *.
  change (Z.of_nat 1) with 1. f_equal. rewrite IH, <- (seq_shift (List.length rest) 1), List.map_map.
  apply List.map_ext. intros i. f_equal. lia.
Qed.

(** The size of the map after a call. *)
Lemma isRateLimited_size (l : Limiter) (key : string) (nowMs : Z) :
  FixedWindow.size l <= maxTrackedKeys ->
  FixedWindow.size (snd (isRateLimited key nowMs l)) <= maxTrackedKeys.
Proof.
  intros Hsize. pose proof maxTrackedKeys_pos as Hmax.
  unfold FixedWindow.isRateLimited.
  destruct (Js.nonEmpty key); cbn [negb]; [|assumption].
  destruct (mapGet (state (sweep l nowMs)) key) as [existing|];
    [destruct (nowMs - windowStartMs existing >=? windowMs)%Z|];
    apply pruneMapToMaxSize_size; lia.
Qed.

Lemma run_size (requests : list (string * Z)) (l : Limiter) :
  FixedWindow.size l <= maxTrackedKeys ->
  FixedWindow.size (FixedWindow.run options requests l) <= maxTrackedKeys.
Proof.
  revert l. induction requests as [|[key t] rest IH]; intros l Hsize; [assumption|].
  cbn [FixedWindow.run]. apply IH. now apply isRateLimited_size.
Qed.

(** The keys stay unique: the states that the limiter reaches have them so. *)
Lemma isRateLimited_uniqueKeys (l : Limiter) (key : string) (nowMs : Z) :
  uniqueKeys (state l) -> uniqueKeys (state (snd (isRateLimited key nowMs l))).
Proof.
  intros H. unfold FixedWindow.isRateLimited.
  destruct (Js.nonEmpty key); cbn [negb]; [|assumption].
  assert (Hswept : uniqueKeys (state (sweep l nowMs))).
  { unfold FixedWindow.sweep. destruct (_ >=? _)%Z; [|assumption].
    cbn [state]. now apply uniqueKeys_filter. }
  destruct (mapGet (state (sweep l nowMs)) key) as [existing|];
    [destruct (nowMs - windowStartMs existing >=? windowMs)%Z|];
    cbn [snd state]; apply uniqueKeys_skipn, uniqueKeys_touch, Hswept.
Qed.

Lemma map_all_false {A : Type} (f : A -> bool) (l : list A) :
  (forall x, In x l -> f x = false) -> List.map f l = repeat false (List.length l).
Proof.
  induction l as [|x l IH]; intros H; [reflexivity|]. cbn.
  rewrite H by now left. f_equal. apply IH. intros y Hy. apply H. now right.
Qed.

(** C4, as the limiter does it, for a key that is not empty: a call for a
    key without a live window starts a window with count 1 and is not
    limited; a call inside the window adds one to the count and is limited
    exactly when the new count exceeds [maxRequests]; so of consecutive calls
    inside one window the first [maxRequests] are not limited and the next
    one is; a call once [windowMs] has elapsed since the start of the window
    is not limited.  For the empty key [isRateLimited] answers [false] and
    tracks nothing. *)
Theorem fixed_window_rate_limit (key : string) (l : Limiter) :
  key <> "" ->
  uniqueKeys (state l) ->
  (forall nowMs : Z,
      noLiveWindow l key nowMs ->
      fst (isRateLimited key nowMs l) = false
      /\ mapGet (state (snd (isRateLimited key nowMs l))) key
         = Some {| count := 1; windowStartMs := nowMs |})
  /\ (forall (nowMs : Z) (existing : FixedWindowState),
        mapGet (state l) key = Some existing ->
        nowMs - windowStartMs existing < windowMs ->
        fst (isRateLimited key nowMs l) = (count existing + 1 >? maxRequests)%Z
        /\ mapGet (state (snd (isRateLimited key nowMs l))) key
           = Some {| count := count existing + 1; windowStartMs := windowStartMs existing |})
  /\ (forall (start : Z) (rest : list Z),
        noLiveWindow l key start ->
        Forall (fun t => t - start < windowMs) rest ->
        fst (calls key (start :: rest) l)
        = List.map (fun i => (Z.of_nat i >? maxRequests)%Z) (seq 1 (S (List.length rest)))
        /\ (List.length rest = Z.to_nat maxRequests ->
            fst (calls key (start :: rest) l)
            = (repeat false (Z.to_nat maxRequests) ++ [true])%list))
  /\ (forall (nowMs : Z) (existing : FixedWindowState),
        mapGet (state l) key = Some existing ->
        windowMs <= nowMs - windowStartMs existing ->
        fst (isRateLimited key nowMs l) = false)
  /\ (forall (nowMs : Z) (l' : Limiter), isRateLimited "" nowMs l' = (false, l')).
Proof.
  intros Hkey Hunique. pose proof maxRequests_pos as Hmax.
  split; [|split; [|split; [|split]]].
  - intros nowMs Hnone. rewrite (isRateLimited_fresh l key nowMs Hkey Hunique Hnone).
    split; [reflexivity | apply started_get].
  - intros nowMs existing Hget Hlive. rewrite (isRateLimited_live l key nowMs _ Hkey Hget Hlive).
    split; [reflexivity | apply counted_get].
  - intros start rest Hnone Hall.
    assert (Hseq : fst (calls key (start :: rest) l)
                   = List.map (fun i => (Z.of_nat i >? maxRequests)%Z)
                       (seq 1 (S (List.length rest)))).
    { cbn [FixedWindow.calls]. rewrite (isRateLimited_fresh l key start Hkey Hunique Hnone).
      pose proof (calls_in_window key start rest (windowStarted l key start) 1 Hkey
                    (started_get _ _ _) Hall) as Hrest.
      destruct (calls key rest (windowStarted l key start)) as [results l'].
      cbn [fst] in Hrest |- *. cbn [seq List.map].
      f_equal; [destruct (Z.gtb_spec (Z.of_nat 1) maxRequests); [lia | reflexivity]|].
      rewrite Hrest, <- (seq_shift (List.length rest) 1), List.map_map.
      apply List.map_ext. intros i. f_equal. lia. }
    split; [exact Hseq|]. intros Hlen. rewrite Hseq, seq_S, List.map_app, Hlen.
    f_equal.
    + rewrite map_all_false; [now rewrite List.length_seq|].
      intros i Hi. apply in_seq in Hi.
      destruct (Z.gtb_spec (Z.of_nat i) maxRequests); [lia | reflexivity].
    + cbn [List.map]. f_equal.
      destruct (Z.gtb_spec (Z.of_nat (1 + Z.to_nat maxRequests)) maxRequests); [reflexivity | lia].
  - intros nowMs existing Hget Hexpired.
    rewrite (isRateLimited_fresh l key nowMs Hkey Hunique); [reflexivity|].
    unfold noLiveWindow. now rewrite Hget.
  - reflexivity.
Qed.

End Limiter.

(** ** The bounded counter *)

Section Counter.
Import Counter.

Variable options : Options.

Local Abbreviation maxTrackedKeys := (Counter.maxTrackedKeys options).
Local Abbreviation increment := (Counter.increment options).
Local Abbreviation sweep := (Counter.sweep options).

Lemma counter_maxTrackedKeys_pos : 1 <= maxTrackedKeys.
Proof. apply atLeastOne_pos. Qed.

Lemma increment_size (c : BoundedCounter) (key : string) (nowMs : Z) :
  Counter.size c <= maxTrackedKeys ->
  Counter.size (snd (increment key nowMs c)) <= maxTrackedKeys.
Proof.
  intros Hsize. pose proof counter_maxTrackedKeys_pos as Hmax.
  unfold Counter.increment.
  destruct (Js.nonEmpty key); cbn [negb]; [|assumption].
  apply pruneMapToMaxSize_size. lia.
Qed.

Lemma counter_run_size (requests : list (string * Z)) (c : BoundedCounter) :
  Counter.size c <= maxTrackedKeys ->
  Counter.size (Counter.run options requests c) <= maxTrackedKeys.
Proof.
  revert c. induction requests as [|[key t] rest IH]; intros c Hsize; [assumption|].
  cbn [Counter.run]. apply IH. now apply increment_size.
Qed.

(** A key that is not tracked, counted in a full map: the oldest key goes. *)
Lemma increment_evicts_oldest (c : BoundedCounter) (key : string) (nowMs : Z) :
  key <> "" ->
  mapGet (counters (sweep c nowMs)) key = None ->
  mapSize (counters (sweep c nowMs)) = maxTrackedKeys ->
  increment key nowMs c
  = (1,
     {| counters :=
          (tl (counters (sweep c nowMs)) ++ [(key, {| count := 1; updatedAtMs := nowMs |})])%list;
        lastPruneMs := lastPruneMs (sweep c nowMs) |}).
Proof.
  intros Hkey Habsent Hfull. apply JsFacts.nonEmpty_true in Hkey.
  unfold Counter.increment. rewrite Hkey, Habsent. cbn [negb]. change (0 + 1) with 1.
  now rewrite (touch_prune_full _ _ _ _ Habsent Hfull counter_maxTrackedKeys_pos).
Qed.

End Counter.

Section Bounds.

Variable counterOptions : Counter.Options.
Variable limiterOptions : FixedWindow.Options.

(** C8, as the guards do it: whatever the calls, the counter and the limiter
    never track more keys than their [maxTrackedKeys], which is the
    configured number rounded down and raised to 1 when it is below 1; so a
    counter configured with an integer [N >= 1] never reports a size above
    [N].  A key that is not tracked, counted when the map is full, evicts
    the least recently touched key, the first of the map. *)
Theorem guards_track_at_most_max_keys (requests : list (string * Z)) :
  Counter.size (Counter.run counterOptions requests (Counter.create))
  <= Z.max 1 (Qfloor (Counter.opt_maxTrackedKeys counterOptions))
  /\ FixedWindow.size (FixedWindow.run limiterOptions requests (FixedWindow.create))
     <= Z.max 1 (Qfloor (FixedWindow.opt_maxTrackedKeys limiterOptions))
  /\ (forall N : Z,
        1 <= N ->
        Counter.opt_maxTrackedKeys counterOptions = inject_Z N ->
        Counter.size (Counter.run counterOptions requests (Counter.create)) <= N)
  /\ (forall (c : Counter.BoundedCounter) (key : string) (nowMs : Z),
        key <> "" ->
        mapGet (Counter.counters (Counter.sweep counterOptions c nowMs)) key = None ->
        mapSize (Counter.counters (Counter.sweep counterOptions c nowMs))
        = Counter.maxTrackedKeys counterOptions ->
        Counter.counters (snd (Counter.increment counterOptions key nowMs c))
        = (tl (Counter.counters (Counter.sweep counterOptions c nowMs))
             ++ [(key, {| Counter.count := 1; Counter.updatedAtMs := nowMs |})])%list).
Proof.
  split; [|split; [|split]].
  - apply counter_run_size. pose proof (counter_maxTrackedKeys_pos counterOptions).
    unfold Counter.size, Counter.create, mapSize. cbn. lia.
  - apply run_size. pose proof (maxTrackedKeys_pos limiterOptions).
    unfold FixedWindow.size, FixedWindow.create, mapSize. cbn. lia.
  - intros N HN Hcfg.
    pose proof (counter_run_size counterOptions requests (Counter.create)) as Hsize.
    unfold Counter.maxTrackedKeys in Hsize. rewrite Hcfg, atLeastOne_integer in Hsize by assumption.
    apply Hsize. unfold Counter.size, Counter.create, mapSize. cbn. lia.
  - intros c key nowMs Hkey Habsent Hfull.
    now rewrite (increment_evicts_oldest counterOptions c key nowMs Hkey Habsent Hfull).
Qed.

End Bounds.

(** ** The cases of [webhook-memory-guards.test.ts] *)

Definition limiterOptions (windowMs maxRequests maxTrackedKeys : Z) (pruneIntervalMs : option Z)
  : FixedWindow.Options :=
  {| FixedWindow.opt_windowMs := inject_Z windowMs;
     FixedWindow.opt_maxRequests := inject_Z maxRequests;
     FixedWindow.opt_maxTrackedKeys := inject_Z maxTrackedKeys;
     FixedWindow.opt_pruneIntervalMs := option_map inject_Z pruneIntervalMs |}.

Definition counterOptions (maxTrackedKeys : Z) (ttlMs pruneIntervalMs : option Z)
  : Counter.Options :=
  {| Counter.opt_maxTrackedKeys := inject_Z maxTrackedKeys;
     Counter.opt_ttlMs := option_map inject_Z ttlMs;
     Counter.opt_pruneIntervalMs := option_map inject_Z pruneIntervalMs |}.

Example test_enforces_fixed_window_limit :
  fst (FixedWindow.calls (limiterOptions 60000 3 100 None) "k" [1000; 1001; 1002; 1003]
         FixedWindow.create)
  = [false; false; false; true].
Proof. vm_compute. reflexivity. Qed.

Example test_resets_after_window :
  fst (FixedWindow.calls (limiterOptions 10 1 100 None) "k" [100; 101; 111] FixedWindow.create)
  = [false; true; false].
Proof. vm_compute. reflexivity. Qed.

Example test_limiter_prunes_stale_keys :
  FixedWindow.size
    (FixedWindow.run (limiterOptions 10 10 100 (Some 10))
       [("key-0", 100); ("key-1", 100); ("key-2", 100); ("fresh", 120)] FixedWindow.create)
  = 1.
Proof. vm_compute. reflexivity. Qed.

Example test_counter_counts_per_key :
  List.map (fun n => fst (Counter.increment (counterOptions 100 None None) "k" (1000 + n)
                            (Counter.run (counterOptions 100 None None)
                               (List.map (fun i => ("k", 1000 + Z.of_nat i)) (seq 0 (Z.to_nat n)))
                               Counter.create)))
    [0; 1; 2]
  = [1; 2; 3].
Proof. vm_compute. reflexivity. Qed.

Example test_counter_caps_tracked_keys :
  Counter.counters
    (Counter.run (counterOptions 3 None None)
       [("k-0", 1000); ("k-1", 1001); ("k-2", 1002); ("k-3", 1003); ("k-1", 1004);
        ("k-4", 1005)] Counter.create)
  = [("k-3", {| Counter.count := 1; Counter.updatedAtMs := 1003 |});
     ("k-1", {| Counter.count := 2; Counter.updatedAtMs := 1004 |});
     ("k-4", {| Counter.count := 1; Counter.updatedAtMs := 1005 |})].
Proof. vm_compute. reflexivity. Qed.

Example test_counter_expires_stale_keys :
  Counter.size
    (Counter.run (counterOptions 100 (Some 10) (Some 10))
       [("old-1", 100); ("old-2", 100); ("fresh", 120)] Counter.create)
  = 1.
Proof. vm_compute. reflexivity. Qed.

(** C4 fails for the empty key: no window is windowStarted, and the call after
    [maxRequests] calls is not limited. *)
Lemma empty_key_is_never_limited :
  FixedWindow.maxRequests (limiterOptions 10 1 100 None) = 1
  /\ FixedWindow.calls (limiterOptions 10 1 100 None) "" [100; 101; 102] FixedWindow.create
     = ([false; false; false], FixedWindow.create)
  /\ fst (FixedWindow.calls (limiterOptions 10 1 100 None) "k" [100; 101; 102]
            FixedWindow.create)
     = [false; true; true].
Proof. repeat split; vm_compute; reflexivity. Qed.

(** C8 fails for a configured maximum below 1: the counter capped at 0 keys
    tracks one key. *)
Lemma counter_capped_at_zero_tracks_one_key :
  Counter.opt_maxTrackedKeys (counterOptions 0 None None) = inject_Z 0
  /\ Counter.size (Counter.run (counterOptions 0 None None) [("a", 1000)] Counter.create) = 1
  /\ FixedWindow.size
       (FixedWindow.run (limiterOptions 10 1 0 None) [("a", 1000)] FixedWindow.create) = 1.
Proof. repeat split; vm_compute; reflexivity. Qed.

Lemma fixed_window_rate_limit_witness :
  fst (FixedWindow.calls (limiterOptions 60000 3 100 None) "k" [1000; 1001; 1002; 1003]
         FixedWindow.create)
  = [false; false; false; true].
Proof.
  assert (Hkey : "k" <> "") by discriminate.
  assert (Hunique : uniqueKeys (FixedWindow.state FixedWindow.create)) by constructor.
  destruct (fixed_window_rate_limit (limiterOptions 60000 3 100 None) "k" FixedWindow.create
              Hkey Hunique) as (_ & _ & Hseq & _).
  destruct (Hseq 1000 [1001; 1002; 1003]) as [_ Hwindow].
  - exact I.
  - repeat constructor.
  - apply Hwindow. reflexivity.
Defined.

Lemma guards_track_at_most_max_keys_witness :
  Counter.size
    (Counter.run (counterOptions 3 None None)
       [("k-0", 1000); ("k-1", 1001); ("k-2", 1002); ("k-3", 1003)] Counter.create) <= 3.
Proof.
  destruct (guards_track_at_most_max_keys (counterOptions 3 None None)
              (limiterOptions 10 1 3 None)
              [("k-0", 1000); ("k-1", 1001); ("k-2", 1002); ("k-3", 1003)])
    as (_ & _ & Hcap & _).
  apply Hcap; [lia | reflexivity].
Defined.

End GuardsFacts.
(* ===================================================================== *)
(** * More on the prompt stream projectors                                *)
(* ===================================================================== *)

Module EventsInvariants.
Import Json Runtime.

(** ** Lines *)

Definition lineFeed : string := String Js.LF EmptyString.
Definition carriageReturn : string := String Js.CR EmptyString.

(** A carriage return at the end of a line is trimmed away. *)
Lemma trimEnd_carriageReturn (s : string) : Js.trimEnd (s ++ carriageReturn) = Js.trimEnd s.
Proof.
  induction s as [|c s IH]; [reflexivity|].
  rewrite AcpProjectorFacts.append_cons. cbn [Js.trimEnd]. now rewrite IH.
Qed.

Lemma trimStart_blank (s t : string) :
  Js.trimStart s = "" -> Js.trimStart (s ++ t) = Js.trimStart t.
Proof.
  induction s as [|c s IH]; [reflexivity|].
  rewrite AcpProjectorFacts.append_cons. cbn [Js.trimStart].
  destruct (Js.isWhiteSpace c); [exact IH | discriminate].
Qed.

Lemma trimStart_kept (s t : string) :
  Js.trimStart s <> "" -> Js.trimStart (s ++ t) = Js.trimStart s ++ t.
Proof.
  induction s as [|c s IH]; [now intros []|].
  rewrite AcpProjectorFacts.append_cons. cbn [Js.trimStart].
  destruct (Js.isWhiteSpace c); [exact IH | now rewrite AcpProjectorFacts.append_cons].
Qed.

Lemma trim_carriageReturn (s : string) : Js.trim (s ++ carriageReturn) = Js.trim s.
Proof.
  unfold Js.trim. destruct (string_dec (Js.trimStart s) "") as [Hblank|Hkept].
  - rewrite trimStart_blank by assumption. now rewrite Hblank.
  - rewrite trimStart_kept by assumption. apply trimEnd_carriageReturn.
Qed.

(** The lines of a text: all but the last, and the last. *)
Lemma splitLines_last (s : string) :
  exists (init : list string) (last : string), Js.splitLines s = (init ++ [last])%list.
Proof.
  assert (Hstrong : forall s : string,
             (exists (init : list string) (last : string),
                 Js.splitLines s = (init ++ [last])%list)
             /\ forall (c : ascii) (r : string), s = String c r ->
                  exists (init : list string) (last : string),
                    Js.splitLines r = (init ++ [last])%list).
  { clear s. induction s as [|c r [IHr IHtail]].
    - split; [now exists [], "" | discriminate].
    - split; [|intros c0 r0 [= _ <-]; exact IHr].
      cbn [Js.splitLines].
      destruct (Ascii.eqb c Js.LF).
      + destruct IHr as (init & last & ->). now exists ("" :: init), last.
      + assert (Hcons : exists (init : list string) (last : string),
                   Js.consHead c (Js.splitLines r) = (init ++ [last])%list).
        { destruct IHr as (init & last & ->).
          destruct init as [|first init]; [now exists [], (String c last)|].
          now exists (String c first :: init), last. }
        destruct r as [|c' r']; [exact Hcons|].
        destruct (Ascii.eqb c Js.CR && Ascii.eqb c' Js.LF); [|exact Hcons].
        destruct (IHtail c' r' eq_refl) as (init & last & ->).
        now exists ("" :: init), last. }
  apply Hstrong.
Qed.


(** A line feed after [a]: the last line of [a] ends there, without the
    carriage return that it may end with. *)
Lemma splitLines_lineFeed (a b : string) :
  exists (init : list string) (last last' : string),
    Js.splitLines a = (init ++ [last])%list
    /\ Js.splitLines (a ++ String Js.LF b) = (init ++ last' :: Js.splitLines b)%list
    /\ (last = last' \/ last = last' ++ carriageReturn).
Proof.
  assert (Hstrong : forall a : string,
             (exists (init : list string) (last last' : string),
                 Js.splitLines a = (init ++ [last])%list
                 /\ Js.splitLines (a ++ String Js.LF b)
                    = (init ++ last' :: Js.splitLines b)%list
                 /\ (last = last' \/ last = last' ++ carriageReturn))
             /\ forall (c : ascii) (r : string), a = String c r ->
                  exists (init : list string) (last last' : string),
                    Js.splitLines r = (init ++ [last])%list
                    /\ Js.splitLines (r ++ String Js.LF b)
                       = (init ++ last' :: Js.splitLines b)%list
                    /\ (last = last' \/ last = last' ++ carriageReturn)).
  { clear a. induction a as [|c r [IHr IHtail]].
    - split; [|discriminate]. exists [], "", "".
      split; [reflexivity|]. split; [reflexivity | now left].
    - split; [|intros c0 r0 [= _ <-]; exact IHr].
      rewrite AcpProjectorFacts.append_cons. cbn [Js.splitLines].
      destruct (Ascii.eqb c Js.LF) eqn:Hlf.
      + destruct IHr as (init & last & last' & -> & -> & Hlast).
        now exists ("" :: init), last, last'.
      + assert (Hcons : exists (init : list string) (last last' : string),
                   Js.consHead c (Js.splitLines r) = (init ++ [last])%list
                   /\ Js.consHead c (Js.splitLines (r ++ String Js.LF b))
                      = (init ++ last' :: Js.splitLines b)%list
                   /\ (last = last' \/ last = last' ++ carriageReturn)).
        { destruct IHr as (init & last & last' & -> & -> & Hlast).
          destruct init as [|first init].
          - exists [], (String c last), (String c last').
            split; [reflexivity|]. split; [reflexivity|].
            destruct Hlast as [-> | ->]; [now left | now right].
          - now exists (String c first :: init), last, last'. }
        destruct r as [|c' r'].
        * change ("" ++ String Js.LF b) with (String Js.LF b). cbv beta iota.
          change (Ascii.eqb Js.LF Js.LF) with true. rewrite andb_true_r.
          destruct (Ascii.eqb_spec c Js.CR) as [->|Hcr].
          -- exists [], carriageReturn, "".
             split; [reflexivity|]. split; [reflexivity | now right].
          -- exists [], (String c ""), (String c "").
             split; [reflexivity|]. split; [|now left].
             cbn [Js.splitLines]. now change (Ascii.eqb Js.LF Js.LF) with true.
        * rewrite AcpProjectorFacts.append_cons.
          destruct (Ascii.eqb c Js.CR && Ascii.eqb c' Js.LF);
            [|rewrite <- AcpProjectorFacts.append_cons; exact Hcons].
          destruct (IHtail c' r' eq_refl) as (init & last & last' & -> & -> & Hlast).
          now exists ("" :: init), last, last'. }
  apply Hstrong.
Qed.

(** A carriage return after [a] stays in the last line of [a]. *)
Lemma splitLines_carriageReturn (a : string) :
  exists (init : list string) (last : string),
    Js.splitLines a = (init ++ [last])%list
    /\ Js.splitLines (a ++ carriageReturn) = (init ++ [(last ++ carriageReturn)%string])%list.
Proof.
  assert (Hstrong : forall a : string,
             (exists (init : list string) (last : string),
                 Js.splitLines a = (init ++ [last])%list
                 /\ Js.splitLines (a ++ carriageReturn)
                    = (init ++ [(last ++ carriageReturn)%string])%list)
             /\ forall (c : ascii) (r : string), a = String c r ->
                  exists (init : list string) (last : string),
                    Js.splitLines r = (init ++ [last])%list
                    /\ Js.splitLines (r ++ carriageReturn)
                       = (init ++ [(last ++ carriageReturn)%string])%list).
  { clear a. induction a as [|c r [IHr IHtail]].
    - split; [|discriminate]. now exists [], "".
    - split; [|intros c0 r0 [= _ <-]; exact IHr].
      rewrite AcpProjectorFacts.append_cons. cbn [Js.splitLines].
      destruct (Ascii.eqb c Js.LF) eqn:Hlf.
      + destruct IHr as (init & last & -> & ->). now exists ("" :: init), last.
      + assert (Hcons : exists (init : list string) (last : string),
                   Js.consHead c (Js.splitLines r) = (init ++ [last])%list
                   /\ Js.consHead c (Js.splitLines (r ++ carriageReturn))
                      = (init ++ [(last ++ carriageReturn)%string])%list).
        { destruct IHr as (init & last & -> & ->).
          destruct init as [|first init]; [now exists [], (String c last)|].
          now exists (String c first :: init), last. }
        destruct r as [|c' r'].
        * change ("" ++ carriageReturn) with (String Js.CR ""). cbv beta iota.
          change (Ascii.eqb Js.CR Js.LF) with false. rewrite andb_false_r.
          now exists [], (String c "").
        * rewrite AcpProjectorFacts.append_cons.
          destruct (Ascii.eqb c Js.CR && Ascii.eqb c' Js.LF);
            [|rewrite <- AcpProjectorFacts.append_cons; exact Hcons].
          destruct (IHtail c' r' eq_refl) as (init & last & -> & ->).
          now exists ("" :: init), last. }
  apply Hstrong.
Qed.

(** Whether a text holds a line feed. *)
Fixpoint hasLineFeed (s : string) : bool :=
  match s with
  | String c r => Ascii.eqb c Js.LF || hasLineFeed r
  | EmptyString => false
  end.

Lemma splitLines_one (line : string) : hasLineFeed line = false -> Js.splitLines line = [line].
Proof.
  assert (Hstrong : forall s : string,
             (hasLineFeed s = false -> Js.splitLines s = [s])
             /\ forall (c : ascii) (r : string), s = String c r ->
                  hasLineFeed r = false -> Js.splitLines r = [r]).
  { induction s as [|c r [IHr IHtail]].
    - split; [reflexivity | discriminate].
    - split; [|intros c0 r0 [= _ <-]; exact IHr].
      cbn [hasLineFeed Js.splitLines]. intros Hnone.
      apply orb_false_elim in Hnone as [Hc Hr]. rewrite Hc.
      destruct r as [|c' r']; [reflexivity|].
      cbn [hasLineFeed] in Hr. apply orb_false_elim in Hr as [Hc' Hr'].
      rewrite Hc', andb_false_r. rewrite IHr; [reflexivity|].
      cbn [hasLineFeed]. now rewrite Hc', Hr'. }
  apply Hstrong.
Qed.

Section Batch.

Variable JSON_parse : string -> option Json.

Local Abbreviation parseJsonLines := (Events.parseJsonLines JSON_parse).
Local Abbreviation lineRecords := (Events.lineRecords JSON_parse).

Lemma lineRecords_carriageReturn (line : string) :
  lineRecords (line ++ carriageReturn) = lineRecords line.
Proof. unfold Events.lineRecords. now rewrite trim_carriageReturn. Qed.

Lemma parseJsonLines_carriageReturn (a : string) :
  parseJsonLines (a ++ carriageReturn) = parseJsonLines a.
Proof.
  unfold Events.parseJsonLines.
  destruct (splitLines_carriageReturn a) as (init & last & -> & ->).
  rewrite !flat_map_app. cbn [flat_map]. now rewrite lineRecords_carriageReturn.
Qed.

(** X1: [parseJsonLines] works line by line.  The records of two texts
    joined by a line break, LF or CR LF, are the records of the first
    followed by those of the second; a text without a line feed gives the
    record that its trimmed text decodes to, and nothing when it is blank,
    malformed or decodes to something that is no record. *)
Theorem parseJsonLines_by_line :
  (forall a b : string,
      parseJsonLines (a ++ lineFeed ++ b) = (parseJsonLines a ++ parseJsonLines b)%list)
  /\ (forall a b : string,
        parseJsonLines (a ++ carriageReturn ++ lineFeed ++ b)
        = (parseJsonLines a ++ parseJsonLines b)%list)
  /\ (forall line : string,
        hasLineFeed line = false ->
        parseJsonLines line
        = match JSON_parse (Js.trim line) with
          | Some (JObject record) => if Js.nonEmpty (Js.trim line) then [record] else []
          | _ => []
          end).
Proof.
  assert (Hfeed : forall a b : string,
             parseJsonLines (a ++ lineFeed ++ b)
             = (parseJsonLines a ++ parseJsonLines b)%list).
  { intros a b. unfold Events.parseJsonLines.
    change (lineFeed ++ b) with (String Js.LF b).
    destruct (splitLines_lineFeed a b) as (init & last & last' & -> & -> & Hlast).
    rewrite !flat_map_app. cbn [flat_map]. rewrite app_nil_r, <- app_assoc. f_equal. f_equal.
    destruct Hlast as [-> | ->]; [reflexivity | now rewrite lineRecords_carriageReturn]. }
  split; [exact Hfeed|]. split.
  - intros a b. rewrite <- AcpProjectorFacts.append_assoc, Hfeed. now rewrite parseJsonLines_carriageReturn.
  - intros line Hnone. unfold Events.parseJsonLines. rewrite (splitLines_one line Hnone).
    cbn [flat_map]. rewrite app_nil_r. unfold Events.lineRecords, asRecord.
    destruct (Js.nonEmpty (Js.trim line)); cbn [negb].
    + now destruct (JSON_parse (Js.trim line)) as [[| | | | |]|].
    + now destruct (JSON_parse (Js.trim line)) as [[| | | | |]|].
Qed.

End Batch.

Example parseJsonLines_skips_blank_and_malformed :
  Events.parseJsonLines decode
    (dq "{'a':1}" ++ carriageReturn ++ lineFeed ++ "   " ++ lineFeed ++ "not json" ++ lineFeed
     ++ "[1,2]" ++ lineFeed ++ dq "  {'b':'x'}  ")
  = [[("a", JNumber 1)]; [("b", JString "x")]].
Proof. vm_compute. reflexivity. Qed.


(** ** The text of an event *)

(** The text that an event carries: [text], [stopReason] or [message]. *)
Definition eventText (event : AcpRuntimeEvent) : string :=
  match event with
  | EvTextDelta text _ _ => text
  | EvToolCall text _ _ _ _ => text
  | EvStatus text _ _ _ => text
  | EvDone stopReason => stopReason
  | EvError message _ => message
  end.

(** [done] and [error] answer a prompt. *)
Definition isResponseEvent (event : option AcpRuntimeEvent) : bool :=
  match event with
  | Some (EvDone _) | Some (EvError _ _) => true
  | _ => false
  end.

Lemma nonEmpty_append (a b : string) : Js.nonEmpty a = true -> Js.nonEmpty (a ++ b) = true.
Proof. now destruct a. Qed.

Lemma nonEmpty_orElse (a b : string) : Js.nonEmpty b = true -> Js.nonEmpty (Js.orElse a b) = true.
Proof. intros Hb. unfold Js.orElse. now destruct (Js.nonEmpty a) eqn:Ha. Qed.

Lemma planText_nonEmpty (update : Obj) : Js.nonEmpty (Events.planText update) = true.
Proof.
  unfold Events.planText. cbv zeta.
  destruct (negb (Js.nonEmpty _)); [reflexivity|].
  destruct (Js.nonEmpty (asTrimmedString (propOpt _ "status"))); reflexivity.
Qed.

Lemma textChunk_event (update : Obj) (stream : Stream) (event : AcpRuntimeEvent) :
  Events.textChunk update stream = Some event ->
  Js.nonEmpty (eventText event) = true /\ isResponseEvent (Some event) = false.
Proof.
  unfold Events.textChunk.
  destruct (asRecord _) as [content|]; [|discriminate].
  destruct (negb _); [discriminate|].
  destruct (asString _) as [text|]; [|discriminate].
  destruct (Js.nonEmpty text) eqn:Hne; [|discriminate].
  intros [= <-]. now split.
Qed.

(** A session update of the first revision: its event has a text and
    answers no prompt. *)
Lemma update_event (message : Obj) (event : AcpRuntimeEvent) :
  Events.parseSessionUpdateEvent message = Some event ->
  Js.nonEmpty (eventText event) = true /\ isResponseEvent (Some event) = false.
Proof.
  unfold Events.parseSessionUpdateEvent, Events.statusOnly.
  destruct (negb _); [discriminate|].
  destruct (asRecord _) as [params|]; [|discriminate].
  destruct (asRecord _) as [update|]; [|discriminate].
  cbv zeta.
  destruct (String.eqb _ "agent_message_chunk"); [apply textChunk_event|].
  destruct (String.eqb _ "agent_thought_chunk"); [apply textChunk_event|].
  destruct (String.eqb _ "tool_call" || String.eqb _ "tool_call_update").
  { intros [= <-]. split; [|reflexivity]. cbn [eventText].
    assert (Htitle : forall a b c : string,
               Js.nonEmpty (Js.orElse a (Js.orElse b (Js.orElse c "tool"))) = true)
      by (intros; now repeat apply nonEmpty_orElse).
    destruct (Js.nonEmpty (asTrimmedString (prop update "status")));
      [apply nonEmpty_append|]; apply Htitle. }
  destruct (String.eqb _ "plan");
    [intros [= <-]; split; [apply planText_nonEmpty | reflexivity]|].
  destruct (String.eqb _ "available_commands_update");
    [intros [= <-]; split; reflexivity|].
  destruct (String.eqb _ "current_mode_update");
    [intros [= <-]; split; [|reflexivity]; cbn [eventText];
     destruct (Js.nonEmpty (asTrimmedString _)); reflexivity|].
  destruct (String.eqb _ "config_option_update");
    [intros [= <-]; split; reflexivity|].
  destruct (String.eqb _ "session_info_update");
    [intros [= <-]; split; [|reflexivity]; cbn [eventText];
     destruct (Js.nonEmpty (asTrimmedString _)); reflexivity|].
  destruct (String.eqb _ "usage_update"); [|discriminate].
  destruct (Events.finiteNumber _) as [used|]; [|intros [= <-]; split; reflexivity].
  destruct (Events.finiteNumber _) as [size|]; intros [= <-]; split; reflexivity.
Qed.

Lemma stopReason_nonEmpty (message : Obj) (stopReason : string) :
  Events.parsePromptStopReason message = Some stopReason ->
  Js.nonEmpty stopReason = true /\ Js.nonEmpty (Js.trim stopReason) = true.
Proof.
  unfold Events.parsePromptStopReason.
  destruct (negb _); [discriminate|].
  destruct (asRecord _) as [result|]; [|discriminate].
  destruct (asString _) as [s|]; [|discriminate].
  destruct (Js.nonEmpty s) eqn:Hne; cbn [andb]; [|discriminate].
  destruct (Z.ltb_spec 0 (Js.len (Js.trim s))) as [Hpos|]; [|discriminate].
  intros [= <-]. split; [exact Hne|].
  destruct (Js.trim s); [discriminate Hpos | reflexivity].
Qed.

Lemma errorEvent_nonEmpty (message : Obj) :
  Js.nonEmpty (eventText (Events.errorEvent message)) = true.
Proof. unfold Events.errorEvent. cbn [eventText]. now apply nonEmpty_orElse. Qed.

Section Projector.

Variable JSON_parse : string -> option Json.
Variable isAcpJsonRpcMessage : Obj -> bool.
Variable normalizeJsonRpcId : option Json -> option string.

Local Abbreviation ingestLine :=
  (Events.ingestLine JSON_parse isAcpJsonRpcMessage normalizeJsonRpcId).
Local Abbreviation ingestLines :=
  (Events.ingestLines JSON_parse isAcpJsonRpcMessage normalizeJsonRpcId).
Local Abbreviation ingestParsed :=
  (Events.ingestParsed isAcpJsonRpcMessage normalizeJsonRpcId).

(** X2: every event that [ingestLine] returns carries a text that is not
    empty: the text of a delta, a tool call or a status, the message of an
    error, and a stop reason that is not blank. *)
Theorem ingestLine_event_has_text (line : string) (ids : gset string) :
  match fst (ingestLine line ids) with
  | Some event =>
      Js.nonEmpty (eventText event) = true
      /\ match event with
         | EvDone stopReason => Js.nonEmpty (Js.trim stopReason) = true
         | _ => True
         end
  | None => True
  end.
Proof.
  unfold Events.ingestLine. cbv zeta.
  destruct (Js.nonEmpty (Js.trim line)) eqn:Hne; cbn [negb]; [|exact I].
  destruct (JSON_parse (Js.trim line)) as [parsed|]; [|now split].
  unfold Events.ingestParsed.
  destruct (asRecord (Some parsed)) as [message|]; [|exact I].
  destruct (negb (isAcpJsonRpcMessage message)); [exact I|].
  destruct (Events.parseSessionUpdateEvent message) as [event|] eqn:Hupdate.
  { destruct (update_event _ _ Hupdate) as [Htext Hkind]. cbn [fst].
    split; [exact Htext|]. now destruct event. }
  destruct (String.eqb _ "session/prompt"); [now destruct (normalizeJsonRpcId _)|].
  destruct (hasOwn message "error").
  - destruct (negb _); [exact I|]. cbn [fst].
    split; [apply errorEvent_nonEmpty | exact I].
  - destruct (Events.parsePromptStopReason message) as [stopReason|] eqn:Hstop; [|exact I].
    destruct (negb _); [exact I|]. cbn [fst]. now apply stopReason_nonEmpty in Hstop.
Qed.

(** X3: a line makes the first projector return an event or record a prompt
    id, never both, and it removes nothing: over any lines the recorded ids
    only grow. *)
Theorem ingestLine_event_or_id (line : string) (ids : gset string) :
  (snd (ingestLine line ids) = ids
   \/ fst (ingestLine line ids) = None
      /\ exists id : string, id <> "" /\ snd (ingestLine line ids) = {[id]} ∪ ids)
  /\ forall lines : list string, ids ⊆ snd (ingestLines lines ids).
Proof.
  assert (Hstep : forall (line : string) (ids : gset string),
             snd (ingestLine line ids) = ids
             \/ fst (ingestLine line ids) = None
                /\ exists id : string, id <> "" /\ snd (ingestLine line ids) = {[id]} ∪ ids).
  { clear line ids. intros line ids. unfold Events.ingestLine. cbv zeta.
    destruct (negb _); [now left|].
    destruct (JSON_parse (Js.trim line)) as [parsed|]; [|now left].
    unfold Events.ingestParsed.
    destruct (asRecord (Some parsed)) as [message|]; [|now left].
    destruct (negb (isAcpJsonRpcMessage message)); [now left|].
    destruct (Events.parseSessionUpdateEvent message); [now left|].
    destruct (String.eqb _ "session/prompt").
    - destruct (normalizeJsonRpcId _) as [id|]; [|now left]. cbn [fst snd].
      destruct (Js.nonEmpty id) eqn:Hid; [|now left].
      right. split; [reflexivity|]. exists id. split; [|reflexivity].
      now apply JsFacts.nonEmpty_true.
    - destruct (hasOwn message "error").
      + now destruct (negb _); left.
      + destruct (Events.parsePromptStopReason message); [|now left].
        now destruct (negb _); left. }
  split; [apply Hstep|].
  intros lines. revert ids. induction lines as [|first rest IH]; intros ids; [set_solver|].
  cbn [Events.ingestLines].
  pose proof (Hstep first ids) as Hfirst.
  destruct (ingestLine first ids) as [event ids1]. cbn [fst snd] in Hfirst.
  specialize (IH ids1). destruct (ingestLines rest ids1) as [events ids2].
  cbn [snd] in *. destruct Hfirst as [-> | (_ & id & _ & ->)]; set_solver.
Qed.

End Projector.

(** ** The projector that consumes prompt ids *)

Lemma gated_textChunk_event (update : Obj) (stream : Stream) (tag : string)
    (event : AcpRuntimeEvent) :
  EventsGated.resolveTextChunk update stream tag = Some event ->
  isResponseEvent (Some event) = false.
Proof.
  unfold EventsGated.resolveTextChunk. cbv zeta.
  assert (Hfallback : match asString (prop update "text") with
                      | Some text =>
                          if Js.nonEmpty text
                          then Some (EvTextDelta text (Some stream) (Some tag)) else None
                      | None => None
                      end = Some event -> isResponseEvent (Some event) = false).
  { destruct (asString (prop update "text")) as [text|]; [|discriminate].
    destruct (Js.nonEmpty text); [now intros [= <-] | discriminate]. }
  destruct (asRecord _) as [content|]; [|exact Hfallback].
  destruct (_ && negb _); [discriminate|].
  destruct (asString (prop content "text")) as [text|]; [|exact Hfallback].
  destruct (_ && _); [now intros [= <-] | exact Hfallback].
Qed.

(** A session update of the second revision answers no prompt. *)
Lemma gated_update_event (message : Obj) (event : AcpRuntimeEvent) :
  EventsGated.parseSessionUpdateEvent message = Some event ->
  isResponseEvent (Some event) = false.
Proof.
  unfold EventsGated.parseSessionUpdateEvent.
  destruct (negb _); [discriminate|].
  destruct (asRecord _) as [params|]; [|discriminate].
  destruct (asRecord _) as [update|]; [|discriminate].
  destruct (asOptionalString _) as [tag|]; [|discriminate].
  destruct (String.eqb tag "agent_message_chunk"); [apply gated_textChunk_event|].
  destruct (String.eqb tag "agent_thought_chunk"); [apply gated_textChunk_event|].
  destruct (String.eqb tag "tool_call" || String.eqb tag "tool_call_update");
    [now intros [= <-]|].
  destruct (String.eqb tag "usage_update"); [now intros [= <-]|].
  destruct (_ || _); [|discriminate].
  destruct (EventsGated.resolveStatusTextForTag tag update) as [text|]; [|discriminate].
  destruct (Js.nonEmpty text); [now intros [= <-] | discriminate].
Qed.

Section Gated.

Variable JSON_parse : string -> option Json.
Variable isAcpJsonRpcMessage : Obj -> bool.
Variable normalizeJsonRpcId : option Json -> option string.

Local Abbreviation ingestLine :=
  (EventsGated.ingestLine JSON_parse isAcpJsonRpcMessage normalizeJsonRpcId).

(** The lines of a stream, fed one after the other to one projector. *)
Fixpoint ingestLinesGated (lines : list string) (promptRequestIds : gset string)
  : list (option AcpRuntimeEvent) * gset string :=
  match lines with
  | [] => ([], promptRequestIds)
  | line :: rest =>
      let '(event, ids) := ingestLine line promptRequestIds in
      let '(events, ids') := ingestLinesGated rest ids in
      (event :: events, ids')
  end.

(** A line that decodes to a mapping with the method [session/prompt]. *)
Definition isPromptRequest (line : string) : bool :=
  match JSON_parse (Js.trim line) with
  | Some (JObject message) =>
      String.eqb (asTrimmedString (prop message "method")) "session/prompt"
  | _ => false
  end.

(** The number of [done] and [error] events. *)
Definition responses (events : list (option AcpRuntimeEvent)) : Z :=
  Z.of_nat (List.length (List.filter isResponseEvent events)).

(** The number of [session/prompt] requests among the lines. *)
Definition promptRequests (lines : list string) : Z :=
  Z.of_nat (List.length (List.filter isPromptRequest lines)).

Lemma consumePromptResponse_size (ids : gset string) (message : Obj) :
  let r := EventsGated.consumePromptResponse normalizeJsonRpcId ids message in
  Z.of_nat (size (snd r)) = Z.of_nat (size ids) - Z.b2z (fst r).
Proof.
  cbv zeta. unfold EventsGated.consumePromptResponse.
  destruct (normalizeJsonRpcId _) as [id|]; [|cbn; lia].
  destruct (negb (Js.nonEmpty id)); [cbn; lia|].
  destruct (decide (id ∈ ids)) as [Hin|Hout].
  - rewrite (bool_decide_eq_true_2 _ Hin). cbn [negb fst snd Z.b2z].
    rewrite size_difference by set_solver. rewrite size_singleton.
    assert (size ids <> 0%nat) by (intros Hz; apply size_empty_inv in Hz; set_solver).
    lia.
  - rewrite (bool_decide_eq_false_2 _ Hout). cbn. lia.
Qed.

(** One line: a response that is returned takes one id away, and only a
    prompt request adds one. *)
Lemma gated_step (line : string) (ids : gset string) :
  let r := ingestLine line ids in
  Z.b2z (isResponseEvent (fst r)) + Z.of_nat (size (snd r))
  <= Z.of_nat (size ids) + Z.b2z (isPromptRequest line).
Proof.
  cbv zeta. unfold EventsGated.ingestLine, isPromptRequest. cbv zeta.
  destruct (negb _); [cbn; destruct (JSON_parse _) as [[| | | | |m]|]; cbn; try lia;
                      destruct (String.eqb _ _); cbn; lia|].
  destruct (JSON_parse (Js.trim line)) as [parsed|]; [|cbn; lia].
  unfold EventsGated.ingestParsed.
  destruct parsed as [| | | | |message]; cbn [asRecord fst snd isResponseEvent Z.b2z]; try lia.
  destruct (negb (isAcpJsonRpcMessage message));
    [cbn; destruct (String.eqb _ _); cbn; lia|].
  destruct (String.eqb _ "session/prompt").
  - destruct (normalizeJsonRpcId _) as [id|]; cbn [fst snd isResponseEvent Z.b2z]; [|lia].
    destruct (Js.nonEmpty id); [|lia].
    pose proof (size_union_alt ({[id]} : gset string) ids) as Hunion.
    rewrite size_singleton in Hunion.
    assert (Hless : (size (ids ∖ {[id]}) <= size ids)%nat).
    { apply subseteq_size. apply subseteq_difference_l. reflexivity. }
    lia.
  - cbn [Z.b2z]. rewrite Z.add_0_r.
    destruct (EventsGated.parseSessionUpdateEvent message) as [event|] eqn:Hupdate.
    { apply gated_update_event in Hupdate. cbn [fst snd].
      destruct (0 <? Z.of_nat (size ids))%Z; [rewrite Hupdate|];
        cbn [isResponseEvent Z.b2z]; lia. }
    pose proof (consumePromptResponse_size ids message) as Hsize. cbv zeta in Hsize.
    destruct (hasOwn message "error").
    + unfold Events.errorEvent.
      destruct (EventsGated.consumePromptResponse _ ids message) as [[|] ids1];
        cbn [negb fst snd isResponseEvent Z.b2z] in *; lia.
    + destruct (EventsGated.parsePromptStopReason message);
        [|cbn [fst snd isResponseEvent Z.b2z]; lia].
      destruct (EventsGated.consumePromptResponse _ ids message) as [[|] ids1];
        cbn [negb fst snd isResponseEvent Z.b2z] in *; lia.
Qed.

(** X4: the second projector returns at most one [done] or [error] event
    for each awaited prompt: over any lines, the responses returned and the
    ids still awaited are together no more than the ids awaited before and
    the prompt requests among the lines. *)
Theorem gated_responses_bounded_by_prompts (lines : list string) (ids : gset string) :
  let r := ingestLinesGated lines ids in
  responses (fst r) + Z.of_nat (size (snd r)) <= Z.of_nat (size ids) + promptRequests lines
  /\ (ids = ∅ -> responses (fst r) <= promptRequests lines).
Proof.
  cbv zeta.
  assert (Hrun : forall (lines : list string) (ids : gset string),
             responses (fst (ingestLinesGated lines ids))
             + Z.of_nat (size (snd (ingestLinesGated lines ids)))
             <= Z.of_nat (size ids) + promptRequests lines).
  { clear lines ids. induction lines as [|line rest IH]; intros ids.
    - cbn [ingestLinesGated fst snd]. unfold responses, promptRequests.
      cbn [List.filter List.length]. lia.
    - cbn [ingestLinesGated]. pose proof (gated_step line ids) as Hstep. cbv zeta in Hstep.
      destruct (ingestLine line ids) as [event ids1]. cbn [fst snd] in Hstep.
      specialize (IH ids1). destruct (ingestLinesGated rest ids1) as [events ids2].
      cbn [fst snd] in *. unfold responses, promptRequests in *. cbn [List.filter].
      destruct (isResponseEvent event), (isPromptRequest line);
        cbn [List.length Z.b2z] in *; lia. }
  split; [apply Hrun|].
  intros ->. specialize (Hrun lines ∅). rewrite size_empty in Hrun. lia.
Qed.

(** X5: while no prompt is awaited, the second projector returns nothing for
    a line that decodes: no session update, no [done] and no [error]; the raw
    text of a malformed line is all that it lets through. *)
Theorem gated_quiet_without_prompt (line : string) :
  match JSON_parse (Js.trim line) with
  | Some _ => fst (ingestLine line ∅) = None
  | None =>
      fst (ingestLine line ∅)
      = if Js.nonEmpty (Js.trim line) then Some (EvStatus (Js.trim line) None None None)
        else None
  end.
Proof.
  unfold EventsGated.ingestLine. cbv zeta.
  destruct (JSON_parse (Js.trim line)) as [parsed|];
    [|now destruct (Js.nonEmpty (Js.trim line))].
  destruct (negb _); [reflexivity|].
  unfold EventsGated.ingestParsed.
  destruct (asRecord (Some parsed)) as [message|]; [|reflexivity].
  destruct (negb (isAcpJsonRpcMessage message)); [reflexivity|].
  destruct (String.eqb _ "session/prompt"); [now destruct (normalizeJsonRpcId _)|].
  destruct (EventsGated.parseSessionUpdateEvent message); [reflexivity|].
  assert (Hnone : fst (EventsGated.consumePromptResponse normalizeJsonRpcId ∅ message) = false).
  { unfold EventsGated.consumePromptResponse.
    destruct (normalizeJsonRpcId _) as [id|]; [|reflexivity].
    destruct (negb (Js.nonEmpty id)); [reflexivity|].
    rewrite bool_decide_eq_false_2 by set_solver. reflexivity. }
  destruct (hasOwn message "error").
  - destruct (EventsGated.consumePromptResponse _ ∅ message) as [handled ids1].
    cbn [fst] in Hnone. now rewrite Hnone.
  - destruct (EventsGated.parsePromptStopReason message); [|reflexivity].
    destruct (EventsGated.consumePromptResponse _ ∅ message) as [handled ids1].
    cbn [fst] in Hnone. now rewrite Hnone.
Qed.

End Gated.

(** A response that comes twice: the first projector returns it twice, the
    second once. *)
Example response_twice :
  fst (Events.ingestLines decode Events.isAcpJsonRpcMessage Events.normalizeJsonRpcId
         [EventsFacts.promptLine; EventsFacts.doneLine; EventsFacts.doneLine] ∅)
  = [None; Some (EvDone "end_turn"); Some (EvDone "end_turn")]
  /\ fst (ingestLinesGated decode Events.isAcpJsonRpcMessage Events.normalizeJsonRpcId
            [EventsFacts.promptLine; EventsFacts.doneLine; EventsFacts.doneLine] ∅)
     = [None; Some (EvDone "end_turn"); None]
  /\ promptRequests decode
       [EventsFacts.promptLine; EventsFacts.doneLine; EventsFacts.doneLine] = 1.
Proof. repeat split; vm_compute; reflexivity. Qed.

End EventsInvariants.
(* ===================================================================== *)
(** * More on the reply projection pipeline                               *)
(* ===================================================================== *)

Module PipelineInvariants.
Import Runtime AcpProjector AcpProjectorFacts.

(** [done] and [error] end a turn. *)
Definition isBoundary (event : AcpRuntimeEvent) : bool :=
  match event with EvDone _ | EvError _ _ => true | _ => false end.

(** The events of one turn: none of them ends it. *)
Definition withinTurn (events : list AcpRuntimeEvent) : Prop :=
  Forall (fun event => isBoundary event = false) events.

(** The number of [deliver("tool", ...)] calls among the effects. *)
Definition delivered (effects : list Effect) : Z :=
  Z.of_nat (List.length (toolDeliveries effects)).

(** A call of the chunker's [drain] or of the pipeline's [flush]. *)
Definition isDrainOrFlush (effect : Effect) : bool :=
  match effect with ChunkerDrain _ | PipelineFlush _ => true | _ => false end.

Lemma delivered_app (a b : list Effect) : delivered (a ++ b) = delivered a + delivered b.
Proof. unfold delivered. rewrite toolDeliveries_app, length_app. lia. Qed.

Lemma delivered_nil : delivered [] = 0.
Proof. reflexivity. Qed.

(** ** [truncateText] *)

Lemma truncateText_length (input : string) (maxChars : Z) :
  0 <= maxChars -> Js.len (truncateText input maxChars) = Z.min (Js.len input) maxChars.
Proof.
  intros Hmax. unfold truncateText.
  destruct (Z.leb_spec (Js.len input) maxChars) as [Hfits|Hcut]; [lia|].
  destruct (Z.leb_spec maxChars 1).
  - rewrite slice0_len by assumption. lia.
  - rewrite len_append, slice0_len by lia. change (Js.len ellipsis) with 1. lia.
Qed.

(** X6: a text that fits is returned as it is, a longer one is cut to exactly
    [maxChars] code units; from two code units on, the cut text is the first
    [maxChars - 1] code units of the input followed by the ellipsis. *)
Theorem truncateText_bounded (input : string) (maxChars : Z) :
  0 <= maxChars ->
  Js.len (truncateText input maxChars) = Z.min (Js.len input) maxChars
  /\ (truncateText input maxChars = input <-> Js.len input <= maxChars)
  /\ (maxChars < Js.len input -> 2 <= maxChars ->
      exists kept : string,
        truncateText input maxChars = kept ++ ellipsis
        /\ Js.len kept = maxChars - 1
        /\ String.prefix kept input = true).
Proof.
  intros Hmax. split; [now apply truncateText_length|]. split.
  - split; [|apply truncateText_short].
    intros Heq. pose proof (truncateText_length input maxChars Hmax) as Hlen.
    rewrite Heq in Hlen. lia.
  - intros Hcut Htwo. exists (Js.slice0 input (maxChars - 1)).
    split; [|split].
    + unfold truncateText.
      destruct (Z.leb_spec (Js.len input) maxChars); [lia|].
      destruct (Z.leb_spec maxChars 1); [lia | reflexivity].
    + rewrite slice0_len by lia. lia.
    + rewrite slice0_nonneg by lia. generalize (Z.to_nat (maxChars - 1)).
      clear. induction input as [|c input IH]; intros [|n]; try reflexivity.
      simpl. rewrite IH. now destruct (ascii_dec c c).
Qed.

Lemma truncateText_bounded_witness :
  Js.len (truncateText "reading the file" 8) = Z.min (Js.len "reading the file") 8
  /\ (truncateText "reading the file" 8 = "reading the file" <-> Js.len "reading the file" <= 8)
  /\ (8 < Js.len "reading the file" -> 2 <= 8 ->
      exists kept : string,
        truncateText "reading the file" 8 = kept ++ ellipsis
        /\ Js.len kept = 8 - 1
        /\ String.prefix kept "reading the file" = true).
Proof. apply (truncateText_bounded "reading the file" 8). lia. Defined.

(** ** Settings *)

(** X7: whatever the configuration holds, the resolved settings lie within
    their bounds. *)
Theorem resolved_settings_within_bounds (cfg : option AcpStreamConfig) :
  let settings := resolveAcpProjectionSettings cfg in
  1 <= maxTurnChars settings <= 500000
  /\ 64 <= maxToolSummaryChars settings <= 8000
  /\ 64 <= maxStatusChars settings <= 8000
  /\ 1 <= maxMetaEventsPerTurn settings <= 2000
  /\ 0 <= resolveAcpStreamCoalesceIdleMs cfg <= 5000
  /\ 50 <= resolveAcpStreamMaxChunkChars cfg <= 4000.
Proof.
  cbv zeta. repeat split; apply clampPositiveInteger_bounds; vm_compute; split; discriminate.
Qed.

Section Pipeline.

Variable prefixSystemMessage : string -> string.
Variable ToolDisplay : Type.
Variable resolveToolDisplay : string -> string -> ToolDisplay.
Variable formatToolSummary : ToolDisplay -> string.
Variable shouldSendToolSummaries : bool.
Variable settings : AcpProjectionSettings.

Local Abbreviation onEvent :=
  (AcpProjector.onEvent prefixSystemMessage ToolDisplay resolveToolDisplay formatToolSummary
     shouldSendToolSummaries settings).
Local Abbreviation onEvents :=
  (AcpProjector.onEvents prefixSystemMessage ToolDisplay resolveToolDisplay formatToolSummary
     shouldSendToolSummaries settings).
Local Abbreviation emitSystemStatus :=
  (AcpProjector.emitSystemStatus prefixSystemMessage shouldSendToolSummaries settings).
Local Abbreviation emitTruncationNotice :=
  (AcpProjector.emitTruncationNotice prefixSystemMessage shouldSendToolSummaries settings).
Local Abbreviation emitToolSummary :=
  (AcpProjector.emitToolSummary ToolDisplay resolveToolDisplay formatToolSummary
     shouldSendToolSummaries settings).

Lemma onEvents_app (a b : list AcpRuntimeEvent) (st : TurnState) :
  onEvents (a ++ b) st
  = (fst (onEvents b (fst (onEvents a st))),
     (snd (onEvents a st) ++ snd (onEvents b (fst (onEvents a st))))%list).
Proof.
  revert st. induction a as [|event a IH]; intros st.
  - cbn [app AcpProjector.onEvents fst snd]. now destruct (onEvents b st).
  - rewrite <- app_comm_cons, !onEvents_cons, IH. cbn [fst snd]. now rewrite app_assoc.
Qed.

(** ** What one call changes *)

Lemma delivered_append (t : string) (force : bool) :
  delivered (ChunkerAppend t :: drainChunker settings force) = 0.
Proof. unfold delivered. now rewrite toolDeliveries_append, drainChunker_no_delivery. Qed.

(** What [emitSystemStatus] leaves alone, and what it counts. *)
Lemma emitSystemStatus_frame (text : string) (meta : option AcpProjectedDeliveryMeta)
    (force dedupe : bool) (st : TurnState) :
  let r := emitSystemStatus text meta force dedupe st in
  emittedTurnChars (fst r) = emittedTurnChars st
  /\ truncationNoticeEmitted (fst r) = truncationNoticeEmitted st
  /\ lastUsageTuple (fst r) = lastUsageTuple st
  /\ appendedText (snd r) = ""
  /\ 0 <= delivered (snd r) <= 1
  /\ emittedMetaEvents (fst r)
     = emittedMetaEvents st + (if force then 0 else delivered (snd r))
  /\ (force = false -> delivered (snd r) = 1 ->
      emittedMetaEvents st < maxMetaEventsPerTurn settings).
Proof.
  cbv zeta. rewrite emitSystemStatus_spec.
  destruct (statusOpen _ _ text force) eqn:Hopen; cbn [andb];
    [|cbn [fst snd]; rewrite delivered_nil; cbn; repeat split; try reflexivity; try lia;
      destruct force; lia].
  destruct (statusFresh _ _ text force dedupe st) eqn:Hfresh;
    [|cbn [fst snd]; rewrite delivered_nil; cbn; repeat split; try reflexivity; try lia;
      destruct force; lia].
  cbn [fst snd]. rewrite appendedText_app, flushIfLive_no_text.
  unfold delivered. rewrite toolDeliveries_app, flushIfLive_no_delivery.
  unfold statusFresh in Hfresh. apply andb_prop in Hfresh as [_ Hquota].
  destruct force; cbn; repeat split; try reflexivity; lia.
Qed.

(** What [emitTruncationNotice] leaves alone: it is forced, so it takes
    nothing from the meta quota. *)
Lemma emitTruncationNotice_frame (st : TurnState) :
  let r := emitTruncationNotice st in
  emittedTurnChars (fst r) = emittedTurnChars st
  /\ emittedMetaEvents (fst r) = emittedMetaEvents st
  /\ truncationNoticeEmitted (fst r) = true
  /\ appendedText (snd r) = ""
  /\ 0 <= delivered (snd r) <= 1 - Z.b2z (truncationNoticeEmitted st).
Proof.
  cbv zeta. unfold AcpProjector.emitTruncationNotice.
  destruct (truncationNoticeEmitted st) eqn:Hflag.
  - cbn. rewrite Hflag. repeat split; try reflexivity; lia.
  - match goal with |- context [AcpProjector.emitSystemStatus _ _ _ ?t ?m true false ?s] =>
      destruct (emitSystemStatus_frame t m true false s) as (He & Hf & _ & Ha & Hd & Hm & _)
    end.
    cbv zeta in He, Hf, Ha, Hd, Hm. cbn [Z.b2z].
    rewrite He, Hf, Ha, Hm. cbn. repeat split; try reflexivity; lia.
Qed.

(** What [emitToolSummary] leaves alone, and what it counts. *)
Lemma emitToolSummary_frame (text : string) (evTag evToolCallId evStatus evTitle : option string)
    (st : TurnState) :
  let r := emitToolSummary text evTag evToolCallId evStatus evTitle false st in
  emittedTurnChars (fst r) = emittedTurnChars st
  /\ truncationNoticeEmitted (fst r) = truncationNoticeEmitted st
  /\ appendedText (snd r) = ""
  /\ 0 <= delivered (snd r) <= 1
  /\ emittedMetaEvents (fst r) = emittedMetaEvents st + delivered (snd r)
  /\ (delivered (snd r) = 1 -> emittedMetaEvents st < maxMetaEventsPerTurn settings).
Proof.
  cbv zeta. unfold AcpProjector.emitToolSummary.
  assert (Hnone : emittedTurnChars st = emittedTurnChars st
                  /\ truncationNoticeEmitted st = truncationNoticeEmitted st
                  /\ appendedText [] = ""
                  /\ 0 <= delivered [] <= 1
                  /\ emittedMetaEvents st = emittedMetaEvents st + delivered []
                  /\ (delivered [] = 1 -> emittedMetaEvents st < maxMetaEventsPerTurn settings)).
  { rewrite delivered_nil. cbn. repeat split; try reflexivity; try lia. }
  destruct (negb shouldSendToolSummaries || _); [exact Hnone|].
  destruct (negb (isTagVisible settings evTag)); [exact Hnone|].
  cbv zeta.
  match goal with |- context [match ?g with Some st1 => _ | None => (st, [])  end] =>
    assert (Hg : g = None
                 \/ exists st1, g = Some st1
                      /\ emittedTurnChars st1 = emittedTurnChars st
                      /\ truncationNoticeEmitted st1 = truncationNoticeEmitted st
                      /\ emittedMetaEvents st1 = emittedMetaEvents st);
    [|destruct Hg as [-> | (st1 & -> & He & Hf & Hm)]; [exact Hnone|]]
  end.
  { destruct (metaMode settings).
    - right. now exists st.
    - destruct (match evToolCallId with Some _ => _ | None => _ end) as [id|].
      + destruct (minimalGuards _ _ _ _) as [state'|]; [|now left].
        right. now eexists.
      + destruct (Js.optEqb _ _); [now left | right; now exists st].
    - destruct (Js.optEqb _ _); [now left | right; now exists st]. }
  unfold consumeMetaQuota.
  destruct (Z.geb_spec (emittedMetaEvents st1) (maxMetaEventsPerTurn settings)) as [Hfull|Hroom].
  - cbn. rewrite He, Hf, Hm. repeat split; try reflexivity; lia.
  - cbn [negb fst snd]. rewrite appendedText_app, flushIfLive_no_text.
    unfold delivered. rewrite toolDeliveries_app, flushIfLive_no_delivery.
    cbn. rewrite He, Hf, Hm. repeat split; try reflexivity; lia.
Qed.

(** One event that does not end the turn. *)
Lemma onEvent_frame (event : AcpRuntimeEvent) (st : TurnState) :
  isBoundary event = false ->
  let r := onEvent event st in
  emittedTurnChars (fst r) = emittedTurnChars st + Js.len (appendedText (snd r))
  /\ (emittedTurnChars st <= maxTurnChars settings ->
      emittedTurnChars (fst r) <= maxTurnChars settings)
  /\ emittedMetaEvents st <= emittedMetaEvents (fst r)
  /\ (emittedMetaEvents st <= maxMetaEventsPerTurn settings ->
      emittedMetaEvents (fst r) <= maxMetaEventsPerTurn settings)
  /\ Z.b2z (truncationNoticeEmitted st) <= Z.b2z (truncationNoticeEmitted (fst r))
  /\ 0 <= delivered (snd r)
     <= emittedMetaEvents (fst r) - emittedMetaEvents st
        + (Z.b2z (truncationNoticeEmitted (fst r)) - Z.b2z (truncationNoticeEmitted st)).
Proof.
  intros Hturn. cbv zeta.
  assert (Hnone : emittedTurnChars st = emittedTurnChars st + Js.len (appendedText [])
                  /\ (emittedTurnChars st <= maxTurnChars settings ->
                      emittedTurnChars st <= maxTurnChars settings)
                  /\ emittedMetaEvents st <= emittedMetaEvents st
                  /\ (emittedMetaEvents st <= maxMetaEventsPerTurn settings ->
                      emittedMetaEvents st <= maxMetaEventsPerTurn settings)
                  /\ Z.b2z (truncationNoticeEmitted st) <= Z.b2z (truncationNoticeEmitted st)
                  /\ 0 <= delivered []
                     <= emittedMetaEvents st - emittedMetaEvents st
                        + (Z.b2z (truncationNoticeEmitted st)
                           - Z.b2z (truncationNoticeEmitted st))).
  { rewrite delivered_nil. cbn [appendedText fold_right]. change (Js.len "") with 0.
    repeat split; try reflexivity; try lia. }
  destruct event as [text stream evTag|text evTag evToolCallId evStatus evTitle
                    |text evTag used size| |]; try discriminate.
  - (* text_delta *)
    cbn [AcpProjector.onEvent]. cbv zeta.
    destruct (match stream with Some thought => true | _ => false end); [exact Hnone|].
    destruct (negb (isTagVisible settings evTag)); [exact Hnone|].
    destruct (negb (Js.nonEmpty text)); [exact Hnone|].
    pose proof (len_nonneg text) as Hlen.
    destruct (Z.geb_spec (emittedTurnChars st) (maxTurnChars settings)) as [Hfull|Hroom].
    + destruct (emitTruncationNotice_frame st) as (He & Hm & Hf & Ha & Hd).
      cbv zeta in He, Hm, Hf, Ha, Hd. rewrite He, Hm, Hf, Ha.
      change (Js.len "") with 0. cbn [Z.b2z].
      destruct (truncationNoticeEmitted st); cbn [Z.b2z] in *; repeat split; lia.
    + set (accepted := if (_ <? Js.len text)%Z then _ else text).
      assert (Hacc : 0 <= Js.len accepted <= maxTurnChars settings - emittedTurnChars st).
      { unfold accepted.
        destruct (Z.ltb_spec (maxTurnChars settings - emittedTurnChars st) (Js.len text)).
        - rewrite slice0_len by lia. lia.
        - lia. }
      destruct (Z.gtb_spec (Js.len accepted) 0) as [Hsome|Hnothing].
      * destruct (Js.len accepted <? Js.len text)%Z.
        -- match goal with |- context [AcpProjector.emitTruncationNotice _ _ _ ?s] =>
             destruct (emitTruncationNotice_frame s) as (He & Hm & Hf & Ha & Hd);
             cbv zeta in He, Hm, Hf, Ha, Hd;
             destruct (AcpProjector.emitTruncationNotice prefixSystemMessage
                         shouldSendToolSummaries settings s) as [st2 notice]
           end.
           cbn [fst snd] in *. rewrite delivered_app, appendedText_app, Ha.
           rewrite appendedText_cons, drainChunker_no_text, !append_empty_r.
           rewrite delivered_append, He, Hm, Hf. cbn [setEmittedTurnChars
             emittedTurnChars emittedMetaEvents truncationNoticeEmitted Z.b2z] in *.
           destruct (truncationNoticeEmitted st); cbn [Z.b2z] in *; repeat split; lia.
        -- cbn [fst snd]. rewrite appendedText_cons, drainChunker_no_text, append_empty_r.
           rewrite delivered_append. cbn. repeat split; lia.
      * destruct (Js.len accepted <? Js.len text)%Z.
        -- destruct (emitTruncationNotice_frame st) as (He & Hm & Hf & Ha & Hd).
           cbv zeta in He, Hm, Hf, Ha, Hd.
           destruct (emitTruncationNotice st) as [st2 notice]. cbn [fst snd] in *.
           cbn [app]. rewrite He, Hm, Hf, Ha. change (Js.len "") with 0.
           destruct (truncationNoticeEmitted st); cbn [Z.b2z] in *; repeat split; lia.
        -- exact Hnone.
  - (* tool_call *)
    cbn [AcpProjector.onEvent].
    destruct (emitToolSummary_frame text evTag evToolCallId evStatus evTitle st)
      as (He & Hf & Ha & Hd & Hm & Hq).
    cbv zeta in He, Hf, Ha, Hd, Hm, Hq. rewrite He, Hf, Ha, Hm.
    change (Js.len "") with 0. repeat split; lia.
  - (* status *)
    cbn [AcpProjector.onEvent]. cbv zeta.
    destruct (negb (isTagVisible settings evTag)); [exact Hnone|].
    assert (Hstatus : forall (meta : option AcpProjectedDeliveryMeta) (st' : TurnState),
               emittedTurnChars st' = emittedTurnChars st ->
               emittedMetaEvents st' = emittedMetaEvents st ->
               truncationNoticeEmitted st' = truncationNoticeEmitted st ->
               let r := emitSystemStatus text meta false true st' in
               emittedTurnChars (fst r) = emittedTurnChars st + Js.len (appendedText (snd r))
               /\ (emittedTurnChars st <= maxTurnChars settings ->
                   emittedTurnChars (fst r) <= maxTurnChars settings)
               /\ emittedMetaEvents st <= emittedMetaEvents (fst r)
               /\ (emittedMetaEvents st <= maxMetaEventsPerTurn settings ->
                   emittedMetaEvents (fst r) <= maxMetaEventsPerTurn settings)
               /\ Z.b2z (truncationNoticeEmitted st) <= Z.b2z (truncationNoticeEmitted (fst r))
               /\ 0 <= delivered (snd r)
                  <= emittedMetaEvents (fst r) - emittedMetaEvents st
                     + (Z.b2z (truncationNoticeEmitted (fst r))
                        - Z.b2z (truncationNoticeEmitted st))).
    { intros meta st' He' Hm' Hf'. cbv zeta.
      destruct (emitSystemStatus_frame text meta false true st')
        as (He & Hf & _ & Ha & Hd & Hm & Hq).
      cbv zeta in He, Hf, Ha, Hd, Hm, Hq. rewrite He, Hf, Ha, Hm, He', Hf', Hm'.
      change (Js.len "") with 0. rewrite Hm' in Hq. repeat split; lia. }
    destruct (Js.optEqb evTag (Some "usage_update")); [|now apply Hstatus].
    destruct (negb (showUsage settings)); [exact Hnone|].
    destruct (Js.optEqb _ (lastUsageTuple st)); [exact Hnone|].
    now apply Hstatus.
Qed.

(** The events of a turn, one after the other. *)
Lemma turn_frame (events : list AcpRuntimeEvent) (st : TurnState) :
  withinTurn events ->
  let r := onEvents events st in
  emittedTurnChars (fst r) = emittedTurnChars st + Js.len (appendedText (snd r))
  /\ (emittedTurnChars st <= maxTurnChars settings ->
      emittedTurnChars (fst r) <= maxTurnChars settings)
  /\ emittedMetaEvents st <= emittedMetaEvents (fst r)
  /\ (emittedMetaEvents st <= maxMetaEventsPerTurn settings ->
      emittedMetaEvents (fst r) <= maxMetaEventsPerTurn settings)
  /\ Z.b2z (truncationNoticeEmitted st) <= Z.b2z (truncationNoticeEmitted (fst r))
  /\ 0 <= delivered (snd r)
     <= emittedMetaEvents (fst r) - emittedMetaEvents st
        + (Z.b2z (truncationNoticeEmitted (fst r)) - Z.b2z (truncationNoticeEmitted st)).
Proof.
  intros Hturn. revert st. induction Hturn as [|event rest Hevent Hrest IH]; intros st.
  - cbn [AcpProjector.onEvents fst snd appendedText fold_right]. rewrite delivered_nil.
    change (Js.len "") with 0. repeat split; lia.
  - cbv zeta. rewrite onEvents_cons. cbn [fst snd].
    destruct (onEvent_frame event st Hevent) as (He & Hb & Hm & Hq & Hf & Hd).
    destruct (IH (fst (onEvent event st))) as (He' & Hb' & Hm' & Hq' & Hf' & Hd').
    cbv zeta in He, Hb, Hm, Hq, Hf, Hd, He', Hb', Hm', Hq', Hf', Hd'.
    rewrite appendedText_app, len_append, delivered_app.
    repeat split; lia.
Qed.


(** ** The shape of the calls of one event *)

(** A status or tool line: nothing, or the line after the flush that live
    mode forces. *)
Definition metaCalls (effects : list Effect) : Prop :=
  effects = []
  \/ exists (text : string) (meta : option AcpProjectedDeliveryMeta),
       effects = (flushIfLive settings ++ [Deliver tool text meta])%list.

(** The text handed to the chunker: nothing, or one [append] and the drain
    that follows it. *)
Definition textCalls (effects : list Effect) : Prop :=
  effects = []
  \/ exists text : string, effects = ChunkerAppend text :: drainChunker settings false.

Lemma emitSystemStatus_calls (text : string) (meta : option AcpProjectedDeliveryMeta)
    (force dedupe : bool) (st : TurnState) :
  metaCalls (snd (emitSystemStatus text meta force dedupe st)).
Proof.
  rewrite emitSystemStatus_spec. destruct (_ && _); [right | left]; [|reflexivity].
  now eexists _, _.
Qed.

Lemma emitTruncationNotice_calls (st : TurnState) : metaCalls (snd (emitTruncationNotice st)).
Proof.
  unfold AcpProjector.emitTruncationNotice.
  destruct (truncationNoticeEmitted st); [now left | apply emitSystemStatus_calls].
Qed.

Lemma emitToolSummary_calls (text : string) (evTag evToolCallId evStatus evTitle : option string)
    (force : bool) (st : TurnState) :
  metaCalls (snd (emitToolSummary text evTag evToolCallId evStatus evTitle force st)).
Proof.
  unfold AcpProjector.emitToolSummary.
  destruct (negb shouldSendToolSummaries || _); [now left|].
  destruct (negb (isTagVisible settings evTag)); [now left|].
  cbv zeta.
  match goal with |- context [match ?g with Some st1 => _ | None => (st, []) end] =>
    destruct g as [st1|]; [|now left]
  end.
  destruct (consumeMetaQuota settings force st1) as [[|] st2]; [|now left].
  right. now eexists _, _.
Qed.

(** What one event of a turn asks of the collaborators: the accepted text
    first, then at most one status or tool line. *)
Lemma onEvent_calls (event : AcpRuntimeEvent) (st : TurnState) :
  isBoundary event = false ->
  exists textPart metaPart : list Effect,
    snd (onEvent event st) = (textPart ++ metaPart)%list
    /\ textCalls textPart /\ metaCalls metaPart.
Proof.
  intros Hturn.
  assert (Hnone : exists textPart metaPart : list Effect,
             @nil Effect = (textPart ++ metaPart)%list
             /\ textCalls textPart /\ metaCalls metaPart).
  { exists [], []. repeat split; now left. }
  destruct event as [text stream evTag|text evTag evToolCallId evStatus evTitle
                    |text evTag used size| |]; try discriminate.
  - cbn [AcpProjector.onEvent]. cbv zeta.
    destruct (match stream with Some thought => true | _ => false end); [exact Hnone|].
    destruct (negb (isTagVisible settings evTag)); [exact Hnone|].
    destruct (negb (Js.nonEmpty text)); [exact Hnone|].
    destruct (emittedTurnChars st >=? maxTurnChars settings)%Z.
    + exists [], (snd (emitTruncationNotice st)).
      split; [reflexivity|]. split; [now left | apply emitTruncationNotice_calls].
    + set (accepted := if (_ <? Js.len text)%Z then _ else text).
      destruct (Js.len accepted >? 0)%Z.
      * destruct (Js.len accepted <? Js.len text)%Z.
        -- match goal with |- context [AcpProjector.emitTruncationNotice _ _ _ ?s] =>
             pose proof (emitTruncationNotice_calls s) as Hnotice;
             destruct (AcpProjector.emitTruncationNotice prefixSystemMessage
                         shouldSendToolSummaries settings s) as [st2 notice]
           end.
           cbn [fst snd] in *. eexists _, notice. split; [reflexivity|].
           split; [right; now eexists | exact Hnotice].
        -- cbn [snd]. eexists _, []. rewrite app_nil_r. split; [reflexivity|].
           split; [right; now eexists | now left].
      * destruct (Js.len accepted <? Js.len text)%Z; [|exact Hnone].
        pose proof (emitTruncationNotice_calls st) as Hnotice.
        destruct (emitTruncationNotice st) as [st2 notice]. cbn [fst snd] in *.
        exists [], notice. split; [reflexivity|]. split; [now left | exact Hnotice].
  - cbn [AcpProjector.onEvent]. eexists [], _. split; [reflexivity|].
    split; [now left | apply emitToolSummary_calls].
  - cbn [AcpProjector.onEvent]. cbv zeta.
    destruct (negb (isTagVisible settings evTag)); [exact Hnone|].
    destruct (Js.optEqb evTag (Some "usage_update")).
    + destruct (negb (showUsage settings)); [exact Hnone|].
      destruct (Js.optEqb _ (lastUsageTuple st)); [exact Hnone|].
      eexists [], _. split; [reflexivity|]. split; [now left | apply emitSystemStatus_calls].
    + eexists [], _. split; [reflexivity|]. split; [now left | apply emitSystemStatus_calls].
Qed.

(** X8: in [final_only] mode no event of a turn drains the chunker or
    flushes the block pipeline; the text waits for the end of the turn. *)
Theorem final_only_defers_draining (events : list AcpRuntimeEvent) (st : TurnState) :
  deliveryMode settings = final_only ->
  withinTurn events ->
  Forall (fun effect => isDrainOrFlush effect = false) (snd (onEvents events st))
  /\ (forall stopReason : string,
        snd (onEvents (events ++ [EvDone stopReason]) st)
        = (snd (onEvents events st) ++ [ChunkerDrain true; PipelineFlush true])%list).
Proof.
  intros Hmode Hturn. split.
  - revert st. induction Hturn as [|event rest Hevent Hrest IH]; intros st; [constructor|].
    rewrite onEvents_cons. cbn [snd]. apply Forall_app. split; [|apply IH].
    destruct (onEvent_calls event st Hevent) as (textPart & metaPart & -> & Htext & Hmeta).
    apply Forall_app. split.
    + destruct Htext as [-> | (text & ->)]; [constructor|].
      unfold drainChunker. rewrite Hmode. cbn. now repeat constructor.
    + destruct Hmeta as [-> | (text & meta & ->)]; [constructor|].
      unfold flushIfLive. rewrite Hmode. cbn. now repeat constructor.
  - intros stopReason. rewrite onEvents_app. cbn [snd]. f_equal.
    rewrite onEvents_cons, onEvent_done. reflexivity.
Qed.

(** X9: in live mode a status or tool line is the last call of its event and
    comes right after a forced drain of the chunker and a forced flush of
    the block pipeline, so the text accepted so far is sent before it. *)
Theorem live_flushes_before_each_line (event : AcpRuntimeEvent) (st : TurnState) :
  deliveryMode settings = live ->
  isBoundary event = false ->
  toolDeliveries (snd (onEvent event st)) = []
  \/ exists (before : list Effect) (text : string) (meta : option AcpProjectedDeliveryMeta),
       snd (onEvent event st)
       = (before ++ [ChunkerDrain true; PipelineFlush true; Deliver tool text meta])%list
       /\ toolDeliveries before = [].
Proof.
  intros Hmode Hevent.
  destruct (onEvent_calls event st Hevent) as (textPart & metaPart & -> & Htext & Hmeta).
  assert (Hquiet : toolDeliveries textPart = []).
  { destruct Htext as [-> | (text & ->)]; [reflexivity|].
    now rewrite toolDeliveries_append, drainChunker_no_delivery. }
  destruct Hmeta as [-> | (text & meta & ->)].
  - left. now rewrite app_nil_r.
  - right. exists textPart, text, meta. split; [|exact Hquiet].
    unfold flushIfLive. rewrite Hmode, flush_forced. reflexivity.
Qed.

(** X10: the events after the end of a turn are handled as by a projector
    that was just created: nothing of the turn before is left. *)
Theorem turn_boundary_resets (before after : list AcpRuntimeEvent) (st : TurnState) :
  (forall stopReason : string,
      onEvents (before ++ EvDone stopReason :: after) st
      = (fst (onEvents after initialTurnState),
         (snd (onEvents before st) ++ [ChunkerDrain true; PipelineFlush true]
          ++ snd (onEvents after initialTurnState))%list))
  /\ (forall (message : string) (code : option string),
        onEvents (before ++ EvError message code :: after) st
        = (fst (onEvents after initialTurnState),
           (snd (onEvents before st) ++ [ChunkerDrain true; PipelineFlush true]
            ++ snd (onEvents after initialTurnState))%list)).
Proof.
  split; intros; rewrite onEvents_app, onEvents_cons;
    [rewrite onEvent_done | rewrite onEvent_error]; reflexivity.
Qed.

(** ** Tags that are not shown *)

(** The tag of an event, where it has one. *)
Definition eventTag (event : AcpRuntimeEvent) : option string :=
  match event with
  | EvTextDelta _ _ evTag => evTag
  | EvToolCall _ evTag _ _ _ => evTag
  | EvStatus _ evTag _ _ => evTag
  | EvDone _ | EvError _ _ => None
  end.

(** X11: an event whose tag is not visible changes nothing: no text goes to
    the chunker, no line is delivered, and the turn state (the budget, the
    quota, the hashes of the dedup) stays as it was.  So does a text delta
    of the thought stream, whatever its tag. *)
Theorem invisible_tag_changes_nothing (event : AcpRuntimeEvent) (st : TurnState) :
  isTagVisible settings (eventTag event) = false ->
  onEvent event st = (st, [])
  /\ forall (text : string) (evTag : option string),
       onEvent (EvTextDelta text (Some thought) evTag) st = (st, []).
Proof.
  intros Hhidden. split; [|reflexivity].
  destruct event as [text stream evTag|text evTag evToolCallId evStatus evTitle
                    |text evTag used size|stopReason|message code];
    cbn [eventTag] in Hhidden; try discriminate.
  - cbn [AcpProjector.onEvent]. rewrite Hhidden.
    now destruct (match stream with Some thought => true | _ => false end).
  - cbn [AcpProjector.onEvent]. unfold AcpProjector.emitToolSummary. rewrite Hhidden.
    now destruct (negb shouldSendToolSummaries || _).
  - cbn [AcpProjector.onEvent]. now rewrite Hhidden.
Qed.

(** ** Repeated events *)

Lemma emitToolSummary_verbose (text : string) (evTag evToolCallId evStatus evTitle : option string)
    (st : TurnState) :
  metaMode settings = verbose ->
  emitToolSummary text evTag evToolCallId evStatus evTitle false st =
    if negb shouldSendToolSummaries then (st, [])
    else if negb (isTagVisible settings evTag) then (st, [])
    else if Js.optEqb (lastToolHash st)
              (Some (toolHashOf ToolDisplay resolveToolDisplay formatToolSummary settings
                       text evStatus evTitle))
    then (st, [])
    else if (emittedMetaEvents st >=? maxMetaEventsPerTurn settings)%Z then (st, [])
    else (setLastToolHash
            (Some (toolHashOf ToolDisplay resolveToolDisplay formatToolSummary settings
                     text evStatus evTitle))
            (setEmittedMetaEvents (emittedMetaEvents st + 1) st),
          (flushIfLive settings
             ++ [toolDelivery ToolDisplay resolveToolDisplay formatToolSummary settings
                   text evTag evToolCallId evStatus evTitle])%list).
Proof.
  intros Hmode. unfold AcpProjector.emitToolSummary, consumeMetaQuota, toolHashOf, toolSummaryOf,
    toolDelivery, trimmedId, toolSummaryOf.
  rewrite Hmode. cbn [orb].
  destruct shouldSendToolSummaries; [|reflexivity]. cbn [negb orb].
  destruct (isTagVisible settings evTag); [|reflexivity]. cbn [negb].
  destruct (Js.optEqb _ _); [reflexivity|].
  now destruct (_ >=? _)%Z.
Qed.

(** X12: in every meta mode, a tool call event that comes again right after
    itself is not delivered the second time. *)
Theorem tool_call_repeat_not_redelivered
    (text : string) (evTag evToolCallId evStatus evTitle : option string) (st : TurnState) :
  let event := EvToolCall text evTag evToolCallId evStatus evTitle in
  toolDeliveries (snd (onEvent event (fst (onEvent event st)))) = [].
Proof.
  cbv zeta.
  assert (Hhash : forall (st' : TurnState) (h : string),
             lastToolHash st' = Some h -> Js.optEqb (lastToolHash st') (Some h) = true).
  { intros st' h ->. apply optEqb_refl. }
  destruct (metaMode settings) eqn:Hmode.
  - (* off *)
    cbn [AcpProjector.onEvent]. unfold AcpProjector.emitToolSummary.
    rewrite Hmode, !orb_true_r. reflexivity.
  - (* minimal *)
    destruct (trimmedId evToolCallId) as [id|] eqn:Hid;
      [now apply (toolCall_repeat_suppressed _ _ _ _ _ _ text evTag evToolCallId evStatus
                    evTitle st id)|].
    cbn [AcpProjector.onEvent]. rewrite !emitToolSummary_minimal by assumption.
    destruct shouldSendToolSummaries; cbn [negb]; [|reflexivity].
    destruct (isTagVisible settings evTag); cbn [negb]; [|reflexivity].
    unfold minimalDedup. rewrite Hid.
    destruct (Js.optEqb (lastToolHash st) _) eqn:Hsame; cbn [fst]; [now rewrite Hsame|].
    destruct (emittedMetaEvents st >=? maxMetaEventsPerTurn settings)%Z eqn:Hfull; cbn [fst].
    + now rewrite Hsame, Hfull.
    + now rewrite Hhash.
  - (* verbose *)
    cbn [AcpProjector.onEvent]. rewrite !emitToolSummary_verbose by assumption.
    destruct shouldSendToolSummaries; cbn [negb]; [|reflexivity].
    destruct (isTagVisible settings evTag); cbn [negb]; [|reflexivity].
    destruct (Js.optEqb (lastToolHash st) _) eqn:Hsame; cbn [fst]; [now rewrite Hsame|].
    destruct (emittedMetaEvents st >=? maxMetaEventsPerTurn settings)%Z eqn:Hfull; cbn [fst].
    + now rewrite Hsame, Hfull.
    + now rewrite Hhash.
Qed.

(** X13: a usage update is told apart by its numbers: after a usage update
    with [used] and [size], a second one with the same two numbers is not
    delivered, whatever its text. *)
Theorem usage_update_dedup_on_numbers (text text' : string) (used size : Z) (st : TurnState) :
  let usage (t : string) := EvStatus t (Some "usage_update") (Some used) (Some size) in
  toolDeliveries (snd (onEvent (usage text') (fst (onEvent (usage text) st)))) = [].
Proof.
  cbv zeta. cbn [AcpProjector.onEvent]. cbv zeta.
  destruct (negb (isTagVisible settings (Some "usage_update"))); [reflexivity|].
  change (Js.optEqb (Some "usage_update") (Some "usage_update")) with true. cbv iota.
  destruct (negb (showUsage settings)); [reflexivity|].
  destruct (Js.optEqb _ (lastUsageTuple st)) eqn:Hsame; cbn [fst]; [now rewrite Hsame|].
  match goal with |- context [AcpProjector.emitSystemStatus _ _ _ ?t ?m false true ?s] =>
    destruct (emitSystemStatus_frame t m false true s) as (_ & _ & Hu & _)
  end.
  cbv zeta in Hu. rewrite Hu. cbn [lastUsageTuple setLastUsageTuple].
  now rewrite optEqb_refl.
Qed.

(** ** The parts of a text delta *)

(** What a text delta does before the truncation notice: nothing, or the
    accepted text is counted and handed to the chunker. *)
Definition textStep (st st1 : TurnState) (textPart : list Effect) : Prop :=
  st1 = st /\ textPart = []
  \/ exists accepted : string,
       st1 = setEmittedTurnChars (emittedTurnChars st + Js.len accepted) st
       /\ textPart = ChunkerAppend accepted :: drainChunker settings false.

Lemma textDelta_cases (text : string) (stream : option Stream) (evTag : option string)
    (st : TurnState) :
  exists (st1 : TurnState) (textPart : list Effect),
    textStep st st1 textPart
    /\ (onEvent (EvTextDelta text stream evTag) st = (st1, textPart)
        \/ onEvent (EvTextDelta text stream evTag) st
           = (fst (emitTruncationNotice st1),
              (textPart ++ snd (emitTruncationNotice st1))%list)).
Proof.
  assert (Hnone : exists (st1 : TurnState) (textPart : list Effect),
             textStep st st1 textPart
             /\ ((st, @nil Effect) = (st1, textPart)
                 \/ (st, @nil Effect)
                    = (fst (emitTruncationNotice st1),
                       (textPart ++ snd (emitTruncationNotice st1))%list))).
  { exists st, []. split; [now left | now left]. }
  cbn [AcpProjector.onEvent]. cbv zeta.
  destruct (match stream with Some thought => true | _ => false end); [exact Hnone|].
  destruct (negb (isTagVisible settings evTag)); [exact Hnone|].
  destruct (negb (Js.nonEmpty text)); [exact Hnone|].
  destruct (emittedTurnChars st >=? maxTurnChars settings)%Z.
  - exists st, []. split; [now left|]. right. now destruct (emitTruncationNotice st).
  - set (accepted := if (_ <? Js.len text)%Z then _ else text).
    destruct (Js.len accepted >? 0)%Z.
    + eexists _, _. split; [right; now eexists|].
      destruct (Js.len accepted <? Js.len text)%Z; [right | now left].
      now destruct (AcpProjector.emitTruncationNotice _ _ _ _).
    + exists st, []. split; [now left|].
      destruct (Js.len accepted <? Js.len text)%Z; [right | now left].
      now destruct (emitTruncationNotice st).
Qed.

Lemma textStep_quota (st st1 : TurnState) (textPart : list Effect) :
  textStep st st1 textPart ->
  emittedMetaEvents st1 = emittedMetaEvents st
  /\ truncationNoticeEmitted st1 = truncationNoticeEmitted st
  /\ toolDeliveries textPart = [].
Proof.
  intros [[-> ->] | (accepted & -> & ->)]; [now repeat split|].
  repeat split. now rewrite toolDeliveries_append, drainChunker_no_delivery.
Qed.

(** A text delta takes nothing from the meta quota. *)
Lemma textDelta_quota (text : string) (stream : option Stream) (evTag : option string)
    (st : TurnState) :
  emittedMetaEvents (fst (onEvent (EvTextDelta text stream evTag) st)) = emittedMetaEvents st.
Proof.
  destruct (textDelta_cases text stream evTag st) as (st1 & textPart & Hstep & [-> | ->]);
    destruct (textStep_quota _ _ _ Hstep) as (Hm & _ & _); cbn [fst]; [exact Hm|].
  destruct (emitTruncationNotice_frame st1) as (_ & Hm' & _). cbv zeta in Hm'. congruence.
Qed.

(** The only line of a text delta is the truncation notice, and only where
    the notice was not yet given in the turn. *)
Lemma textDelta_deliveries (text : string) (stream : option Stream) (evTag : option string)
    (st : TurnState) :
  16 <= maxStatusChars settings ->
  toolDeliveries (snd (onEvent (EvTextDelta text stream evTag) st)) = []
  \/ toolDeliveries (snd (onEvent (EvTextDelta text stream evTag) st))
     = [notice prefixSystemMessage]
     /\ truncationNoticeEmitted st = false.
Proof.
  intros Hmax.
  destruct (textDelta_cases text stream evTag st) as (st1 & textPart & Hstep & [-> | ->]);
    destruct (textStep_quota _ _ _ Hstep) as (_ & Hf & Hquiet); cbn [snd]; [now left|].
  rewrite toolDeliveries_app, Hquiet, emitTruncationNotice_spec by assumption. cbn [app].
  rewrite Hf. destruct (truncationNoticeEmitted st); [now left|].
  destruct shouldSendToolSummaries; [right | now left].
  cbn [snd]. now rewrite toolDeliveries_app, flushIfLive_no_delivery.
Qed.

(** ** The text of a turn with events of every kind *)

Lemma slice0_empty (n : Z) : 0 <= n -> Js.slice0 "" n = "".
Proof. intros Hn. rewrite slice0_nonneg by assumption. now destruct (Z.to_nat n). Qed.

Lemma onEvent_text (event : AcpRuntimeEvent) (st : TurnState) :
  isBoundary event = false ->
  16 <= maxStatusChars settings ->
  0 <= emittedTurnChars st <= maxTurnChars settings ->
  let r := onEvent event st in
  emittedTurnChars (fst r)
    = Z.min (maxTurnChars settings) (emittedTurnChars st + Js.len (acceptable settings event))
  /\ appendedText (snd r)
     = Js.slice0 (acceptable settings event) (maxTurnChars settings - emittedTurnChars st).
Proof.
  intros Hturn Hstatus Hrange. cbv zeta.
  destruct event as [text stream evTag|text evTag evToolCallId evStatus evTitle
                    |text evTag used size| |]; try discriminate.
  - destruct (textDelta_step prefixSystemMessage ToolDisplay resolveToolDisplay
                formatToolSummary shouldSendToolSummaries settings
                (EvTextDelta text stream evTag) st I Hstatus Hrange) as (He & _ & Ha & _).
    split; [exact He | exact Ha].
  - destruct (onEvent_frame (EvToolCall text evTag evToolCallId evStatus evTitle) st eq_refl)
      as (He & _).
    cbv zeta in He. cbn [AcpProjector.onEvent] in *.
    destruct (emitToolSummary_frame text evTag evToolCallId evStatus evTitle st)
      as (He' & _ & Ha & _).
    cbv zeta in He', Ha. rewrite He', Ha. cbn [acceptable]. change (Js.len "") with 0.
    rewrite slice0_empty by lia. split; [lia | reflexivity].
  - pose proof (onEvent_frame (EvStatus text evTag used size) st eq_refl) as Hframe.
    cbv zeta in Hframe. destruct Hframe as (He & _ & _ & _ & _ & _).
    cbn [acceptable]. change (Js.len "") with 0. rewrite slice0_empty by lia.
    assert (Ha : appendedText (snd (onEvent (EvStatus text evTag used size) st)) = "").
    { cbn [AcpProjector.onEvent]. cbv zeta.
      destruct (negb (isTagVisible settings evTag)); [reflexivity|].
      destruct (Js.optEqb evTag (Some "usage_update")).
      - destruct (negb (showUsage settings)); [reflexivity|].
        destruct (Js.optEqb _ (lastUsageTuple st)); [reflexivity|].
        match goal with |- context [AcpProjector.emitSystemStatus _ _ _ ?t ?m false true ?s] =>
          now destruct (emitSystemStatus_frame t m false true s) as (_ & _ & _ & Ha & _)
        end.
      - match goal with |- context [AcpProjector.emitSystemStatus _ _ _ ?t ?m false true ?s] =>
          now destruct (emitSystemStatus_frame t m false true s) as (_ & _ & _ & Ha & _)
        end. }
    rewrite Ha in *. change (Js.len "") with 0 in He. split; [lia | reflexivity].
Qed.

Lemma turn_text (events : list AcpRuntimeEvent) (st : TurnState) :
  withinTurn events ->
  16 <= maxStatusChars settings ->
  0 <= emittedTurnChars st <= maxTurnChars settings ->
  let r := onEvents events st in
  emittedTurnChars (fst r)
    = Z.min (maxTurnChars settings) (emittedTurnChars st + Js.len (offered settings events))
  /\ appendedText (snd r)
     = Js.slice0 (offered settings events) (maxTurnChars settings - emittedTurnChars st).
Proof.
  intros Hturn Hstatus. revert st.
  induction Hturn as [|event rest Hevent Hrest IH]; intros st Hrange; cbv zeta.
  - cbn [offered AcpProjector.onEvents fst snd appendedText fold_right].
    change (Js.len "") with 0. rewrite slice0_empty by lia. split; [lia | reflexivity].
  - rewrite onEvents_cons. cbn [fst snd offered].
    destruct (onEvent_text event st Hevent Hstatus Hrange) as (He & Ha).
    cbv zeta in He, Ha.
    pose proof (len_nonneg (acceptable settings event)) as Hlen1.
    pose proof (len_nonneg (offered settings rest)) as Hlen2.
    assert (Hrange1 : 0 <= emittedTurnChars (fst (onEvent event st)) <= maxTurnChars settings)
      by (rewrite He; lia).
    destruct (IH _ Hrange1) as (He' & Ha'). cbv zeta in He', Ha'.
    rewrite He', appendedText_app, Ha, Ha', He, len_append.
    rewrite (slice0_append (acceptable settings event) (offered settings rest)) by lia.
    replace (maxTurnChars settings
             - Z.min (maxTurnChars settings)
                 (emittedTurnChars st + Js.len (acceptable settings event)))
      with (maxTurnChars settings - emittedTurnChars st
            - Z.min (maxTurnChars settings - emittedTurnChars st)
                (Js.len (acceptable settings event)))
      by lia.
    split; [lia | reflexivity].
Qed.

(** ** The length of the lines *)

(** A line as the projector delivers it: a tool summary within
    [maxToolSummaryChars], or the system prefix put before a status text that
    is not empty and within [maxStatusChars]. *)
Definition lineWithinLimits (line : string * option AcpProjectedDeliveryMeta) : Prop :=
  Js.len (fst line) <= maxToolSummaryChars settings
  \/ exists bounded : string,
       fst line = prefixSystemMessage bounded
       /\ 0 < Js.len bounded <= maxStatusChars settings.

Lemma emitSystemStatus_within (text : string) (meta : option AcpProjectedDeliveryMeta)
    (force dedupe : bool) (st : TurnState) :
  0 <= maxStatusChars settings ->
  Forall lineWithinLimits (toolDeliveries (snd (emitSystemStatus text meta force dedupe st))).
Proof.
  intros Hmax. rewrite emitSystemStatus_deliveries.
  destruct (statusOpen _ _ text force) eqn:Hopen; [|constructor].
  destruct (statusFresh _ _ text force dedupe st); [|constructor].
  constructor; [|constructor]. right. eexists. split; [reflexivity|].
  unfold statusOpen in Hopen. apply andb_prop in Hopen as [_ Hne].
  apply JsFacts.nonEmpty_true in Hne.
  pose proof (truncateText_length (Js.trim text) (maxStatusChars settings) Hmax) as Hlen.
  pose proof (len_nonneg (truncateText (Js.trim text) (maxStatusChars settings))) as Hpos.
  split; [|lia].
  destruct (Z.eq_dec (Js.len (truncateText (Js.trim text) (maxStatusChars settings))) 0) as [E|E];
    [apply len_empty in E; congruence | lia].
Qed.

Lemma emitToolSummary_within (text : string) (evTag evToolCallId evStatus evTitle : option string)
    (force : bool) (st : TurnState) :
  0 <= maxToolSummaryChars settings ->
  Forall lineWithinLimits
    (toolDeliveries (snd (emitToolSummary text evTag evToolCallId evStatus evTitle force st))).
Proof.
  intros Hmax. unfold AcpProjector.emitToolSummary.
  destruct (negb shouldSendToolSummaries || _); [constructor|].
  destruct (negb (isTagVisible settings evTag)); [constructor|].
  cbv zeta.
  match goal with |- context [match ?g with Some st1 => _ | None => (st, []) end] =>
    destruct g as [st1|]; [|constructor]
  end.
  destruct (consumeMetaQuota settings force st1) as [[|] st2]; [|constructor].
  cbn [negb snd]. rewrite toolDeliveries_app, flushIfLive_no_delivery.
  constructor; [|constructor]. left. cbn [fst].
  rewrite truncateText_length by assumption. lia.
Qed.

Lemma onEvents_within (events : list AcpRuntimeEvent) (st : TurnState) :
  0 <= maxStatusChars settings ->
  0 <= maxToolSummaryChars settings ->
  Forall lineWithinLimits (toolDeliveries (snd (onEvents events st))).
Proof.
  intros Hstatus Htool. revert st. induction events as [|event rest IH]; intros st;
    [constructor|].
  rewrite onEvents_cons. cbn [snd]. rewrite toolDeliveries_app. apply Forall_app.
  split; [|apply IH].
  destruct event as [text stream evTag|text evTag evToolCallId evStatus evTitle
                    |text evTag used size|stopReason|message code].
  - destruct (textDelta_cases text stream evTag st) as (st1 & textPart & Hstep & [-> | ->]);
      destruct (textStep_quota _ _ _ Hstep) as (_ & _ & Hquiet); cbn [snd].
    + rewrite Hquiet. constructor.
    + rewrite toolDeliveries_app, Hquiet. cbn [app].
      unfold AcpProjector.emitTruncationNotice.
      destruct (truncationNoticeEmitted st1); [constructor|].
      now apply emitSystemStatus_within.
  - now apply emitToolSummary_within.
  - cbn [AcpProjector.onEvent]. cbv zeta.
    destruct (negb (isTagVisible settings evTag)); [constructor|].
    destruct (Js.optEqb evTag (Some "usage_update")).
    + destruct (negb (showUsage settings)); [constructor|].
      destruct (Js.optEqb _ (lastUsageTuple st)); [constructor|].
      now apply emitSystemStatus_within.
    + now apply emitSystemStatus_within.
  - rewrite onEvent_done. constructor.
  - rewrite onEvent_error. constructor.
Qed.

(** ** Meta mode [off] *)

Lemma off_step (event : AcpRuntimeEvent) (st : TurnState) :
  metaMode settings = off ->
  16 <= maxStatusChars settings ->
  isBoundary event = false ->
  let r := onEvent event st in
  Forall (fun line => line = notice prefixSystemMessage) (toolDeliveries (snd r))
  /\ Z.b2z (truncationNoticeEmitted st) <= Z.b2z (truncationNoticeEmitted (fst r))
  /\ delivered (snd r)
     <= Z.b2z (truncationNoticeEmitted (fst r)) - Z.b2z (truncationNoticeEmitted st).
Proof.
  intros Hmode Hmax Hturn. cbv zeta.
  pose proof (onEvent_frame event st Hturn) as Hframe. cbv zeta in Hframe.
  destruct Hframe as (_ & _ & _ & _ & Hflag & Hcount).
  split; [|split; [exact Hflag|]].
  - destruct event as [text stream evTag|text evTag evToolCallId evStatus evTitle
                      |text evTag used size| |]; try discriminate.
    + destruct (textDelta_deliveries text stream evTag st Hmax) as [-> | [-> _]];
        now repeat constructor.
    + cbn [AcpProjector.onEvent]. unfold AcpProjector.emitToolSummary.
      rewrite Hmode, orb_true_r. constructor.
    + rewrite onEvent_status_deliveries. unfold statusVisible, statusOpen.
      rewrite Hmode. cbn [negb]. rewrite andb_false_r, !andb_false_l, ?andb_false_r.
      cbn [andb]. constructor.
  - destruct event as [text stream evTag|text evTag evToolCallId evStatus evTitle
                      |text evTag used size| |]; try discriminate.
    + rewrite textDelta_quota in Hcount. lia.
    + revert Hcount Hflag. cbn [AcpProjector.onEvent]. unfold AcpProjector.emitToolSummary.
      rewrite Hmode, orb_true_r. cbn [fst snd]. rewrite delivered_nil. lia.
    + assert (Hnone : delivered (snd (onEvent (EvStatus text evTag used size) st)) = 0).
      { unfold delivered. rewrite onEvent_status_deliveries. unfold statusVisible, statusOpen.
        rewrite Hmode. cbn [negb]. rewrite andb_false_r, !andb_false_l, ?andb_false_r.
        reflexivity. }
      lia.
Qed.


Lemma meta_off_run :
  metaMode settings = off ->
  16 <= maxStatusChars settings ->
  (forall (events : list AcpRuntimeEvent) (st : TurnState),
      Forall (fun line => line = notice prefixSystemMessage)
        (toolDeliveries (snd (onEvents events st))))
  /\ (forall events : list AcpRuntimeEvent,
        withinTurn events ->
        delivered (snd (onEvents events initialTurnState)) <= 1).
Proof.
  intros Hmode Hmax. split.
  - intros events. induction events as [|event rest IH]; intros st; [constructor|].
    rewrite onEvents_cons. cbn [snd]. rewrite toolDeliveries_app. apply Forall_app.
    split; [|apply IH].
    destruct (isBoundary event) eqn:Hturn.
    + destruct event; try discriminate; [rewrite onEvent_done | rewrite onEvent_error];
        constructor.
    + now apply off_step.
  - intros events Hturn.
    assert (Hrun : forall st : TurnState,
               delivered (snd (onEvents events st))
               <= Z.b2z (truncationNoticeEmitted (fst (onEvents events st)))
                  - Z.b2z (truncationNoticeEmitted st)).
    { induction Hturn as [|event rest Hevent Hrest IH]; intros st.
      - cbn [AcpProjector.onEvents fst snd]. rewrite delivered_nil. lia.
      - rewrite onEvents_cons. cbn [fst snd]. rewrite delivered_app.
        destruct (off_step event st Hmode Hmax Hevent) as (_ & _ & Hstep).
        cbv zeta in Hstep. specialize (IH (fst (onEvent event st))). lia. }
    specialize (Hrun initialTurnState). cbn [truncationNoticeEmitted initialTurnState Z.b2z] in Hrun.
    destruct (truncationNoticeEmitted (fst (onEvents events initialTurnState)));
      cbn [Z.b2z] in Hrun; lia.
Qed.

End Pipeline.

Section Disabled.

Variable prefixSystemMessage : string -> string.
Variable ToolDisplay : Type.
Variable resolveToolDisplay : string -> string -> ToolDisplay.
Variable formatToolSummary : ToolDisplay -> string.
Variable settings : AcpProjectionSettings.

(** X14: when [shouldSendToolSummaries] is not set the projector never calls
    [deliver] itself: no status line, no tool summary and no truncation
    notice, whatever the events, the state and the settings. *)
Theorem no_lines_without_tool_summaries (events : list AcpRuntimeEvent) (st : TurnState) :
  toolDeliveries
    (snd (AcpProjector.onEvents prefixSystemMessage ToolDisplay resolveToolDisplay
            formatToolSummary false settings events st)) = [].
Proof.
  revert st. induction events as [|event rest IH]; intros st; [reflexivity|].
  rewrite onEvents_cons. cbn [snd]. rewrite toolDeliveries_app, IH, app_nil_r.
  assert (Hnotice : forall st' : TurnState,
             toolDeliveries
               (snd (AcpProjector.emitTruncationNotice prefixSystemMessage false settings st'))
             = []).
  { intros st'. unfold AcpProjector.emitTruncationNotice.
    now destruct (truncationNoticeEmitted st'). }
  destruct event as [text stream evTag|text evTag evToolCallId evStatus evTitle
                    |text evTag used size|stopReason|message code].
  - destruct (textDelta_cases prefixSystemMessage ToolDisplay resolveToolDisplay
                formatToolSummary false settings text stream evTag st)
      as (st1 & textPart & Hstep & [-> | ->]);
      destruct (textStep_quota _ _ _ _ Hstep) as (_ & _ & Hquiet); cbn [snd];
      [exact Hquiet|].
    now rewrite toolDeliveries_app, Hquiet, Hnotice.
  - reflexivity.
  - cbn [AcpProjector.onEvent]. cbv zeta.
    destruct (negb (isTagVisible settings evTag)); [reflexivity|].
    destruct (Js.optEqb evTag (Some "usage_update")); [|reflexivity].
    destruct (negb (showUsage settings)); [reflexivity|].
    now destruct (Js.optEqb _ (lastUsageTuple st)).
  - now rewrite onEvent_done.
  - now rewrite onEvent_error.
Qed.

End Disabled.

(** ** With the settings of a configuration *)

Section Resolved.

Variable prefixSystemMessage : string -> string.
Variable ToolDisplay : Type.
Variable resolveToolDisplay : string -> string -> ToolDisplay.
Variable formatToolSummary : ToolDisplay -> string.
Variable shouldSendToolSummaries : bool.
Variable cfg : option AcpStreamConfig.

Local Abbreviation settings := (resolveAcpProjectionSettings cfg).
Local Abbreviation onEvents :=
  (AcpProjector.onEvents prefixSystemMessage ToolDisplay resolveToolDisplay formatToolSummary
     shouldSendToolSummaries settings).

(** X15: status and tool events between the text deltas of a turn take nothing
    from the character budget: the chunker gets the first [maxTurnChars]
    code units of the visible output text of the turn, whatever else the
    turn holds. *)
Theorem mixed_turn_text_budget (events : list AcpRuntimeEvent) :
  withinTurn events ->
  let r := onEvents events initialTurnState in
  appendedText (snd r) = Js.slice0 (offered settings events) (maxTurnChars settings)
  /\ emittedTurnChars (fst r)
     = Z.min (maxTurnChars settings) (Js.len (offered settings events))
  /\ Js.len (appendedText (snd r)) <= maxTurnChars settings.
Proof.
  intros Hturn. cbv zeta.
  pose proof (maxTurnChars_bounds cfg) as Hmax.
  destruct (turn_text prefixSystemMessage ToolDisplay resolveToolDisplay formatToolSummary
              shouldSendToolSummaries settings events initialTurnState Hturn
              (statusChars_fit_notice cfg) (initial_within_budget cfg)) as (He & Ha).
  cbv zeta in He, Ha. cbn [emittedTurnChars initialTurnState] in He, Ha.
  rewrite Z.sub_0_r in Ha. rewrite Z.add_0_l in He.
  split; [exact Ha|]. split; [exact He|].
  rewrite Ha, slice0_len by lia. lia.
Qed.

(** X16: a turn delivers at most [maxMetaEventsPerTurn] status and tool lines,
    and the truncation notice, which is forced, at most once besides. *)
Theorem turn_meta_quota (events : list AcpRuntimeEvent) :
  withinTurn events ->
  let r := onEvents events initialTurnState in
  delivered (snd r) <= maxMetaEventsPerTurn settings + 1
  /\ delivered (snd r)
     <= emittedMetaEvents (fst r) + Z.b2z (truncationNoticeEmitted (fst r))
  /\ 0 <= emittedMetaEvents (fst r) <= maxMetaEventsPerTurn settings.
Proof.
  intros Hturn. cbv zeta.
  pose proof (maxMetaEventsPerTurn_bounds cfg) as Hmax.
  destruct (turn_frame prefixSystemMessage ToolDisplay resolveToolDisplay formatToolSummary
              shouldSendToolSummaries settings events initialTurnState Hturn)
    as (_ & _ & Hm & Hq & _ & Hd).
  cbv zeta in Hm, Hq, Hd.
  cbn [emittedMetaEvents truncationNoticeEmitted initialTurnState Z.b2z] in Hm, Hq, Hd.
  destruct (truncationNoticeEmitted (fst (onEvents events initialTurnState)));
    cbn [Z.b2z] in *; lia.
Qed.

(** X17: every line that the projector delivers is within the limits of the
    settings: a tool summary has at most [maxToolSummaryChars] code units,
    and a status line is the system prefix put before a text of at most
    [maxStatusChars] code units that is not empty. *)
Theorem lines_within_limits (events : list AcpRuntimeEvent) (st : TurnState) :
  Forall (lineWithinLimits prefixSystemMessage settings)
    (toolDeliveries (snd (onEvents events st))).
Proof.
  pose proof (maxStatusChars_bounds cfg).
  assert (64 <= maxToolSummaryChars settings <= 8000)
    by (apply clampPositiveInteger_bounds; vm_compute; split; discriminate).
  apply onEvents_within; lia.
Qed.

(** X18: with meta mode [off] the only line that the projector delivers is the
    truncation notice, and a turn has at most one. *)
Theorem meta_off_delivers_only_notice :
  metaMode settings = off ->
  (forall (events : list AcpRuntimeEvent) (st : TurnState),
      Forall (fun line => line = notice prefixSystemMessage)
        (toolDeliveries (snd (onEvents events st))))
  /\ (forall events : list AcpRuntimeEvent,
        withinTurn events ->
        delivered (snd (onEvents events initialTurnState)) <= 1).
Proof.
  intros Hmode. apply meta_off_run; [exact Hmode | apply statusChars_fit_notice].
Qed.

End Resolved.

(** ** On concrete collaborators *)

(** A configuration that sets the delivery mode, the meta mode and the two
    budgets of a turn. *)
Definition streamConfig (delivery meta : option string) (turnChars metaEvents : option Z)
  : option AcpStreamConfig :=
  Some {| stream_coalesceIdleMs := None; stream_maxChunkChars := None;
          stream_deliveryMode := delivery; stream_metaMode := meta;
          stream_showUsage := Some true;
          stream_maxTurnChars := option_map inject_Z turnChars;
          stream_maxToolSummaryChars := None; stream_maxStatusChars := None;
          stream_maxMetaEventsPerTurn := option_map inject_Z metaEvents;
          stream_tagVisibility := [("usage_update", true); ("plan", true)] |}.

Definition planStatus (text : string) : AcpRuntimeEvent := EvStatus text (Some "plan") None None.

(** One turn: text, a tool call, more text than the budget of five allows,
    and two status lines. *)
Definition sampleTurn : list AcpRuntimeEvent :=
  [outputDelta "abc"; toolUpdate (Some "in_progress") "read"; outputDelta "defg";
   planStatus "plan: [pending] look"; planStatus "plan: [done] look"].

Lemma sampleTurn_withinTurn : withinTurn sampleTurn.
Proof. repeat constructor. Defined.

Example sample_turn_live :
  snd (pipeline true (streamConfig None (Some "verbose") (Some 5) (Some 2)) sampleTurn
         initialTurnState)
  = [ChunkerAppend "abc"; ChunkerDrain false;
     ChunkerDrain true; PipelineFlush true;
     Deliver tool ("tool_call: read" ++ middleDot ++ "status=in_progress")%string
       (Some {| tag := Some "tool_call_update"; toolCallId := Some "call-1";
                toolStatus := Some "in_progress"; allowEdit := Some true |});
     ChunkerAppend "de"; ChunkerDrain false;
     ChunkerDrain true; PipelineFlush true;
     Deliver tool "System: output truncated" noticeMeta;
     ChunkerDrain true; PipelineFlush true;
     Deliver tool "System: plan: [pending] look"
       (Some {| tag := Some "plan"; toolCallId := None; toolStatus := None;
                allowEdit := None |})].
Proof. vm_compute. reflexivity. Qed.


Lemma final_only_defers_draining_witness :
  Forall (fun effect => isDrainOrFlush effect = false)
    (snd (pipeline true (streamConfig (Some "final_only") None (Some 5) (Some 2)) sampleTurn
            initialTurnState))
  /\ (forall stopReason : string,
        snd (pipeline true (streamConfig (Some "final_only") None (Some 5) (Some 2))
               (sampleTurn ++ [EvDone stopReason]) initialTurnState)
        = (snd (pipeline true (streamConfig (Some "final_only") None (Some 5) (Some 2))
                  sampleTurn initialTurnState)
           ++ [ChunkerDrain true; PipelineFlush true])%list).
Proof.
  apply (final_only_defers_draining prefixWith (string * string) displayOf summaryOf true
           (resolveAcpProjectionSettings
              (streamConfig (Some "final_only") None (Some 5) (Some 2)))
           sampleTurn initialTurnState);
    [reflexivity | exact sampleTurn_withinTurn].
Defined.

Lemma live_flushes_before_each_line_witness :
  toolDeliveries
    (snd (pipeline true None [toolUpdate (Some "in_progress") "read"] initialTurnState)) = []
  \/ exists (before : list Effect) (text : string) (meta : option AcpProjectedDeliveryMeta),
       snd (AcpProjector.onEvent prefixWith (string * string) displayOf summaryOf true
              (resolveAcpProjectionSettings None) (toolUpdate (Some "in_progress") "read")
              initialTurnState)
       = (before ++ [ChunkerDrain true; PipelineFlush true; Deliver tool text meta])%list
       /\ toolDeliveries before = [].
Proof.
  destruct (live_flushes_before_each_line prefixWith (string * string) displayOf summaryOf true
              (resolveAcpProjectionSettings None) (toolUpdate (Some "in_progress") "read")
              initialTurnState eq_refl eq_refl) as [Hnone | Hline].
  - left. unfold pipeline. cbn [AcpProjector.onEvents]. revert Hnone.
    destruct (AcpProjector.onEvent _ _ _ _ _ _ _ _) as [st1 effects]. cbn [snd].
    now rewrite app_nil_r.
  - right. exact Hline.
Defined.

Lemma meta_off_delivers_only_notice_witness :
  (forall (events : list AcpRuntimeEvent) (st : TurnState),
      Forall (fun line => line = ("System: output truncated", noticeMeta))
        (toolDeliveries
           (snd (pipeline true (streamConfig None (Some "off") (Some 5) (Some 2)) events st))))
  /\ (forall events : list AcpRuntimeEvent,
        withinTurn events ->
        delivered
          (snd (pipeline true (streamConfig None (Some "off") (Some 5) (Some 2)) events
                  initialTurnState)) <= 1).
Proof.
  apply (meta_off_delivers_only_notice prefixWith (string * string) displayOf summaryOf true
           (streamConfig None (Some "off") (Some 5) (Some 2))).
  reflexivity.
Defined.

Lemma mixed_turn_text_budget_witness :
  appendedText
    (snd (pipeline true (streamConfig None (Some "verbose") (Some 5) (Some 2)) sampleTurn
            initialTurnState))
  = Js.slice0 "abcdefg" 5
  /\ emittedTurnChars
       (fst (pipeline true (streamConfig None (Some "verbose") (Some 5) (Some 2)) sampleTurn
               initialTurnState))
     = Z.min 5 (Js.len "abcdefg")
  /\ Js.len
       (appendedText
          (snd (pipeline true (streamConfig None (Some "verbose") (Some 5) (Some 2)) sampleTurn
                  initialTurnState))) <= 5.
Proof.
  exact (mixed_turn_text_budget prefixWith (string * string) displayOf summaryOf true
           (streamConfig None (Some "verbose") (Some 5) (Some 2)) sampleTurn
           sampleTurn_withinTurn).
Defined.

Lemma turn_meta_quota_witness :
  delivered
    (snd (pipeline true (streamConfig None (Some "verbose") (Some 5) (Some 2)) sampleTurn
            initialTurnState)) <= 2 + 1
  /\ delivered
       (snd (pipeline true (streamConfig None (Some "verbose") (Some 5) (Some 2)) sampleTurn
               initialTurnState))
     <= emittedMetaEvents
          (fst (pipeline true (streamConfig None (Some "verbose") (Some 5) (Some 2)) sampleTurn
                  initialTurnState))
        + Z.b2z (truncationNoticeEmitted
                   (fst (pipeline true (streamConfig None (Some "verbose") (Some 5) (Some 2))
                           sampleTurn initialTurnState)))
  /\ 0 <= emittedMetaEvents
            (fst (pipeline true (streamConfig None (Some "verbose") (Some 5) (Some 2))
                    sampleTurn initialTurnState)) <= 2.
Proof.
  exact (turn_meta_quota prefixWith (string * string) displayOf summaryOf true
           (streamConfig None (Some "verbose") (Some 5) (Some 2)) sampleTurn
           sampleTurn_withinTurn).
Defined.


Lemma invisible_tag_changes_nothing_witness :
  AcpProjector.onEvent prefixWith (string * string) displayOf summaryOf true
    (resolveAcpProjectionSettings None) (EvStatus "plan: [pending] look" (Some "plan") None None)
    initialTurnState
  = (initialTurnState, [])
  /\ forall (text : string) (evTag : option string),
       AcpProjector.onEvent prefixWith (string * string) displayOf summaryOf true
         (resolveAcpProjectionSettings None) (EvTextDelta text (Some thought) evTag)
         initialTurnState
       = (initialTurnState, []).
Proof.
  apply (invisible_tag_changes_nothing prefixWith (string * string) displayOf summaryOf true
           (resolveAcpProjectionSettings None)
           (EvStatus "plan: [pending] look" (Some "plan") None None) initialTurnState).
  reflexivity.
Defined.

End PipelineInvariants.
(* ===================================================================== *)
(** * More on the bounded guards                                          *)
(* ===================================================================== *)

Module GuardsInvariants.
Import Guards GuardsFacts.

(** ** The place of a key in the order of the map *)

(** The value of a key and the entries that come after it, the ones touched
    more recently. *)
Fixpoint locate {V : Type} (map : OrderedMap V) (key : string) : option (V * OrderedMap V) :=
  match map with
  | [] => None
  | (k, v) :: rest => if String.eqb k key then Some (v, rest) else locate rest key
  end.

Lemma locate_get {V : Type} (map : OrderedMap V) (key : string) :
  mapGet map key = option_map fst (locate map key).
Proof.
  induction map as [|[k v] rest IH]; [reflexivity|].
  cbn [mapGet locate]. now destruct (String.eqb k key).
Qed.

Lemma locate_length {V : Type} (map : OrderedMap V) (key : string) (v : V)
    (newer : OrderedMap V) :
  locate map key = Some (v, newer) -> (List.length newer < List.length map)%nat.
Proof.
  induction map as [|[k v0] rest IH]; [discriminate|].
  cbn [locate List.length]. destruct (String.eqb k key).
  - intros [= _ <-]. lia.
  - intros H. specialize (IH H). lia.
Qed.

Lemma locate_filter {V : Type} (keep : string * V -> bool) (map : OrderedMap V) (key : string)
    (v : V) (newer : OrderedMap V) :
  locate map key = Some (v, newer) ->
  keep (key, v) = true ->
  locate (List.filter keep map) key = Some (v, List.filter keep newer).
Proof.
  intros Hlocate Hkeep. induction map as [|[k v0] rest IH]; [discriminate|].
  cbn [locate] in Hlocate. cbn [List.filter].
  destruct (String.eqb_spec k key) as [->|Hne].
  - injection Hlocate as -> ->. rewrite Hkeep. cbn [locate]. now rewrite String.eqb_refl.
  - destruct (keep (k, v0)); [|now apply IH].
    cbn [locate]. destruct (String.eqb_spec k key); [contradiction | now apply IH].
Qed.

Lemma locate_app {V : Type} (map more : OrderedMap V) (key : string) (v : V)
    (newer : OrderedMap V) :
  locate map key = Some (v, newer) ->
  locate (map ++ more)%list key = Some (v, (newer ++ more)%list).
Proof.
  induction map as [|[k v0] rest IH]; [discriminate|].
  cbn [locate app]. destruct (String.eqb k key); [now intros [= -> ->] | exact IH].
Qed.

Lemma locate_app_absent {V : Type} (map more : OrderedMap V) (key : string) :
  mapGet map key = None -> locate (map ++ more)%list key = locate more key.
Proof.
  induction map as [|[k v0] rest IH]; [reflexivity|].
  cbn [mapGet locate app]. destruct (String.eqb k key); [discriminate | exact IH].
Qed.

(** The eviction of the oldest entries leaves a key in its place when
    fewer entries than are kept came after it. *)
Lemma locate_skipn {V : Type} (n : nat) (map : OrderedMap V) (key : string) (v : V)
    (newer : OrderedMap V) :
  locate map key = Some (v, newer) ->
  (n + List.length newer < List.length map)%nat ->
  locate (skipn n map) key = Some (v, newer).
Proof.
  revert map. induction n as [|n IH]; intros map Hlocate Hroom; [exact Hlocate|].
  destruct map as [|[k v0] rest]; [discriminate|].
  cbn [skipn]. cbn [locate] in Hlocate. cbn [List.length] in Hroom.
  destruct (String.eqb k key).
  - injection Hlocate as -> ->. lia.
  - apply IH; [exact Hlocate | lia].
Qed.

Lemma locate_prune {V : Type} (map : OrderedMap V) (key : string) (v : V)
    (newer : OrderedMap V) (maxSize : Z) :
  locate map key = Some (v, newer) ->
  Z.of_nat (List.length newer) < maxSize ->
  locate (pruneMapToMaxSize map maxSize) key = Some (v, newer).
Proof.
  intros Hlocate Hroom. unfold pruneMapToMaxSize, mapSize. apply locate_skipn; [exact Hlocate|].
  pose proof (locate_length _ _ _ _ Hlocate). lia.
Qed.

(** A key that was just touched is the newest. *)
Lemma locate_touch {V : Type} (map : OrderedMap V) (key : string) (v : V) :
  locate (touch map key v) key = Some (v, []).
Proof.
  unfold touch. rewrite locate_app_absent by apply mapGet_delete.
  cbn [locate]. now rewrite String.eqb_refl.
Qed.

(** The touch of another key puts one entry more after the key, or none. *)
Lemma locate_touch_other {V : Type} (map : OrderedMap V) (key other : string) (v w : V)
    (newer : OrderedMap V) :
  other <> key ->
  locate map key = Some (v, newer) ->
  exists newer' : OrderedMap V,
    locate (touch map other w) key = Some (v, newer')
    /\ (List.length newer' <= List.length newer + 1)%nat.
Proof.
  intros Hother Hlocate. unfold touch, mapDelete.
  exists (List.filter (fun kv => negb (String.eqb (fst kv) other)) newer ++ [(other, w)])%list.
  split.
  - apply locate_app, locate_filter; [exact Hlocate|]. cbn [fst].
    destruct (String.eqb_spec key other); [congruence | reflexivity].
  - rewrite length_app. cbn [List.length].
    pose proof (List.filter_length_le (fun kv => negb (String.eqb (fst kv) other)) newer). lia.
Qed.

Lemma mapGet_touch_other {V : Type} (map : OrderedMap V) (key other : string) (w : V) :
  other <> key -> mapGet (touch map other w) key = mapGet map key.
Proof.
  intros Hother. rewrite !locate_get.
  destruct (locate map key) as [[v newer]|] eqn:Hlocate.
  - destruct (locate_touch_other map key other v w newer Hother Hlocate) as (newer' & -> & _).
    reflexivity.
  - unfold touch, mapDelete.
    assert (Hnone : mapGet map key = None) by now rewrite locate_get, Hlocate.
    rewrite <- !locate_get, mapGet_app, (mapGet_filter_none _ _ _ Hnone). cbn [mapGet].
    destruct (String.eqb_spec other key); [contradiction | reflexivity].
Qed.

(** ** The bounded counter *)

Section CounterInvariants.
Import Counter.

Variable options : Options.

Local Abbreviation maxTrackedKeys := (Counter.maxTrackedKeys options).
Local Abbreviation ttlMs := (Counter.ttlMs options).
Local Abbreviation increment := (Counter.increment options).
Local Abbreviation isExpired := (Counter.isExpired options).
Local Abbreviation sweep := (Counter.sweep options).
Local Abbreviation run := (Counter.run options).

(** An entry that has not expired stays in its place through the sweep. *)
Lemma counter_sweep_locate (c : BoundedCounter) (key : string) (nowMs : Z) (entry : CounterState)
    (newer : OrderedMap CounterState) :
  locate (counters c) key = Some (entry, newer) ->
  isExpired entry nowMs = false ->
  exists newer' : OrderedMap CounterState,
    locate (counters (sweep c nowMs)) key = Some (entry, newer')
    /\ (List.length newer' <= List.length newer)%nat.
Proof.
  intros Hlocate Hfresh. unfold Counter.sweep.
  destruct (nowMs - lastPruneMs c >=? _)%Z; [|now exists newer].
  cbn [counters]. unfold Counter.prune.
  destruct (Counter.ttlMs options >? 0)%Z; [|now exists newer].
  eexists. split.
  - apply locate_filter; [exact Hlocate|]. cbn [snd]. now rewrite Hfresh.
  - apply List.filter_length_le.
Qed.

(** An entry that has expired is gone after the sweep or still there: the
    count starts again either way. *)
Lemma counter_sweep_expired (c : BoundedCounter) (key : string) (nowMs : Z)
    (entry : CounterState) :
  uniqueKeys (counters c) ->
  mapGet (counters c) key = Some entry ->
  isExpired entry nowMs = true ->
  mapGet (counters (sweep c nowMs)) key = None
  \/ mapGet (counters (sweep c nowMs)) key = Some entry.
Proof.
  intros Hunique Hget Hexpired. unfold Counter.sweep.
  destruct (nowMs - lastPruneMs c >=? _)%Z; [|now right].
  cbn [counters]. unfold Counter.prune.
  destruct (Counter.ttlMs options >? 0)%Z; [|now right].
  left. apply (mapGet_filter_dropped _ _ _ entry Hunique Hget). cbn [snd].
  now rewrite Hexpired.
Qed.

Lemma counter_sweep_absent (c : BoundedCounter) (key : string) (nowMs : Z) :
  mapGet (counters c) key = None -> mapGet (counters (sweep c nowMs)) key = None.
Proof.
  intros Hnone. unfold Counter.sweep.
  destruct (nowMs - lastPruneMs c >=? _)%Z; [|exact Hnone].
  cbn [counters]. unfold Counter.prune.
  destruct (Counter.ttlMs options >? 0)%Z; [|exact Hnone].
  now apply mapGet_filter_none.
Qed.

(** X19: [increment] returns the count of the key after the call: one more
    than the count that is tracked for the key when that has not expired,
    and 1 for a key that is not tracked or whose count has expired; the
    count is stored with the time of the call.  The empty key is not
    counted: the call returns 0 and changes nothing. *)
Theorem increment_counts (key : string) (nowMs : Z) (c : BoundedCounter) :
  key <> "" ->
  uniqueKeys (counters c) ->
  fst (increment key nowMs c)
  = match mapGet (counters c) key with
    | Some existing => if isExpired existing nowMs then 1 else count existing + 1
    | None => 1
    end
  /\ mapGet (counters (snd (increment key nowMs c))) key
     = Some {| count := fst (increment key nowMs c); updatedAtMs := nowMs |}
  /\ increment "" nowMs c = (0, c).
Proof.
  intros Hkey Hunique. apply JsFacts.nonEmpty_true in Hkey.
  unfold Counter.increment. rewrite Hkey. cbn [negb fst snd counters Js.nonEmpty].
  split; [|split; [apply mapGet_touch_prune, counter_maxTrackedKeys_pos | reflexivity]].
  destruct (mapGet (counters c) key) as [existing|] eqn:Hget.
  - destruct (isExpired existing nowMs) eqn:Hexpired.
    + destruct (counter_sweep_expired c key nowMs existing Hunique Hget Hexpired) as [-> | ->];
        [reflexivity | now rewrite Hexpired].
    + rewrite locate_get in Hget.
      destruct (locate (counters c) key) as [[entry newer]|] eqn:Hlocate; [|discriminate].
      injection Hget as ->.
      destruct (counter_sweep_locate c key nowMs existing newer Hlocate Hexpired)
        as (newer' & Hswept & _).
      rewrite locate_get, Hswept. cbn [option_map fst]. now rewrite Hexpired.
  - now rewrite (counter_sweep_absent c key nowMs Hget).
Qed.

(** One call for another key: the key keeps its entry, with at most one
    entry more after it. *)
Lemma increment_other (c : BoundedCounter) (key other : string) (nowMs : Z)
    (entry : CounterState) (newer : OrderedMap CounterState) :
  other <> key ->
  locate (counters c) key = Some (entry, newer) ->
  isExpired entry nowMs = false ->
  Z.of_nat (List.length newer) + 1 < maxTrackedKeys ->
  exists newer' : OrderedMap CounterState,
    locate (counters (snd (increment other nowMs c))) key = Some (entry, newer')
    /\ (List.length newer' <= List.length newer + 1)%nat.
Proof.
  intros Hother Hlocate Hfresh Hroom. unfold Counter.increment.
  destruct (negb (Js.nonEmpty other)); [exists newer; split; [exact Hlocate | lia]|].
  cbn [snd counters].
  destruct (counter_sweep_locate c key nowMs entry newer Hlocate Hfresh)
    as (newer1 & Hswept & Hlen1).
  match goal with |- context [touch _ other ?w] =>
    destruct (locate_touch_other (counters (sweep c nowMs)) key other entry w newer1
                Hother Hswept) as (newer2 & Htouched & Hlen2)
  end.
  exists newer2. split; [|lia].
  apply locate_prune; [exact Htouched | lia].
Qed.

(** X20: a key that was just counted is the last to go: calls for fewer than
    [maxTrackedKeys] other keys, at times when its count has not expired,
    neither evict it nor change its count. *)
Theorem counted_key_outlives_other_keys
    (key : string) (nowMs : Z) (c : BoundedCounter) (others : list (string * Z)) :
  key <> "" ->
  Forall (fun request =>
            fst request <> key
            /\ isExpired {| count := fst (increment key nowMs c); updatedAtMs := nowMs |}
                 (snd request) = false) others ->
  Z.of_nat (List.length others) < maxTrackedKeys ->
  mapGet (counters (run others (snd (increment key nowMs c)))) key
  = Some {| count := fst (increment key nowMs c); updatedAtMs := nowMs |}.
Proof.
  intros Hkey Hothers Hfew.
  set (entry := {| count := fst (increment key nowMs c); updatedAtMs := nowMs |}) in *.
  assert (Hstart : locate (counters (snd (increment key nowMs c))) key = Some (entry, [])).
  { apply JsFacts.nonEmpty_true in Hkey. unfold entry, Counter.increment. rewrite Hkey.
    cbn [negb fst snd counters].
    apply locate_prune; [apply locate_touch|].
    pose proof counter_maxTrackedKeys_pos options. cbn [List.length]. lia. }
  assert (Hrun : forall (others : list (string * Z)) (c' : BoundedCounter)
                        (newer : OrderedMap CounterState),
             Forall (fun request =>
                       fst request <> key /\ isExpired entry (snd request) = false) others ->
             locate (counters c') key = Some (entry, newer) ->
             Z.of_nat (List.length newer) + Z.of_nat (List.length others) < maxTrackedKeys ->
             mapGet (counters (run others c')) key = Some entry).
  { clear. intros others. induction others as [|[other t] rest IH]; intros c' newer Hall Hloc Hlen.
    - cbn [Counter.run]. now rewrite locate_get, Hloc.
    - cbn [Counter.run]. inversion Hall as [|? ? [Hother Hfresh] Hrest]; subst.
      cbn [fst snd] in Hother, Hfresh. cbn [List.length] in Hlen.
      destruct (increment_other c' key other t entry newer Hother Hloc Hfresh)
        as (newer' & Hloc' & Hlen'); [lia|].
      apply (IH _ newer' Hrest Hloc'). lia. }
  apply (Hrun others _ [] Hothers Hstart). cbn [List.length]. lia.
Qed.

End CounterInvariants.

(** ** The fixed-window rate limiter *)

Section LimiterInvariants.
Import FixedWindow.

Variable options : Options.

Local Abbreviation windowMs := (FixedWindow.windowMs options).
Local Abbreviation maxTrackedKeys := (FixedWindow.maxTrackedKeys options).
Local Abbreviation pruneIntervalMs := (FixedWindow.pruneIntervalMs options).
Local Abbreviation isRateLimited := (FixedWindow.isRateLimited options).
Local Abbreviation sweep := (FixedWindow.sweep options).

(** The windows that are open at [nowMs]. *)
Definition allLive (map : OrderedMap FixedWindowState) (nowMs : Z) : Prop :=
  Forall (fun kv => nowMs - windowStartMs (snd kv) < windowMs) map.

Lemma allLive_filter (keep : string * FixedWindowState -> bool)
    (map : OrderedMap FixedWindowState) (nowMs : Z) :
  allLive map nowMs -> allLive (List.filter keep map) nowMs.
Proof.
  unfold allLive. rewrite !List.Forall_forall. intros Hall kv Hin.
  apply filter_In in Hin as [Hin _]. now apply Hall.
Qed.

Lemma allLive_skipn (n : nat) (map : OrderedMap FixedWindowState) (nowMs : Z) :
  allLive map nowMs -> allLive (skipn n map) nowMs.
Proof.
  unfold allLive. rewrite !List.Forall_forall. intros Hall kv Hin.
  apply Hall. now apply (in_skipn n).
Qed.

Lemma allLive_touch (map : OrderedMap FixedWindowState) (key : string)
    (entry : FixedWindowState) (nowMs : Z) :
  allLive map nowMs ->
  nowMs - windowStartMs entry < windowMs ->
  allLive (pruneMapToMaxSize (touch map key entry) maxTrackedKeys) nowMs.
Proof.
  intros Hall Hentry. apply allLive_skipn. unfold touch, allLive. apply Forall_app. split.
  - now apply allLive_filter.
  - now repeat constructor.
Qed.

Lemma mapGet_allLive (map : OrderedMap FixedWindowState) (key : string)
    (entry : FixedWindowState) (nowMs : Z) :
  allLive map nowMs -> mapGet map key = Some entry -> nowMs - windowStartMs entry < windowMs.
Proof.
  unfold allLive. rewrite List.Forall_forall. intros Hall Hget.
  apply mapGet_some_keys in Hget. now apply (Hall (key, entry)).
Qed.

(** X21: a call that comes [pruneIntervalMs] or more after the last sweep
    sweeps first: after it the limiter tracks no window that has elapsed,
    and the time of the call is the time of the last sweep.  A call that
    comes sooner sweeps nothing. *)
Theorem due_call_sweeps_elapsed_windows (key : string) (nowMs : Z) (l : Limiter) :
  key <> "" ->
  (pruneIntervalMs <= nowMs - lastPruneMs l ->
   allLive (state (snd (isRateLimited key nowMs l))) nowMs
   /\ lastPruneMs (snd (isRateLimited key nowMs l)) = nowMs)
  /\ (nowMs - lastPruneMs l < pruneIntervalMs ->
      sweep l nowMs = l
      /\ lastPruneMs (snd (isRateLimited key nowMs l)) = lastPruneMs l).
Proof.
  intros Hkey. apply JsFacts.nonEmpty_true in Hkey.
  pose proof (atLeastOne_pos (opt_windowMs options)) as Hwindow.
  fold windowMs in Hwindow.
  assert (Hlast : lastPruneMs (snd (isRateLimited key nowMs l)) = lastPruneMs (sweep l nowMs)).
  { unfold FixedWindow.isRateLimited. rewrite Hkey. cbn [negb].
    destruct (mapGet (state (sweep l nowMs)) key) as [existing|]; [|reflexivity].
    now destruct (nowMs - windowStartMs existing >=? _)%Z. }
  split.
  - intros Hdue.
    assert (Hswept : sweep l nowMs
                     = {| state := FixedWindow.prune options (state l) nowMs;
                          lastPruneMs := nowMs |}).
    { unfold FixedWindow.sweep.
      destruct (Z.geb_spec (nowMs - lastPruneMs l) pruneIntervalMs); [reflexivity | lia]. }
    split; [|now rewrite Hlast, Hswept].
    assert (Hlive : allLive (state (sweep l nowMs)) nowMs).
    { rewrite Hswept. cbn [state]. unfold FixedWindow.prune, allLive.
      rewrite List.Forall_forall. intros kv Hin. apply filter_In in Hin as [_ Hkept].
      destruct (Z.geb_spec (nowMs - windowStartMs (snd kv)) windowMs); [discriminate | lia]. }
    unfold FixedWindow.isRateLimited. rewrite Hkey. cbn [negb].
    destruct (mapGet (state (sweep l nowMs)) key) as [existing|] eqn:Hget.
    + pose proof (mapGet_allLive _ _ _ _ Hlive Hget) as Hopen.
      destruct (Z.geb_spec (nowMs - windowStartMs existing) windowMs); [lia|].
      cbn [snd state]. now apply allLive_touch.
    + cbn [snd state]. apply allLive_touch; [exact Hlive|]. cbn [windowStartMs]. lia.
  - intros Hsoon.
    assert (Hswept : sweep l nowMs = l).
    { unfold FixedWindow.sweep.
      destruct (Z.geb_spec (nowMs - lastPruneMs l) pruneIntervalMs); [lia | reflexivity]. }
    split; [exact Hswept | now rewrite Hlast, Hswept].
Qed.

(** X22: while the limiter has room for one more key, a call for one key
    leaves the open window of every other key as it is: its count and its
    start. *)
Theorem other_keys_keep_their_window
    (key other : string) (nowMs : Z) (l : Limiter) (existing : FixedWindowState) :
  other <> key ->
  FixedWindow.size l < maxTrackedKeys ->
  mapGet (state l) key = Some existing ->
  nowMs - windowStartMs existing < windowMs ->
  mapGet (state (snd (isRateLimited other nowMs l))) key = Some existing.
Proof.
  intros Hother Hroom Hget Hopen.
  pose proof (sweep_live options l key nowMs existing Hget Hopen) as Hswept.
  assert (Hsize : mapSize (state (sweep l nowMs)) <= mapSize (state l)).
  { unfold FixedWindow.sweep. destruct (nowMs - lastPruneMs l >=? _)%Z; [|lia].
    cbn [state]. unfold FixedWindow.prune, mapSize.
    pose proof (List.filter_length_le
                  (fun kv : string * FixedWindowState =>
                     negb (nowMs - windowStartMs (snd kv) >=? windowMs)%Z) (state l)).
    lia. }
  assert (Hkept : forall entry : FixedWindowState,
             mapGet (pruneMapToMaxSize (touch (state (sweep l nowMs)) other entry)
                       maxTrackedKeys) key = Some existing).
  { intros entry. unfold pruneMapToMaxSize.
    assert (Hzero : Z.to_nat (mapSize (touch (state (sweep l nowMs)) other entry)
                              - maxTrackedKeys) = 0%nat).
    { unfold FixedWindow.size in Hroom. unfold touch, mapSize in *. rewrite length_app.
      pose proof (mapDelete_length (state (sweep l nowMs)) other). cbn [List.length]. lia. }
    rewrite Hzero, List.skipn_O. now rewrite mapGet_touch_other. }
  unfold FixedWindow.isRateLimited.
  destruct (negb (Js.nonEmpty other)); [exact Hget|].
  destruct (mapGet (state (sweep l nowMs)) other) as [theirs|]; [|apply Hkept].
  destruct (nowMs - windowStartMs theirs >=? _)%Z; apply Hkept.
Qed.

End LimiterInvariants.

(** ** On concrete guards *)

(** A counter that has counted ["k"] once, at 100. *)
Definition countedOnce : Counter.BoundedCounter :=
  snd (Counter.increment (counterOptions 3 (Some 10) None) "k" 100 Counter.create).

Lemma countedOnce_uniqueKeys : uniqueKeys (Counter.counters countedOnce).
Proof. apply List.NoDup_cons; [intros [] | apply List.NoDup_nil]. Defined.

Lemma increment_counts_witness :
  fst (Counter.increment (counterOptions 3 (Some 10) None) "k" 105 countedOnce)
  = match mapGet (Counter.counters countedOnce) "k" with
    | Some existing =>
        if Counter.isExpired (counterOptions 3 (Some 10) None) existing 105 then 1
        else Counter.count existing + 1
    | None => 1
    end
  /\ mapGet
       (Counter.counters
          (snd (Counter.increment (counterOptions 3 (Some 10) None) "k" 105 countedOnce))) "k"
     = Some {| Counter.count :=
                 fst (Counter.increment (counterOptions 3 (Some 10) None) "k" 105 countedOnce);
               Counter.updatedAtMs := 105 |}
  /\ Counter.increment (counterOptions 3 (Some 10) None) "" 105 countedOnce = (0, countedOnce).
Proof.
  apply (increment_counts (counterOptions 3 (Some 10) None) "k" 105 countedOnce);
    [discriminate | exact countedOnce_uniqueKeys].
Defined.

Example increment_counts_and_expires :
  fst (Counter.increment (counterOptions 3 (Some 10) None) "k" 105 countedOnce) = 2
  /\ fst (Counter.increment (counterOptions 3 (Some 10) None) "k" 110 countedOnce) = 1.
Proof. split; vm_compute; reflexivity. Qed.

Lemma counted_key_outlives_other_keys_witness :
  mapGet
    (Counter.counters
       (Counter.run (counterOptions 3 None None) [("a", 1001); ("b", 1002)]
          (snd (Counter.increment (counterOptions 3 None None) "k" 1000 Counter.create)))) "k"
  = Some {| Counter.count :=
              fst (Counter.increment (counterOptions 3 None None) "k" 1000 Counter.create);
            Counter.updatedAtMs := 1000 |}.
Proof.
  apply (counted_key_outlives_other_keys (counterOptions 3 None None) "k" 1000 Counter.create
           [("a", 1001); ("b", 1002)]).
  - discriminate.
  - repeat constructor; discriminate.
  - vm_compute. reflexivity.
Defined.

(** One key more than the limit: the key counted first is gone. *)
Example third_other_key_evicts :
  mapGet
    (Counter.counters
       (Counter.run (counterOptions 3 None None) [("a", 1001); ("b", 1002); ("c", 1003)]
          (snd (Counter.increment (counterOptions 3 None None) "k" 1000 Counter.create)))) "k"
  = None.
Proof. vm_compute. reflexivity. Qed.

(** A limiter that has seen ["old"] at 100. *)
Definition seenOld : FixedWindow.Limiter :=
  snd (FixedWindow.isRateLimited (limiterOptions 10 1 100 (Some 10)) "old" 100
         FixedWindow.create).

Lemma due_call_sweeps_elapsed_windows_witness :
  (FixedWindow.pruneIntervalMs (limiterOptions 10 1 100 (Some 10))
   <= 120 - FixedWindow.lastPruneMs seenOld ->
   allLive (limiterOptions 10 1 100 (Some 10))
     (FixedWindow.state
        (snd (FixedWindow.isRateLimited (limiterOptions 10 1 100 (Some 10)) "fresh" 120
                seenOld))) 120
   /\ FixedWindow.lastPruneMs
        (snd (FixedWindow.isRateLimited (limiterOptions 10 1 100 (Some 10)) "fresh" 120
                seenOld)) = 120)
  /\ (120 - FixedWindow.lastPruneMs seenOld
      < FixedWindow.pruneIntervalMs (limiterOptions 10 1 100 (Some 10)) ->
      FixedWindow.sweep (limiterOptions 10 1 100 (Some 10)) seenOld 120 = seenOld
      /\ FixedWindow.lastPruneMs
           (snd (FixedWindow.isRateLimited (limiterOptions 10 1 100 (Some 10)) "fresh" 120
                   seenOld))
         = FixedWindow.lastPruneMs seenOld).
Proof.
  apply (due_call_sweeps_elapsed_windows (limiterOptions 10 1 100 (Some 10)) "fresh" 120
           seenOld).
  discriminate.
Defined.

Example due_call_drops_old :
  FixedWindow.state
    (snd (FixedWindow.isRateLimited (limiterOptions 10 1 100 (Some 10)) "fresh" 120 seenOld))
  = [("fresh", {| FixedWindow.count := 1; FixedWindow.windowStartMs := 120 |})].
Proof. vm_compute. reflexivity. Qed.

Lemma other_keys_keep_their_window_witness :
  mapGet
    (FixedWindow.state
       (snd (FixedWindow.isRateLimited (limiterOptions 10 1 100 (Some 10)) "fresh" 105
               seenOld))) "old"
  = Some {| FixedWindow.count := 1; FixedWindow.windowStartMs := 100 |}.
Proof.
  apply (other_keys_keep_their_window (limiterOptions 10 1 100 (Some 10)) "old" "fresh" 105
           seenOld {| FixedWindow.count := 1; FixedWindow.windowStartMs := 100 |}).
  - discriminate.
  - vm_compute. reflexivity.
  - reflexivity.
  - vm_compute. reflexivity.
Defined.

End GuardsInvariants.
